(** * acrion image: pixel containers, colours, interpolation, display mapping

    A shallow embedding of the headers [utility.hpp], [color.hpp],
    [mixable_scalar.hpp], [interpolation.hpp], [bitmap_data.hpp] and the
    constructor and accessors of [bitmap.hpp] of the acrion image library,
    followed by the properties established about them.

    Conventions.
    - A sample of an unsigned integer domain is a [Z] in [0, 2^bits);
      conversion to the sample type ([static_cast<T>]) is reduction modulo
      [2^bits].  C++ [int] coordinates are unbounded [Z]: the two agree as
      long as no [int] computation leaves [INT_MIN .. INT_MAX].
    - [double] values that only steer control flow through exact operations
      (comparison, [floor], [min], [max]) are rationals [Q].  The results of
      rounding library functions ([sqrt], [log], [log1p], the luma formula)
      are taken from an interface [FloatOps]; nothing proved below depends on
      which values they return.
    - A [throw] is the [inl] branch of a sum; a mutating member returns the
      updated container next to its outcome, so that writes performed before
      a [throw] stay visible.
    - [#pragma omp parallel for] loops are run in index order.  An exception
      that leaves an iteration of such a loop does not reach the caller, the
      program terminates: the [inl] outcome of a parallel loop stands for
      that, and the statements about these loops are about the runs in which
      no iteration throws. *)

From Stdlib Require Import ZArith QArith Qround Lia List Bool String.
From stdpp Require Import base list.

Open Scope Z_scope.

(** ** Floating-point library functions used by the headers *)

Class FloatOps : Type := {
  (** [std::sqrt] *)
  f_sqrt : Q -> Q;
  (** [log] *)
  f_log : Q -> Q;
  (** [log1p] *)
  f_log1p : Q -> Q;
  (** [std::llround(0.299 * r + 0.587 * g + 0.114 * b)] *)
  llround_luma : Z -> Z -> Z -> Z
}.

(** [std::lround]/[std::llround] on an exact value: nearest integer, ties
    away from zero. *)
Definition lround (q : Q) : Z :=
  if Qle_bool 0 q then Qfloor (q + (1 # 2)) else Qceiling (q - (1 # 2)).

(** An executable stand-in (integer square root and logarithm, exact luma
    quotient), used to run the model on concrete inputs. *)
Definition exact_float_ops : FloatOps := {|
  f_sqrt q := inject_Z (Z.sqrt (Qfloor q));
  f_log q := inject_Z (Z.log2 (Qfloor q));
  f_log1p q := inject_Z (Z.log2 (Qfloor q + 1));
  llround_luma r g b :=
    lround (inject_Z (299 * r + 587 * g + 114 * b) / inject_Z 1000)
|}.

(** ** utility.hpp and the sample domains *)

Module utility.

(** The five instantiations of the templates. *)
Inductive SampleType : Type := U8 | U16 | U32 | U64 | F64.

Definition sizeof (T : SampleType) : Z :=
  match T with
  | U8 => 1 | U16 => 2 | U32 => 4 | U64 => 8 | F64 => 8
  end.

Definition is_floating_point (T : SampleType) : bool :=
  match T with F64 => true | _ => false end.

Definition bits (T : SampleType) : Z := 8 * sizeof T.

(** [DBL_MAX = (2^53 - 1) * 2^971], an integer. *)
Definition DBL_MAX : Z := (2 ^ 53 - 1) * 2 ^ 971.

(** [std::numeric_limits<T>::max()] *)
Definition numeric_limits_max (T : SampleType) : Z :=
  match T with
  | F64 => DBL_MAX
  | _ => 2 ^ bits T - 1
  end.

(** [std::numeric_limits<T>::lowest()] *)
Definition numeric_limits_lowest (T : SampleType) : Z :=
  match T with
  | F64 => - DBL_MAX
  | _ => 0
  end.

(** [std::numeric_limits<T>::min()]: for [double] this is the smallest
    positive normal number [2^-1022], hence a rational. *)
Definition numeric_limits_min (T : SampleType) : Q :=
  match T with
  | F64 => 1 # (2 ^ 1022)
  | _ => 0
  end.

(** [static_cast<T>] of an integer value to an unsigned domain wraps;
    the [double] domain is not reduced. *)
Definition static_cast (T : SampleType) (z : Z) : Z :=
  if is_floating_point T then z else z mod 2 ^ bits T.

(** [static_cast<int64_t>] of an unsigned value of at most 64 bits. *)
Definition to_int64 (z : Z) : Z := (z + 2 ^ 63) mod 2 ^ 64 - 2 ^ 63.

(** [T BoundedAdd(const T& a, long double b)] on an integer-valued [b], as
    [operator+(Color<T>, const int64_t&)] passes it; the [long double]
    comparisons and the sum are exact on such operands.  The final
    [static_cast<T>] is applied to a value of [T]'s range unless [a] is a
    64-bit sample of 2^63 or more. *)
Definition BoundedAdd (T : SampleType) (a b : Z) : Z :=
  if (b >=? numeric_limits_max T) || (a >? numeric_limits_max T - b)
  then numeric_limits_max T
  else if (b <=? - numeric_limits_max T) || (a <? numeric_limits_lowest T - b)
  then numeric_limits_lowest T
  else static_cast T (to_int64 a + b).

(** [T BoundedSub(const T& a, long double b)] *)
Definition BoundedSub (T : SampleType) (a b : Z) : Z := BoundedAdd T a (- b).

(** [std::numeric_limits<int>::min()] and [max()] of the 32-bit [int]. *)
Definition INT_MIN : Z := - 2 ^ 31.
Definition INT_MAX : Z := 2 ^ 31 - 1.

End utility.
Export utility.

(** ** color.hpp *)

Record Color : Type := mkColor {
  _red : Z;
  _green : Z;
  _blue : Z;
  _alpha : Z
}.

Module ColorOps.

(** [Color(red, green, blue, alpha = max)] *)
Definition rgba (T : SampleType) (red green blue alpha : Z) : Color :=
  mkColor (static_cast T red) (static_cast T green) (static_cast T blue)
          (static_cast T alpha).

Definition rgb (T : SampleType) (red green blue : Z) : Color :=
  rgba T red green blue (numeric_limits_max T).

(** [Color(gray, alpha = max)] *)
Definition gray_alpha (T : SampleType) (gray alpha : Z) : Color :=
  rgba T gray gray gray alpha.

Definition gray (T : SampleType) (g : Z) : Color :=
  gray_alpha T g (numeric_limits_max T).

Definition Red (c : Color) : Z := _red c.
Definition Green (c : Color) : Z := _green c.
Definition Blue (c : Color) : Z := _blue c.
Definition Alpha (c : Color) : Z := _alpha c.

Definition IsColored (c : Color) : bool :=
  negb (_red c =? _green c) || negb (_red c =? _blue c).

Definition Gray `{FloatOps} (T : SampleType) (c : Color) : Z :=
  if (_red c =? _green c) && (_red c =? _blue c)
  then _red c
  else static_cast T (llround_luma (_red c) (_green c) (_blue c)).

(** [Color& operator+=(Color rhs)]: built-in [+=] on each of red, green,
    blue; alpha is left alone. *)
Definition add_assign (T : SampleType) (lhs rhs : Color) : Color :=
  mkColor (static_cast T (_red lhs + _red rhs))
          (static_cast T (_green lhs + _green rhs))
          (static_cast T (_blue lhs + _blue rhs))
          (_alpha lhs).

(** [Color& operator-=(Color rhs)]: built-in [-=] on each of red, green,
    blue; alpha is left alone. *)
Definition sub_assign (T : SampleType) (lhs rhs : Color) : Color :=
  mkColor (static_cast T (_red lhs - _red rhs))
          (static_cast T (_green lhs - _green rhs))
          (static_cast T (_blue lhs - _blue rhs))
          (_alpha lhs).

(** [operator+(Color lhs, const Color& rhs)] and [operator-]. *)
Definition add (T : SampleType) (lhs rhs : Color) : Color :=
  add_assign T lhs rhs.
Definition sub (T : SampleType) (lhs rhs : Color) : Color :=
  sub_assign T lhs rhs.

(** [operator==(Color, Color)] *)
Definition eqb (lhs rhs : Color) : bool :=
  (Red lhs =? Red rhs) && (Green lhs =? Green rhs)
  && (Blue lhs =? Blue rhs) && (Alpha lhs =? Alpha rhs).

(** The channels of a colour are samples of [T]. *)
Definition in_range (T : SampleType) (c : Color) : Prop :=
  0 <= _red c < 2 ^ bits T /\ 0 <= _green c < 2 ^ bits T
  /\ 0 <= _blue c < 2 ^ bits T.

(** [Color& operator+=(long double rhs)] and [operator-=(long double rhs)]
    on an integer-valued [rhs]. *)
Definition add_scalar (T : SampleType) (lhs : Color) (rhs : Z) : Color :=
  mkColor (BoundedAdd T (_red lhs) rhs) (BoundedAdd T (_green lhs) rhs)
          (BoundedAdd T (_blue lhs) rhs) (_alpha lhs).

Definition sub_scalar (T : SampleType) (lhs : Color) (rhs : Z) : Color :=
  mkColor (BoundedSub T (_red lhs) rhs) (BoundedSub T (_green lhs) rhs)
          (BoundedSub T (_blue lhs) rhs) (_alpha lhs).

(** [operator+(Color<T> lhs, const int64_t& rhs)] and [operator-]: [lhs +=
    rhs] converts [rhs] to [long double]. *)
Definition plus_int64 (T : SampleType) (lhs : Color) (rhs : Z) : Color :=
  add_scalar T lhs rhs.
Definition minus_int64 (T : SampleType) (lhs : Color) (rhs : Z) : Color :=
  sub_scalar T lhs rhs.

(** [Color& operator*=(T rhs)]: the product is taken in [long double] and
    cut at [max] before the conversion back. *)
Definition mul_assign (T : SampleType) (lhs : Color) (rhs : Z) : Color :=
  mkColor (static_cast T (Z.min (numeric_limits_max T) (_red lhs * rhs)))
          (static_cast T (Z.min (numeric_limits_max T) (_green lhs * rhs)))
          (static_cast T (Z.min (numeric_limits_max T) (_blue lhs * rhs)))
          (_alpha lhs).

(** [Color& operator/=(T rhs)]: built-in [/=]; dividing by 0 is undefined
    in the source and gives 0 here. *)
Definition div_assign (T : SampleType) (lhs : Color) (rhs : Z) : Color :=
  mkColor (static_cast T (Z.quot (_red lhs) rhs))
          (static_cast T (Z.quot (_green lhs) rhs))
          (static_cast T (Z.quot (_blue lhs) rhs))
          (_alpha lhs).

(** [operator*(Color<T> lhs, const T& rhs)] and [operator/]. *)
Definition mul (T : SampleType) (lhs : Color) (rhs : Z) : Color :=
  mul_assign T lhs rhs.
Definition div (T : SampleType) (lhs : Color) (rhs : Z) : Color :=
  div_assign T lhs rhs.

(** [operator<(Color, Color)] compares [Gray()]; [operator>], [operator<=]
    and [operator>=] are written in terms of it. *)
Definition ltb `{FloatOps} (T : SampleType) (lhs rhs : Color) : bool :=
  Gray T lhs <? Gray T rhs.
Definition gtb `{FloatOps} (T : SampleType) (lhs rhs : Color) : bool :=
  ltb T rhs lhs.
Definition leb `{FloatOps} (T : SampleType) (lhs rhs : Color) : bool :=
  negb (ltb T rhs lhs).
Definition geb `{FloatOps} (T : SampleType) (lhs rhs : Color) : bool :=
  negb (ltb T lhs rhs).

End ColorOps.

(** ** mixable_scalar.hpp and interpolation.hpp *)

Module interpolation.

(** The duck-typed [Mix] member the algorithm requires of its value type:
    [base.Mix({{w1, v1}, ...})].  [Color<T>::Mix], [MixableScalar<T>::Mix]
    and [Vector::Mix] compute it in floating point. *)
Class Mixable (V : Type) : Type := {
  Mix : V -> list (Q * V) -> V
}.

(** A computation that calls the [Getter]: its value and the lattice
    coordinates the getter was called with, in call order. *)
Definition Sampled (A : Type) : Type := (A * list (Z * Z))%type.

Definition ret {A : Type} (a : A) : Sampled A := (a, []).

Definition bind {A B : Type} (m : Sampled A) (k : A -> Sampled B)
  : Sampled B :=
  let (a, t1) := m in
  let (b, t2) := k a in
  (b, t1 ++ t2).

Notation "'let*' x ':=' m 'in' k" := (bind m (fun x => k))
  (at level 10, x name, m at level 100, k at level 200).

(** One call [Get(x, y)]. *)
Definition call {V : Type} (Get : Z -> Z -> V) (x y : Z) : Sampled V :=
  (Get x y, [(x, y)]).

(** [a < b] on doubles *)
Definition Qltb (a b : Q) : bool := negb (Qle_bool b a).

(** [std::min(a, b)] is [(b < a) ? b : a]; [std::max(a, b)] is
    [(a < b) ? b : a]. *)
Definition std_min (a b : Q) : Q := if Qltb b a then b else a.
Definition std_max (a b : Q) : Q := if Qltb a b then b else a.

(** [MixableScalar<T>::Mix] over exact arithmetic:
    [llround(clamp(1 - sumW, 0, 1) * _val + sum)]. *)
Definition MixableScalar_Mix (val : Z) (others : list (Q * Z)) : Z :=
  let sumW := fold_left (fun acc wv => (acc + fst wv)%Q) others 0%Q in
  let sum := fold_left (fun acc wv => (acc + fst wv * inject_Z (snd wv))%Q)
                       others 0%Q in
  let weight := std_max 0 (std_min 1 (1 - sumW)) in
  lround (weight * inject_Z val + sum).

Definition MixableScalar : Mixable Z := {| Mix := MixableScalar_Mix |}.

(** [T Do(dx, dy, min_x, min_y, max_x, max_y, Getter<T> Get)] on finite
    queries and bounds.  The tests that choose the branch ([<=], [>] on
    [dx - ix], [ix + 1]) are exact on doubles; the weights handed to [Mix]
    are written with exact arithmetic around [f_sqrt].  [ix], [iy] and the
    sums [ix + 1], [iy + 1] are [int] in the source and unbounded here: the
    two agree while the clamp bounds lie in [INT_MIN .. INT_MAX - 1].  With a
    bound of [INT_MAX] the source's [ix + 1] overflows, and beyond the [int]
    range its [static_cast<int>] is undefined. *)
Definition Do {V : Type} `{FloatOps} `{Mixable V}
    (dx dy min_x min_y max_x max_y : Q) (Get : Z -> Z -> V) : Sampled V :=
  let ix := Qfloor (std_max min_x (std_min max_x dx)) in
  let iy := Qfloor (std_max min_y (std_min max_y dy)) in
  let x := (dx - inject_Z ix)%Q in
  let y := (dy - inject_Z iy)%Q in
  if Qle_bool x 0 || Qltb max_x (inject_Z (ix + 1)) then
    if Qle_bool y 0 || Qltb max_y (inject_Z (iy + 1)) then
      call Get ix iy
    else
      let* a := call Get ix iy in
      let* c := call Get ix (iy + 1) in
      ret (Mix a [(y, c)])
  else if Qle_bool y 0 || Qltb max_y (inject_Z (iy + 1)) then
    let* a := call Get ix iy in
    let* b := call Get (ix + 1) iy in
    ret (Mix a [(x, b)])
  else
    let x_neg := (1 - x)%Q in
    let y_neg := (1 - y)%Q in
    let da := f_sqrt (x * x + y * y)%Q in
    let dc := f_sqrt (x * x + y_neg * y_neg)%Q in
    let db := f_sqrt (x_neg * x_neg + y * y)%Q in
    let dd := f_sqrt (x_neg * x_neg + y_neg * y_neg)%Q in
    let dab := f_sqrt (y * y)%Q in
    let dcd := f_sqrt (y_neg * y_neg)%Q in
    let dac := f_sqrt (x * x)%Q in
    let dbd := f_sqrt (x_neg * x_neg)%Q in
    let ci := std_max 0 (1 - dc)%Q in
    let bi := std_max 0 (1 - db)%Q in
    let ai := std_max 0 (1 - da)%Q in
    let di := std_max 0 (1 - dd)%Q in
    let abi := std_max 0 (1 - dab)%Q in
    let cdi := std_max 0 (1 - dcd)%Q in
    let aci := std_max 0 (1 - dac)%Q in
    let bdi := std_max 0 (1 - dbd)%Q in
    let t := (ai + bi + ci + di)%Q in
    let s := (abi + cdi + aci + bdi)%Q in
    let* a := call Get ix iy in
    let* b := call Get (ix + 1) iy in
    let* c := call Get ix (iy + 1) in
    let* d := call Get (ix + 1) (iy + 1) in
    let ab := if Qeq_bool x 0 then a else Mix a [(x, b)] in
    let cd := if Qeq_bool x 0 then c else Mix c [(x, d)] in
    let ac := if Qeq_bool y 0 then a else Mix a [(y, c)] in
    let bd := if Qeq_bool y 0 then b else Mix b [(y, d)] in
    let col1 :=
      if Qeq_bool s 0
      then Mix ab [((1 # 4)%Q, cd); ((1 # 4)%Q, ac); ((1 # 4)%Q, bd)]
      else Mix ab [((cdi / s)%Q, cd); ((aci / s)%Q, ac); ((bdi / s)%Q, bd)] in
    let col2 :=
      if Qeq_bool t 0
      then Mix a [((1 # 4)%Q, b); ((1 # 4)%Q, c); ((1 # 4)%Q, d)]
      else Mix a [((bi / t)%Q, b); ((ci / t)%Q, c); ((di / t)%Q, d)] in
    let weight := (2 * std_min (std_min (std_min dab dcd) dac) dbd)%Q in
    ret (Mix col1 [(weight, col2)]).

End interpolation.

(** ** bitmap_data.hpp: the pixel container *)

(** What the container throws ([std::runtime_error] with these messages). *)
Inductive exception : Type :=
| UnsupportedChannels (channels : Z)
    (* "BitmapData: Unsupported number of channels: ..." *)
| CannotSetAlpha (alpha channels : Z)
    (* "BitmapData::Set: Cannot set alpha channel to ... in an image with ... channels." *)
| DifferentSize
    (* "BitmapData::Copy: destination image has different size" *)
| UnsupportedChannelsDepth8 (channels : Z).
    (* "acrion::image::BitmapData::ConvertToDepth8: Unsupported number of channels: ..." *)

(** A computation that may throw. *)
Definition result (A : Type) : Type := (exception + A)%type.

(** [BitmapData<T>]: geometry, the sample buffer (row major, [_channels]
    samples per pixel, no padding), the channel indices ([-1] is "absent")
    and the displayed-brightness window. *)
Record BitmapData (T : SampleType) : Type := mkBitmapData {
  _width : Z;
  _height : Z;
  _channels : Z;
  _buffer : list Z;
  _grayIndex : Z;
  _alphaIndex : Z;
  _redIndex : Z;
  _greenIndex : Z;
  _blueIndex : Z;
  _minDisplayedBrightness : Z;
  _maxDisplayedBrightness : Z
}.

Arguments mkBitmapData {T}.
Arguments _width {T}.
Arguments _height {T}.
Arguments _channels {T}.
Arguments _buffer {T}.
Arguments _grayIndex {T}.
Arguments _alphaIndex {T}.
Arguments _redIndex {T}.
Arguments _greenIndex {T}.
Arguments _blueIndex {T}.
Arguments _minDisplayedBrightness {T}.
Arguments _maxDisplayedBrightness {T}.

(** A mutating member: the container afterwards and what the call did. *)
Definition effect (T : SampleType) (A : Type) : Type :=
  (BitmapData T * result A)%type.

(** What the members of the second part and the façade throw: an error of
    the members above, or one of their own. *)
Inductive error : Type :=
| Raised (e : exception)
| DifferentGeometry
    (* "BitmapData::AbsoluteDiff: Bitmaps have different geometry." *)
| UnsupportedDepth (depth : Z).
    (* "acrion::image::Bitmap::Construction from buffer: Unsupported image depth ..." *)

Module Bitmap.

Section Members.
Context {T : SampleType}.

(** [p[i]] for a sample pointer into the buffer.  Reading outside the
    buffer is undefined in the source; here it yields 0. *)
Definition load (buf : list Z) (i : Z) : Z :=
  if i <? 0 then 0 else default 0 (buf !! Z.to_nat i).

(** [p[i] = v].  Writing outside the buffer is undefined in the source;
    here it does nothing. *)
Definition store (buf : list Z) (i v : Z) : list Z :=
  if i <? 0 then buf else <[Z.to_nat i := v]> buf.

Definition set_buffer (bd : BitmapData T) (buf : list Z) : BitmapData T :=
  mkBitmapData (_width bd) (_height bd) (_channels bd) buf
               (_grayIndex bd) (_alphaIndex bd) (_redIndex bd)
               (_greenIndex bd) (_blueIndex bd)
               (_minDisplayedBrightness bd) (_maxDisplayedBrightness bd).

(** The state given by the default member initialisers (lines
    [int _width{0}] ... [T _maxDisplayedBrightness{max}]), with the
    constructor's geometry and buffer. *)
Definition members (width height channels : Z) (buf : list Z)
  : BitmapData T :=
  mkBitmapData width height channels buf (-1) (-1) (-1) (-1) (-1)
               0 (numeric_limits_max T).

(** [void Init()] *)
Definition Init (bd : BitmapData T) : result (BitmapData T) :=
  let c := _channels bd in
  if c =? 1 then
    inr (mkBitmapData (_width bd) (_height bd) c (_buffer bd)
           0 (_alphaIndex bd) 0 0 0
           (_minDisplayedBrightness bd) (_maxDisplayedBrightness bd))
  else if c =? 3 then
    inr (mkBitmapData (_width bd) (_height bd) c (_buffer bd)
           (_grayIndex bd) (_alphaIndex bd) 0 1 2
           (_minDisplayedBrightness bd) (_maxDisplayedBrightness bd))
  else if c =? 4 then
    inr (mkBitmapData (_width bd) (_height bd) c (_buffer bd)
           (_grayIndex bd) 0 1 2 3
           (_minDisplayedBrightness bd) (_maxDisplayedBrightness bd))
  else inl (UnsupportedChannels c).

Definition Width (bd : BitmapData T) : Z := _width bd.
Definition Height (bd : BitmapData T) : Z := _height bd.
Definition Channels (bd : BitmapData T) : Z := _channels bd.
Definition Depth (_ : BitmapData T) : Z :=
  sizeof T * (if is_floating_point T then -1 else 1).
Definition BytesPerPixel (bd : BitmapData T) : Z :=
  _channels bd * Z.abs (Depth bd).
Definition Stride (bd : BitmapData T) : Z := _width bd * BytesPerPixel bd.
Definition Size (bd : BitmapData T) : Z := Height bd * Stride bd.
Definition GetMinDisplayedBrightness (bd : BitmapData T) : Z :=
  _minDisplayedBrightness bd.
Definition GetMaxDisplayedBrightness (bd : BitmapData T) : Z :=
  _maxDisplayedBrightness bd.

(** Modelled from the spec: [cbeam::container::stable_reference_buffer(size,
    sizeof(uint8_t))], the allocation of the Cbeam library, whose code is
    not among the sources.  The spec has the sized constructor allocate "a
    new zero-initialized buffer"; the buffer is given by the number of
    samples its [size] bytes hold, and the allocation is taken to succeed. *)
Definition stable_reference_buffer (samples : Z) : list Z :=
  replicate (Z.to_nat samples) 0.

(** [BitmapData(int width, int height, int channels)]: a fresh buffer of
    [Size()] bytes, that is [width * height * channels] samples, then
    [Init()]. *)
Definition create (width height channels : Z) : result (BitmapData T) :=
  Init (members width height channels
          (stable_reference_buffer (width * height * channels))).

(** [BitmapData(const stable_reference_buffer& buffer, int width, int
    height, int channels)]: wraps the given samples, then [Init()]. *)
Definition wrap (buffer : list Z) (width height channels : Z)
  : result (BitmapData T) :=
  Init (members width height channels buffer).

(** Offset of the first sample of pixel (x, y). *)
Definition pixel (bd : BitmapData T) (x y : Z) : Z :=
  (y * _width bd + x) * _channels bd.

Definition GetRed (bd : BitmapData T) (x y : Z) : Z :=
  load (_buffer bd) (pixel bd x y + _redIndex bd).
Definition GetGreen (bd : BitmapData T) (x y : Z) : Z :=
  load (_buffer bd) (pixel bd x y + _greenIndex bd).
Definition GetBlue (bd : BitmapData T) (x y : Z) : Z :=
  load (_buffer bd) (pixel bd x y + _blueIndex bd).
Definition GetAlpha (bd : BitmapData T) (x y : Z) : Z :=
  if negb (_alphaIndex bd =? -1)
  then load (_buffer bd) (pixel bd x y + _alphaIndex bd)
  else numeric_limits_max T.

(** [Color<T> Get(int x, int y)].  On a one-channel container the source
    goes through [GetGray(x, y)], which reads the gray sample because
    [Init] sets [_grayIndex] whenever [_channels] is 1; that read is
    written out here. *)
Definition Get (bd : BitmapData T) (x y : Z) : Color :=
  if _channels bd =? 1 then
    let g := load (_buffer bd) (pixel bd x y + _grayIndex bd) in
    mkColor g g g (numeric_limits_max T)
  else
    mkColor (GetRed bd x y) (GetGreen bd x y) (GetBlue bd x y)
            (GetAlpha bd x y).

(** [T GetGray(int x, int y)] *)
Definition GetGray `{FloatOps} (bd : BitmapData T) (x y : Z) : Z :=
  if negb (_grayIndex bd =? -1)
  then load (_buffer bd) (pixel bd x y + _grayIndex bd)
  else ColorOps.Gray T (Get bd x y).

(** [Color<T> Get(double dx, double dy)]: interpolation with the container
    as the getter, between 0 and [Width() - 1.0], [Height() - 1.0]. *)
Definition Get_interpolated `{FloatOps} `{interpolation.Mixable Color}
(bd : BitmapData T) (dx dy : Q) : interpolation.Sampled Color :=
  interpolation.Do dx dy 0 0 (inject_Z (Width bd - 1))
(inject_Z (Height bd - 1)) (Get bd).

(** [bool Plot(int x, int y, const Color<T>& color) const]: writes
    through the buffer pointer, then checks alpha. *)
Definition Plot `{FloatOps} (bd : BitmapData T) (x y : Z) (color : Color)
  : effect T bool :=
  if (x <? 0) || (y <? 0) || (x >=? Width bd) || (y >=? Height bd)
  then (bd, inr true)
  else
    let ptr := pixel bd x y in
    let buf1 :=
      if negb (_grayIndex bd =? -1)
      then store (_buffer bd) (ptr + _grayIndex bd) (ColorOps.Gray T color)
      else
        store
          (store
             (store (_buffer bd) (ptr + _redIndex bd) (ColorOps.Red color))
             (ptr + _greenIndex bd) (ColorOps.Green color))
          (ptr + _blueIndex bd) (ColorOps.Blue color) in
    if _alphaIndex bd =? -1 then
      if negb (ColorOps.Alpha color =? numeric_limits_max T)
      then (set_buffer bd buf1,
            inl (CannotSetAlpha (ColorOps.Alpha color) (_channels bd)))
      else (set_buffer bd buf1, inr true)
    else
      (set_buffer bd
         (store buf1 (ptr + _alphaIndex bd) (ColorOps.Alpha color)),
       inr true).

(** *** Region statistics *)

(** Row-major scan [for y in y0..y1, for x in x0..x1]. *)
Definition scan {St : Type} (x0 y0 x1 y1 : Z) (body : Z -> Z -> St -> St)
    (s : St) : St :=
  fold_left
    (fun s y => fold_left (fun s x => body x y s) (seqZ x0 (x1 - x0 + 1)) s)
    (seqZ y0 (y1 - y0 + 1)) s.

(** The locals of [MaxGray] together with the [int] cells its position
    out-parameters point to. *)
Record MaxGrayState : Type := mkMaxGrayState {
  mg_max : Z;
  mg_max2 : Z;
  mg_min : Z;
  mg_sum : Z;
  mg_brightestX : Z;
  mg_brightestY : Z;
  mg_secondBrightestX : Z;
  mg_secondBrightestY : Z;
  mg_darkestX : Z;
  mg_darkestY : Z
}.

(** Body of the double loop of [MaxGray] at pixel (x, y). *)
Definition MaxGray_step `{FloatOps} (bd : BitmapData T) (x y : Z)
    (s : MaxGrayState) : MaxGrayState :=
  let current := GetGray bd x y in
  let sum := mg_sum s + current in
  let s1 :=
    if current >? mg_max s then
      if mg_max s >? mg_max2 s then
        mkMaxGrayState current (mg_max s) (mg_min s) sum x y
          (mg_brightestX s) (mg_brightestY s) (mg_darkestX s) (mg_darkestY s)
      else
        mkMaxGrayState current (mg_max2 s) (mg_min s) sum x y
          (mg_secondBrightestX s) (mg_secondBrightestY s)
          (mg_darkestX s) (mg_darkestY s)
    else if current >? mg_max2 s then
      mkMaxGrayState (mg_max s) current (mg_min s) sum
        (mg_brightestX s) (mg_brightestY s) x y
        (mg_darkestX s) (mg_darkestY s)
    else
      mkMaxGrayState (mg_max s) (mg_max2 s) (mg_min s) sum
        (mg_brightestX s) (mg_brightestY s)
        (mg_secondBrightestX s) (mg_secondBrightestY s)
        (mg_darkestX s) (mg_darkestY s) in
  if current <? mg_min s1 then
    mkMaxGrayState (mg_max s1) (mg_max2 s1) current (mg_sum s1)
      (mg_brightestX s1) (mg_brightestY s1)
      (mg_secondBrightestX s1) (mg_secondBrightestY s1) x y
  else s1.

(** What [MaxGray] returns and stores through its out-parameters. *)
Record MaxGrayResult : Type := mkMaxGrayResult {
  r_max : Z;              (* the return value *)
  r_average : Z;          (* *average *)
  r_secondMax : Z;        (* *secondMax *)
  r_darkestValue : Z;     (* *darkestValue *)
  r_brightest : Z * Z;
  r_secondBrightest : Z * Z;
  r_darkest : Z * Z
}.

(** [T MaxGray(x0, y0, x1, y1, brightestX, brightestY, average,
    secondBrightestX, secondBrightestY, secondMax, darkestX, darkestY,
    darkestValue, stdDeviation = nullptr)] with every out-parameter but
    [stdDeviation] supplied; [pos0] holds what the six position cells contain
    on entry, for the integer sample types.  [(T)((sum + 1) / n)] converts a
    [long double] quotient to [T]: the fraction is cut off and the one value
    beyond [T], [max + 1] on a single pixel holding [max], is reduced like a
    [static_cast].  The sum of the samples is exact in [long double]; it is
    accumulated in loop order.  On an empty rectangle nothing is summed and
    [n] is not a number of pixels (where it is 0 the source divides by
    zero); no statement is about the average of an empty rectangle. *)
Definition MaxGray `{FloatOps} (bd : BitmapData T) (x0 y0 x1 y1 : Z)
    (pos0 : (Z * Z) * (Z * Z) * (Z * Z)) : MaxGrayResult :=
  let x0 := Z.max 0 x0 in
  let y0 := Z.max 0 y0 in
  let x1 := Z.min (_width bd - 1) x1 in
  let y1 := Z.min (_height bd - 1) y1 in
  let '(b0, sb0, d0) := pos0 in
  let s0 := mkMaxGrayState 0 0 (numeric_limits_max T) 0
              (fst b0) (snd b0) (fst sb0) (snd sb0) (fst d0) (snd d0) in
  let s := scan x0 y0 x1 y1 (MaxGray_step bd) s0 in
  mkMaxGrayResult (mg_max s)
    (static_cast T (Z.quot (mg_sum s + 1) ((x1 - x0 + 1) * (y1 - y0 + 1))))
    (mg_max2 s) (mg_min s)
    (mg_brightestX s, mg_brightestY s)
    (mg_secondBrightestX s, mg_secondBrightestY s)
    (mg_darkestX s, mg_darkestY s).

(** The locals of [MinGray] and the cells of its position out-parameters. *)
Record MinGrayState : Type := mkMinGrayState {
  ng_min : Z;
  ng_min2 : Z;
  ng_sum : Z;
  ng_darkestX : Z;
  ng_darkestY : Z;
  ng_secondDarkestX : Z;
  ng_secondDarkestY : Z
}.

(** Body of the double loop of [MinGray] at pixel (x, y). *)
Definition MinGray_step `{FloatOps} (bd : BitmapData T) (x y : Z)
    (s : MinGrayState) : MinGrayState :=
  let current := GetGray bd x y in
  let sum := ng_sum s + current in
  if current <? ng_min s then
    if ng_min s <? ng_min2 s then
      mkMinGrayState current (ng_min s) sum x y
        (ng_darkestX s) (ng_darkestY s)
    else
      mkMinGrayState current (ng_min2 s) sum x y
        (ng_secondDarkestX s) (ng_secondDarkestY s)
  else if current <? ng_min2 s then
    mkMinGrayState (ng_min s) current sum
      (ng_darkestX s) (ng_darkestY s) x y
  else
    mkMinGrayState (ng_min s) (ng_min2 s) sum
      (ng_darkestX s) (ng_darkestY s)
      (ng_secondDarkestX s) (ng_secondDarkestY s).

Record MinGrayResult : Type := mkMinGrayResult {
  n_min : Z;              (* the return value *)
  n_average : Z;          (* *average *)
  n_secondMin : Z;        (* *secondMin *)
  n_darkest : Z * Z;
  n_secondDarkest : Z * Z
}.

(** [T MinGray(x0, y0, x1, y1, darkestX, darkestY, average,
    secondDarkestX, secondDarkestY, secondMin)] with every out-parameter
    supplied; the average is converted as in [MaxGray]. *)
Definition MinGray `{FloatOps} (bd : BitmapData T) (x0 y0 x1 y1 : Z)
    (pos0 : (Z * Z) * (Z * Z)) : MinGrayResult :=
  let x0 := Z.max 0 x0 in
  let y0 := Z.max 0 y0 in
  let x1 := Z.min (_width bd - 1) x1 in
  let y1 := Z.min (_height bd - 1) y1 in
  let '(d0, sd0) := pos0 in
  let s0 := mkMinGrayState (numeric_limits_max T) (numeric_limits_max T) 0
              (fst d0) (snd d0) (fst sd0) (snd sd0) in
  let s := scan x0 y0 x1 y1 (MinGray_step bd) s0 in
  mkMinGrayResult (ng_min s)
    (static_cast T (Z.quot (ng_sum s + 1) ((x1 - x0 + 1) * (y1 - y0 + 1))))
    (ng_min2 s)
    (ng_darkestX s, ng_darkestY s)
    (ng_secondDarkestX s, ng_secondDarkestY s).

(** *** Drawing *)





(** *** Whole-buffer arithmetic *)

(** A [for] loop over [idx] whose body may throw. *)
Fixpoint foreach {St : Type} (idx : list Z)
    (body : Z -> St -> St * result unit) (s : St) : St * result unit :=
  match idx with
  | [] => (s, inr tt)
  | i :: rest =>
      match body i s with
      | (s1, inr _) => foreach rest body s1
      | (s1, inl e) => (s1, inl e)
      end
  end.

Definition discard {A : Type} (r : effect T A) : effect T unit :=
  match r with
  | (b, inr _) => (b, inr tt)
  | (b, inl e) => (b, inl e)
  end.

(** [BitmapData& operator+=(const BitmapData& rhs)] *)
Definition add_assign `{FloatOps} (lhs rhs : BitmapData T) : effect T unit :=
  foreach (seqZ 0 (_height lhs))
    (fun j => foreach (seqZ 0 (_width lhs))
       (fun i b =>
          discard (Plot b i j (ColorOps.add T (Get b i j) (Get rhs i j)))))
    lhs.

(** [BitmapData& operator-=(const BitmapData& rhs)] *)
Definition sub_assign `{FloatOps} (lhs rhs : BitmapData T) : effect T unit :=
  foreach (seqZ 0 (_height lhs))
    (fun j => foreach (seqZ 0 (_width lhs))
       (fun i b =>
          discard (Plot b i j (ColorOps.sub T (Get b i j) (Get rhs i j)))))
    lhs.

(** *** Display conversion *)

(** The [switch (_channels)] of [ConvertToDepth8]: destination channel
    count and row alignment. *)
Definition ConvertToDepth8_layout (bd : BitmapData T) : result (Z * Z) :=
  let c := _channels bd in
  if (c =? 1) || (c =? 2) then inr (1, 4)
  else if (c =? 3) || (c =? 4) then inr (4, 1)
  else inl (UnsupportedChannelsDepth8 c).

(** [_maxDisplayedBrightness - _minDisplayedBrightness] as the divisor of
    [val0]: [uint8_t] and [uint16_t] operands are promoted to [int], wider
    ones stay unsigned and wrap. *)
Definition window_width (bd : BitmapData T) : Z :=
  let d := _maxDisplayedBrightness bd - _minDisplayedBrightness bd in
  match T with
  | U8 | U16 => d
  | _ => static_cast T d
  end.

(** [uint8_t CalculateDisplayValue(T val) const] for the unsigned sample
    types of at most 32 bits; [currentGamma] is the global [_currentGamma]
    that [FillGammaTable] set.  The double quotient [255.0 * diff / width]
    is written as the exact rational: for samples of up to 32 bits the
    product is exact and the rounding of the quotient cannot move it across
    a half-integer, so [std::lround] of either is the same.  On 64-bit
    samples the source's conversions and product round, and on [double]
    samples the product can overflow: there the source and this definition
    differ, and the statements below leave those types out. *)
Definition CalculateDisplayValue `{FloatOps} (currentGamma : Q)
    (bd : BitmapData T) (val : Z) : Z :=
  let val := Z.min (Z.max val (_minDisplayedBrightness bd))
                   (_maxDisplayedBrightness bd) in
  let diff :=
    if val >=? _minDisplayedBrightness bd
    then static_cast T (val - _minDisplayedBrightness bd)
    else 0 in
  let val0 := (255 * inject_Z diff / inject_Z (window_width bd))%Q in
  if Qeq_bool currentGamma 0 then
    Z.max 0 (Z.min 255 (lround val0))
  else
    let gamma1 := (currentGamma * 2)%Q in
    let gamma1 := if interpolation.Qltb 1 gamma1 then 1%Q else gamma1 in
    let delta := (9 - currentGamma * 6)%Q in
    let log2 := f_log 2 in
    let factor :=
      (256 / (f_log1p (inject_Z (_maxDisplayedBrightness bd
                                 - _minDisplayedBrightness bd)) / log2
              - delta))%Q in
    let result := (f_log (inject_Z val) / log2 - delta)%Q in
    let val1 := if Qle_bool result 0 then 0%Q else (result * factor)%Q in
    let t := (gamma1 * val1 + (1 - gamma1) * val0)%Q in
    Z.max 0 (Z.min 255 (lround t)).

End Members.

(** *** Comparison between containers of possibly different sample types *)

(** [operator==(const BitmapData<T>&, const BitmapData<U>&)] *)
Definition eqb {T U : SampleType} (lhs : BitmapData T) (rhs : BitmapData U)
  : bool :=
  (Width lhs =? Width rhs) && (Height lhs =? Height rhs)
  && (Channels lhs =? Channels rhs) && (Depth lhs =? Depth rhs).

(** [operator!=] *)
Definition neqb {T U : SampleType} (lhs : BitmapData T) (rhs : BitmapData U)
  : bool := negb (eqb lhs rhs).

(** The quantity [operator<] compares,
    [(double)_width * _height * _channels * std::abs(Depth())]; the product
    is exact in [double] below 2^53. *)
Definition byte_size {T : SampleType} (bd : BitmapData T) : Z :=
  _width bd * _height bd * _channels bd * Z.abs (Depth bd).

(** [operator<(const BitmapData<T>&, const BitmapData<U>&)] *)
Definition ltb {T U : SampleType} (lhs : BitmapData T) (rhs : BitmapData U)
  : bool := byte_size lhs <? byte_size rhs.

(** *** Further members of [BitmapData<T>] *)

Section MoreMembers.
Context {T : SampleType}.

(** [BitmapData() = default]: the member initialisers and no buffer. *)
Definition empty_container : BitmapData T := members 0 0 0 [].

(** [void SetBrightnessRangeForDisplay(const T min, const T max)] *)
Definition SetBrightnessRangeForDisplay (bd : BitmapData T) (min max : Z)
  : BitmapData T :=
  mkBitmapData (_width bd) (_height bd) (_channels bd) (_buffer bd)
    (_grayIndex bd) (_alphaIndex bd) (_redIndex bd) (_greenIndex bd)
    (_blueIndex bd) min max.

(** [std::memcpy(dst, src, n * sizeof(T))] on sample buffers: the first [n]
    samples of [dst] become those of [src]. *)
Definition memcpy (dst src : list Z) (n : Z) : list Z :=
  take (Z.to_nat n) src ++ drop (Z.to_nat n) dst.

(** [void Copy(BitmapData& destination) const]: [Size()] bytes are
    [Size() / sizeof(T)] samples. *)
Definition Copy (src destination : BitmapData T) : effect T unit :=
  if neqb src destination then (destination, inl DifferentSize)
  else
    (mkBitmapData (_width destination) (_height destination)
       (_channels destination)
       (memcpy (_buffer destination) (_buffer src) (Size src / sizeof T))
       (_grayIndex src) (_alphaIndex src) (_redIndex src) (_greenIndex src)
       (_blueIndex src)
       (_minDisplayedBrightness src) (_maxDisplayedBrightness src),
     inr tt).

(** [BitmapData& operator=(const BitmapData& src)] on two distinct objects
    ([this == &src] is the other case): [this] afterwards and whether the
    call threw. *)
Definition assign (this src : BitmapData T) : effect T unit :=
  if neqb src this then
    let resized :=
      mkBitmapData (Width src) (Height src) (Channels src)
        (stable_reference_buffer (Width src * Height src * Channels src))
        (_grayIndex this) (_alphaIndex this) (_redIndex this)
        (_greenIndex this) (_blueIndex this)
        (_minDisplayedBrightness this) (_maxDisplayedBrightness this) in
    match Init resized with
    | inl e => (resized, inl e)
    | inr this' => Copy src this'
    end
  else Copy src this.

(** [BitmapData(const BitmapData& src)]: the sized constructor, then
    [src.Copy( *this )]. *)
Definition copy_construct (src : BitmapData T) : result (BitmapData T) :=
  match create (Width src) (Height src) (Channels src) with
  | inl e => inl e
  | inr fresh =>
      match Copy src fresh with
      | (copy, inr _) => inr copy
      | (_, inl e) => inl e
      end
  end.

(** [void Set(const Color<T>& color) const]: [Plot] on every pixel, in a
    [#pragma omp parallel for] loop.  When [Plot] refuses the colour the
    exception leaves the parallel region and the program terminates; the
    [inl] outcome stands for that. *)
Definition Set_color `{FloatOps} (bd : BitmapData T) (color : Color)
  : effect T unit :=
  foreach (seqZ 0 (Height bd))
    (fun y => foreach (seqZ 0 (Width bd))
       (fun x b => discard (Plot b x y color)))
    bd.

(** [bool IsRed(int x, int y)], [IsGreen], [IsBlue] *)
Definition IsRed (bd : BitmapData T) (x y : Z) : bool :=
  if _channels bd =? 1 then false
  else
    let red := GetRed bd x y in
    (red >? GetGreen bd x y) && (red >? GetBlue bd x y).

Definition IsGreen (bd : BitmapData T) (x y : Z) : bool :=
  if _channels bd =? 1 then false
  else
    let green := GetGreen bd x y in
    (green >? GetRed bd x y) && (green >? GetBlue bd x y).

Definition IsBlue (bd : BitmapData T) (x y : Z) : bool :=
  if _channels bd =? 1 then false
  else
    let blue := GetBlue bd x y in
    (blue >? GetRed bd x y) && (blue >? GetGreen bd x y).

(** [bool IsBrighterThanNeighbours(int i, int j, const T current)] *)
Definition IsBrighterThanNeighbours `{FloatOps} (bd : BitmapData T)
    (i j current : Z) : bool :=
  ((i =? 0)
   || ((current >? GetGray bd (i - 1) j)
       && ((j =? 0) || (current >? GetGray bd (i - 1) (j - 1)))
       && ((j =? Height bd - 1) || (current >? GetGray bd (i - 1) (j + 1)))))
  && ((j =? 0) || (current >? GetGray bd i (j - 1)))
  && ((j =? Height bd - 1) || (current >? GetGray bd i (j + 1)))
  && ((i =? Width bd - 1)
      || ((current >? GetGray bd (i + 1) j)
          && ((j =? 0) || (current >? GetGray bd (i + 1) (j - 1)))
          && ((j =? Height bd - 1)
              || (current >? GetGray bd (i + 1) (j + 1))))).

(** [Color<T> Max(x0, y0, x1, y1, int* brightestX, int* brightestY)] with
    both out-parameters supplied; [pos0] is what their cells hold on entry. *)
Definition Max `{FloatOps} (bd : BitmapData T) (x0 y0 x1 y1 : Z)
    (pos0 : Z * Z) : Color * (Z * Z) :=
  let x0 := Z.max 0 x0 in
  let y0 := Z.max 0 y0 in
  let x1 := Z.min (_width bd - 1) x1 in
  let y1 := Z.min (_height bd - 1) y1 in
  scan x0 y0 x1 y1
    (fun x y s =>
       let current := Get bd x y in
       if ColorOps.gtb T current (fst s) then (current, (x, y)) else s)
    (ColorOps.gray T (numeric_limits_lowest T), pos0).

(** [Color<T> Min(x0, y0, x1, y1, int* darkestX, int* darkestY)] *)
Definition Min `{FloatOps} (bd : BitmapData T) (x0 y0 x1 y1 : Z)
    (pos0 : Z * Z) : Color * (Z * Z) :=
  let x0 := Z.max 0 x0 in
  let y0 := Z.max 0 y0 in
  let x1 := Z.min (_width bd - 1) x1 in
  let y1 := Z.min (_height bd - 1) y1 in
  scan x0 y0 x1 y1
    (fun x y s =>
       let current := Get bd x y in
       if ColorOps.ltb T current (fst s) then (current, (x, y)) else s)
    (ColorOps.gray T (numeric_limits_max T), pos0).

(** The innermost loop of [ContainsColors] at the pixel the pointer [d]
    stands on: [for k = 1 .. _channels - 1: if (d[0] != d[k]) return true]. *)
Definition samples_differ (bd : BitmapData T) (d : Z) : bool :=
  existsb (fun k => negb (load (_buffer bd) d =? load (_buffer bd) (d + k)))
          (seqZ 1 (_channels bd - 1)).

(** The loop over [i] of [ContainsColors]; the pointer moves on by
    [_channels] after every pixel.  Returns whether [true] was returned and
    where the pointer stands. *)
Fixpoint ContainsColors_row (bd : BitmapData T) (columns : list Z) (d : Z)
  : bool * Z :=
  match columns with
  | [] => (false, d)
  | _ :: rest =>
      if samples_differ bd d then (true, d)
      else ContainsColors_row bd rest (d + _channels bd)
  end.

(** The loop over [j] of [ContainsColors]. *)
Fixpoint ContainsColors_rows (bd : BitmapData T) (rows : list Z) (d : Z)
  : bool :=
  match rows with
  | [] => false
  | _ :: rest =>
      let (found, d') := ContainsColors_row bd (seqZ 0 (_width bd)) d in
      if found then true else ContainsColors_rows bd rest d'
  end.

(** [bool ContainsColors() const] *)
Definition ContainsColors (bd : BitmapData T) : bool :=
  if _channels bd =? 1 then false
  else ContainsColors_rows bd (seqZ 0 (_height bd)) 0.

(** One sample of [AbsoluteDiff] for the unsigned sample types: the operands
    go through [int64_t], the difference through [std::abs], and the bound
    is [static_cast<int64_t>(numeric_limits<T>::max())].  For [double] that
    conversion of the bound is out of range in the source, and what [to_int64]
    gives for it here is not what a build computes. *)
Definition sample_diff (left right : Z) : Z :=
  let abs := Z.abs (to_int64 left - to_int64 right) in
  static_cast T
    (Z.min (to_int64 (numeric_limits_max T)) (Z.max 0 abs)).

(** The loop over [k] of [AbsoluteDiff] at offset [p] of the three
    pointers. *)
Definition AbsoluteDiff_pixel (this other : BitmapData T)
    (st : Z * list Z) : Z * list Z :=
  let (p, r) := st in
  (p + _channels this,
   fold_left
     (fun r k =>
        store r (p + k)
          (sample_diff (load (_buffer this) (p + k))
                       (load (_buffer other) (p + k))))
     (seqZ 0 (_channels this)) r).

(** [std::shared_ptr<BitmapData> AbsoluteDiff(const BitmapData& other)] *)
Definition AbsoluteDiff (this other : BitmapData T)
  : error + BitmapData T :=
  if negb (Width this =? Width other) || negb (Height this =? Height other)
     || negb (Channels this =? Channels other)
  then inl DifferentGeometry
  else
    match create (Width this) (Height this) (Channels this) with
    | inl e => inl (Raised e)
    | inr result =>
        let '(_, r) :=
          fold_left
            (fun st _ =>
               fold_left (fun st _ => AbsoluteDiff_pixel this other st)
                         (seqZ 0 (_width this)) st)
            (seqZ 0 (_height this)) (0, _buffer result) in
        inr (set_buffer result r)
    end.

End MoreMembers.

Arguments sample_diff T (left right)%_Z : clear implicits.

End Bitmap.

(** ** bitmap.hpp: the façade over the five sample types *)

Module Facade.

(** [class Bitmap]: the tuple of one container per sample type and the
    index of the one in use. *)
Record Bitmap : Type := mkBitmap {
  data_u8 : BitmapData U8;
  data_u16 : BitmapData U16;
  data_u32 : BitmapData U32;
  data_u64 : BitmapData U64;
  data_f64 : BitmapData F64;
  _index : Z
}.

(** The members before a constructor body runs: five default-constructed
    containers and [_index{-1}]. *)
Definition unset : Bitmap :=
  mkBitmap Bitmap.empty_container Bitmap.empty_container
           Bitmap.empty_container Bitmap.empty_container
           Bitmap.empty_container (-1).

(** [int Depth() const] *)
Definition Depth (b : Bitmap) : Z :=
  if _index b <? 4 then Z.shiftl 1 (_index b)
  else - Z.shiftl 1 (_index b - 1).

(** [Bitmap(int width, int height, int channels, int depth)]: the [switch]
    over [depth]; each case move-assigns a freshly constructed container to
    its slot.  The [default:] message prints [Depth()] of the index that is
    still -1, a shift the language leaves undefined; the number carried here
    is the one [Z.shiftl] gives and no statement relies on it. *)
Definition construct (width height channels depth : Z) : error + Bitmap :=
  if depth =? 1 then
    match Bitmap.create width height channels with
    | inl e => inl (Raised e)
    | inr bd => inr (mkBitmap bd (data_u16 unset) (data_u32 unset)
                       (data_u64 unset) (data_f64 unset) 0)
    end
  else if depth =? 2 then
    match Bitmap.create width height channels with
    | inl e => inl (Raised e)
    | inr bd => inr (mkBitmap (data_u8 unset) bd (data_u32 unset)
                       (data_u64 unset) (data_f64 unset) 1)
    end
  else if depth =? 4 then
    match Bitmap.create width height channels with
    | inl e => inl (Raised e)
    | inr bd => inr (mkBitmap (data_u8 unset) (data_u16 unset) bd
                       (data_u64 unset) (data_f64 unset) 2)
    end
  else if depth =? 8 then
    match Bitmap.create width height channels with
    | inl e => inl (Raised e)
    | inr bd => inr (mkBitmap (data_u8 unset) (data_u16 unset)
                       (data_u32 unset) bd (data_f64 unset) 3)
    end
  else if depth =? -8 then
    match Bitmap.create width height channels with
    | inl e => inl (Raised e)
    | inr bd => inr (mkBitmap (data_u8 unset) (data_u16 unset)
                       (data_u32 unset) (data_u64 unset) bd 4)
    end
  else inl (UnsupportedDepth (Depth unset)).

(** A member that switches over [_index] and forwards to the container in
    use; [default:] throws. *)
Definition dispatch {A : Type} (b : Bitmap)
    (f : forall T : SampleType, BitmapData T -> A) : error + A :=
  if _index b =? 0 then inr (f U8 (data_u8 b))
  else if _index b =? 1 then inr (f U16 (data_u16 b))
  else if _index b =? 2 then inr (f U32 (data_u32 b))
  else if _index b =? 3 then inr (f U64 (data_u64 b))
  else if _index b =? 4 then inr (f F64 (data_f64 b))
  else inl (UnsupportedDepth (Depth b)).

(** [int Width() const], [Height], [Channels], [bool ContainsColors()] *)
Definition Width (b : Bitmap) : error + Z :=
  dispatch b (fun T bd => Bitmap.Width bd).
Definition Height (b : Bitmap) : error + Z :=
  dispatch b (fun T bd => Bitmap.Height bd).
Definition Channels (b : Bitmap) : error + Z :=
  dispatch b (fun T bd => Bitmap.Channels bd).
Definition ContainsColors (b : Bitmap) : error + bool :=
  dispatch b (fun T bd => Bitmap.ContainsColors bd).

(** The depth the container in use reports for itself. *)
Definition container_depth (b : Bitmap) : error + Z :=
  dispatch b (fun T bd => Bitmap.Depth bd).

End Facade.

(** * Vocabulary of the statements *)

Import Bitmap.

(** How an unsigned subtraction behaves on two samples [a], [b]: the
    difference when it is not negative, otherwise the difference plus
    [2^bits]. *)
Definition wraps (T : SampleType) (a b r : Z) : Prop :=
  (b <= a -> r = a - b) /\ (a < b -> r = a - b + 2 ^ bits T).

(** The channel-index assignment [Init] establishes. *)
Definition layout {T : SampleType} (bd : BitmapData T) : Prop :=
  (_channels bd = 1 /\ _grayIndex bd = 0 /\ _alphaIndex bd = -1
   /\ _redIndex bd = 0 /\ _greenIndex bd = 0 /\ _blueIndex bd = 0)
  \/ (_channels bd = 3 /\ _grayIndex bd = -1 /\ _alphaIndex bd = -1
      /\ _redIndex bd = 0 /\ _greenIndex bd = 1 /\ _blueIndex bd = 2)
  \/ (_channels bd = 4 /\ _grayIndex bd = -1 /\ _alphaIndex bd = 0
      /\ _redIndex bd = 1 /\ _greenIndex bd = 2 /\ _blueIndex bd = 3).

(** A container as the constructors leave it: non-negative extent, indices
    set by [Init], one sample per channel of every pixel. *)
Definition well_formed {T : SampleType} (bd : BitmapData T) : Prop :=
  0 <= _width bd /\ 0 <= _height bd /\ layout bd
  /\ Z.of_nat (length (_buffer bd)) = _width bd * _height bd * _channels bd.

(** A lattice point inside the clamp rectangle. *)
Definition inside (min_x min_y max_x max_y : Z) (p : Z * Z) : Prop :=
  min_x <= fst p <= max_x /\ min_y <= snd p <= max_y.

(** What reading pixel (x, y) back yields once [color] has been plotted. *)
Definition stored `{FloatOps} {T : SampleType} (bd : BitmapData T)
    (color : Color) : Color :=
  if _channels bd =? 1 then
    let g := ColorOps.Gray T color in mkColor g g g (numeric_limits_max T)
  else
    mkColor (_red color) (_green color) (_blue color)
            (if _alphaIndex bd =? -1 then numeric_limits_max T
             else _alpha color).



(** The canvas test of the stepping loop. *)
Definition in_canvas {T : SampleType} (bd : BitmapData T) (p : Z * Z) : bool :=
  (fst p >=? 0) && (snd p >=? 0) && (fst p <? Width bd)
  && (snd p <? Height bd).



(** The sum of the gray values of a rectangle. *)
Definition region_sum `{FloatOps} {T : SampleType} (bd : BitmapData T)
    (x0 y0 x1 y1 : Z) : Z :=
  scan x0 y0 x1 y1 (fun x y acc => acc + GetGray bd x y) 0.

(** The arithmetic mean as the specification words it: the sum of the gray
    values of the clamped rectangle divided by their number, converted to
    [T]. *)
Definition region_mean `{FloatOps} {T : SampleType} (bd : BitmapData T)
    (x0 y0 x1 y1 : Z) : Z :=
  let x0 := Z.max 0 x0 in
  let y0 := Z.max 0 y0 in
  let x1 := Z.min (_width bd - 1) x1 in
  let y1 := Z.min (_height bd - 1) y1 in
  Z.quot (region_sum bd x0 y0 x1 y1) ((x1 - x0 + 1) * (y1 - y0 + 1)).

(** The pixels a row-major loop has dealt with when it stands at column [i]
    of row [j]. *)
Definition passed (j i i' j' : Z) : bool :=
  (j' <? j) || ((j' =? j) && (i' <? i)).

(** The loop body shared by [operator+=] and [operator-=] at pixel (i, j),
    for the colour operator [op]. *)
Definition plot_op `{FloatOps} {T : SampleType} (op : Color -> Color -> Color)
    (rhs : BitmapData T) (j i : Z) (b : BitmapData T) : effect T unit :=
  discard (Plot b i j (op (Get b i j) (Get rhs i j))).

(** Loop invariant of the whole-buffer operators: [b] has the geometry of
    [lhs]; the pixels passed hold the combined colour and the others are
    those of [lhs]. *)
Definition combined {T : SampleType} (op : Color -> Color -> Color)
    (lhs rhs b : BitmapData T) (j i : Z) : Prop :=
  well_formed b
  /\ _width b = _width lhs /\ _height b = _height lhs
  /\ _channels b = _channels lhs
  /\ forall i' j', 0 <= i' < _width lhs -> 0 <= j' < _height lhs ->
       Get b i' j'
       = if passed j i i' j' then op (Get lhs i' j') (Get rhs i' j')
         else Get lhs i' j'.

(** A value cut to the range of an unsigned sample type. *)
Definition clamp_sample (T : SampleType) (z : Z) : Z :=
  Z.max 0 (Z.min (numeric_limits_max T) z).

(** [b] is [bd] with some pixels repainted: same geometry, same alpha
    index. *)
Definition repainted {T : SampleType} (bd b : BitmapData T) : Prop :=
  well_formed b
  /\ _width b = _width bd /\ _height b = _height bd
  /\ _channels b = _channels bd /\ _alphaIndex b = _alphaIndex bd.

(** The samples of a pixel are not all equal: red, green, blue on three
    channels; alpha, red, green, blue on four. *)
Definition uneven {T : SampleType} (bd : BitmapData T) (c : Color) : Prop :=
  (_channels bd = 3 /\ ~ (_red c = _green c /\ _red c = _blue c))
  \/ (_channels bd = 4
      /\ ~ (_alpha c = _red c /\ _alpha c = _green c /\ _alpha c = _blue c)).

(** Every sample of the buffer is a value of the unsigned type [T]. *)
Definition samples_of (T : SampleType) (buf : list Z) : Prop :=
  Forall (fun v => 0 <= v <= numeric_limits_max T) buf.

(** Two containers of one extent and channel count. *)
Definition same_geometry {T : SampleType} (a b : BitmapData T) : Prop :=
  _width a = _width b /\ _height a = _height b /\ _channels a = _channels b.

(** The pixels of a rectangle in the order the double loops visit them. *)
Definition region_points (x0 y0 x1 y1 : Z) : list (Z * Z) :=
  flat_map (fun y => map (fun x => (x, y)) (seqZ x0 (x1 - x0 + 1)))
           (seqZ y0 (y1 - y0 + 1)).

(** The rectangle the extremum searches scan: the requested one cut to the
    canvas. *)
Definition clipped {T : SampleType} (bd : BitmapData T) (x0 y0 x1 y1 : Z)
    (p : Z * Z) : Prop :=
  Z.max 0 x0 <= fst p <= Z.min (_width bd - 1) x1
  /\ Z.max 0 y0 <= snd p <= Z.min (_height bd - 1) y1.

(** [r] is the sum [a + b] reduced to the unsigned type [T]. *)
Definition carries (T : SampleType) (a b r : Z) : Prop :=
  (a + b < 2 ^ bits T -> r = a + b)
  /\ (2 ^ bits T <= a + b -> r = a + b - 2 ^ bits T).

(** Clamp bounds that the [int] arithmetic of [Do] can work with: both are
    [int] values, and the upper one leaves room for [ix + 1]. *)
Definition int_bounds (lo hi : Z) : Prop :=
  INT_MIN <= lo /\ lo <= hi /\ hi < INT_MAX.

(** The buffer has the size the geometry prescribes, as every constructor
    leaves it (the default constructor too: no sample, no pixel). *)
Definition sized {T : SampleType} (bd : BitmapData T) : Prop :=
  Z.of_nat (length (_buffer bd)) = _width bd * _height bd * _channels bd.

(** The red, green and blue channels are below 2^63, where the conversion
    to [int64_t] in [BoundedAdd] keeps their value. *)
Definition fits_int64 (c : Color) : Prop :=
  _red c < 2 ^ 63 /\ _green c < 2 ^ 63 /\ _blue c < 2 ^ 63.

(** The colour [c] with [f] applied to each of red, green and blue. *)
Definition on_channels (f : Z -> Z) (c : Color) : Color :=
  mkColor (f (_red c)) (f (_green c)) (f (_blue c)) (_alpha c).

(** * Properties *)

(** ** Samples and colours *)

Lemma bits_pos (T : SampleType) : 0 < 2 ^ bits T.
Proof. destruct T; reflexivity. Qed.

Lemma static_cast_unsigned (T : SampleType) (z : Z) :
  is_floating_point T = false -> static_cast T z = z mod 2 ^ bits T.
Proof. unfold static_cast. intros ->. reflexivity. Qed.

Lemma static_cast_id (T : SampleType) (z : Z) :
  0 <= z < 2 ^ bits T -> static_cast T z = z.
Proof.
  intros Hz. unfold static_cast.
  destruct (is_floating_point T); [reflexivity | now apply Z.mod_small].
Qed.

Lemma static_cast_sub_wraps (T : SampleType) (a b : Z) :
  is_floating_point T = false ->
  0 <= a < 2 ^ bits T -> 0 <= b < 2 ^ bits T ->
  wraps T a b (static_cast T (a - b)).
Proof.
  intros HT Ha Hb. rewrite static_cast_unsigned by exact HT. split; intros Hab.
  - apply Z.mod_small. lia.
  - symmetry. apply (Z.mod_unique_pos _ _ (-1)); lia.
Qed.

(** ** Geometry of well-formed containers *)

Lemma Init_members_layout {T : SampleType} (w h c : Z) (buf : list Z)
    (bd : BitmapData T) :
  Init (members w h c buf) = inr bd ->
  layout bd /\ _width bd = w /\ _height bd = h /\ _channels bd = c
  /\ _buffer bd = buf
  /\ _minDisplayedBrightness bd = 0
  /\ _maxDisplayedBrightness bd = numeric_limits_max T.
Proof.
  unfold Init, members, layout; simpl.
  destruct (Z.eqb_spec c 1) as [-> | H1].
  { intros [= <-]; simpl. intuition lia. }
  destruct (Z.eqb_spec c 3) as [-> | H3].
  { intros [= <-]; simpl. intuition lia. }
  destruct (Z.eqb_spec c 4) as [-> | H4].
  { intros [= <-]; simpl. intuition lia. }
  discriminate.
Qed.

Lemma create_well_formed {T : SampleType} (w h c : Z) (bd : BitmapData T) :
  0 <= w -> 0 <= h -> create w h c = inr bd -> well_formed bd.
Proof.
  intros Hw Hh Hc. unfold create in Hc.
  apply Init_members_layout in Hc as (Hl & Hwd & Hht & Hch & Hbuf & _).
  unfold well_formed. rewrite Hwd, Hht, Hch, Hbuf.
  repeat split; try assumption.
  assert (0 <= c) by (destruct Hl as [H | [H | H]]; lia).
  unfold stable_reference_buffer.
  rewrite length_replicate, Z2Nat.id; [reflexivity | nia].
Qed.

(** ** Construction *)

Lemma Init_members_error {T : SampleType} (w h c : Z) (buf : list Z) :
  c <> 1 -> c <> 3 -> c <> 4 ->
  @Init T (members w h c buf) = inl (UnsupportedChannels c).
Proof.
  intros H1 H3 H4. unfold Init, members; simpl.
  destruct (Z.eqb_spec c 1); [contradiction |].
  destruct (Z.eqb_spec c 3); [contradiction |].
  destruct (Z.eqb_spec c 4); [contradiction |].
  reflexivity.
Qed.

Lemma Init_members_ok {T : SampleType} (w h c : Z) (buf : list Z) :
  c = 1 \/ c = 3 \/ c = 4 ->
  exists bd : BitmapData T, Init (members w h c buf) = inr bd.
Proof.
  intros [-> | [-> | ->]]; unfold Init, members; simpl; eexists; reflexivity.
Qed.

(** C9.  Both constructors throw the unsupported-channel error exactly when
    the channel count is none of 1, 3, 4; a constructed container carries
    the index assignment fixed by its channel count (1: gray = red = green
    = blue = 0; 3: red 0, green 1, blue 2, no alpha; 4: alpha 0, red 1,
    green 2, blue 3); and a channel count of 2 is refused by the
    constructors although the dispatch of [ConvertToDepth8] has a case for
    it. *)
Theorem constructor_channel_count (T : SampleType) (w h c : Z)
    (buffer : list Z) :
  ((exists e, @create T w h c = inl e) <-> c <> 1 /\ c <> 3 /\ c <> 4)
  /\ ((exists e, @wrap T buffer w h c = inl e) <-> c <> 1 /\ c <> 3 /\ c <> 4)
  /\ (forall e, @create T w h c = inl e \/ @wrap T buffer w h c = inl e ->
        e = UnsupportedChannels c)
  /\ (forall bd : BitmapData T,
        create w h c = inr bd \/ wrap buffer w h c = inr bd ->
        _channels bd = c
        /\ (c = 1 -> _grayIndex bd = 0 /\ _redIndex bd = 0
                     /\ _greenIndex bd = 0 /\ _blueIndex bd = 0)
        /\ (c = 3 -> _redIndex bd = 0 /\ _greenIndex bd = 1
                     /\ _blueIndex bd = 2 /\ _alphaIndex bd = -1)
        /\ (c = 4 -> _alphaIndex bd = 0 /\ _redIndex bd = 1
                     /\ _greenIndex bd = 2 /\ _blueIndex bd = 3))
  /\ (c = 2 ->
        @create T w h c = inl (UnsupportedChannels 2)
        /\ @wrap T buffer w h c = inl (UnsupportedChannels 2)
        /\ @ConvertToDepth8_layout T (members w h c buffer) = inr (1, 4)).
Proof.
  assert (Hdec : (c = 1 \/ c = 3 \/ c = 4) \/ (c <> 1 /\ c <> 3 /\ c <> 4))
    by lia.
  assert (Hthrow : forall buf e,
             @Init T (members w h c buf) = inl e ->
             (c <> 1 /\ c <> 3 /\ c <> 4) /\ e = UnsupportedChannels c).
  { intros buf e He. destruct Hdec as [Hok | (H1 & H3 & H4)].
    - destruct (Init_members_ok (T := T) w h c buf Hok) as [bd Hbd].
      congruence.
    - rewrite Init_members_error in He by assumption.
      injection He as <-. auto. }
  split; [| split; [| split; [| split]]].
  - unfold create. split.
    + intros [e He]. now apply Hthrow in He.
    + intros (H1 & H3 & H4). eexists. now apply Init_members_error.
  - unfold wrap. split.
    + intros [e He]. now apply Hthrow in He.
    + intros (H1 & H3 & H4). eexists. now apply Init_members_error.
  - unfold create, wrap. intros e [He | He]; now apply Hthrow in He.
  - unfold create, wrap. intros bd [Hbd | Hbd];
      apply Init_members_layout in Hbd as (Hl & _ & _ & Hc & _);
      (split; [exact Hc |]); unfold layout in Hl; rewrite Hc in Hl;
      intuition lia.
  - intros ->. unfold create, wrap. rewrite !Init_members_error by lia.
    repeat split.
Qed.

(** C8 fails for the floating-point domain: a fresh [BitmapData<double>]
    displays from 0, which is neither [numeric_limits<double>::lowest()]
    nor [numeric_limits<double>::min()]. *)
Lemma default_window_double_starts_at_zero :
  let bd : BitmapData F64 :=
    mkBitmapData 1 1 1 [0] 0 (-1) 0 0 0 0 DBL_MAX in
  create 1 1 1 = inr bd
  /\ GetMinDisplayedBrightness bd = 0
  /\ GetMinDisplayedBrightness bd <> numeric_limits_lowest F64
  /\ ~ (inject_Z (GetMinDisplayedBrightness bd) == numeric_limits_min F64)%Q.
Proof.
  cbv zeta. split; [reflexivity |]. split; [reflexivity |].
  split; [intros H; vm_compute in H; discriminate |].
  intros H; vm_compute in H; discriminate.
Qed.

(** C8, amended.  Whatever the sample type, a freshly constructed container
    displays the window [0, numeric_limits<T>::max()]; for the four unsigned
    integer domains 0 is the minimum of [T]. *)
Theorem default_window (T : SampleType) (w h c : Z) (buffer : list Z)
    (bd : BitmapData T) :
  create w h c = inr bd \/ wrap buffer w h c = inr bd ->
  GetMinDisplayedBrightness bd = 0
  /\ GetMaxDisplayedBrightness bd = numeric_limits_max T
  /\ (is_floating_point T = false ->
      GetMinDisplayedBrightness bd = numeric_limits_lowest T
      /\ (inject_Z (GetMinDisplayedBrightness bd) == numeric_limits_min T)%Q
      /\ GetMaxDisplayedBrightness bd = 2 ^ bits T - 1).
Proof.
  unfold create, wrap, GetMinDisplayedBrightness, GetMaxDisplayedBrightness.
  intros [Hbd | Hbd];
    apply Init_members_layout in Hbd as (_ & _ & _ & _ & _ & -> & ->);
    (split; [reflexivity |]); (split; [reflexivity |]);
    intros HT; destruct T; try discriminate HT; repeat split.
Qed.

Lemma default_window_witness :
  let bd : BitmapData U16 :=
    mkBitmapData 2 1 3 [0; 0; 0; 0; 0; 0] (-1) (-1) 0 1 2 0 65535 in
  GetMinDisplayedBrightness bd = 0
  /\ GetMaxDisplayedBrightness bd = numeric_limits_max U16
  /\ (is_floating_point U16 = false ->
      GetMinDisplayedBrightness bd = numeric_limits_lowest U16
      /\ (inject_Z (GetMinDisplayedBrightness bd) == numeric_limits_min U16)%Q
      /\ GetMaxDisplayedBrightness bd = 2 ^ bits U16 - 1).
Proof.
  cbv zeta. apply (default_window U16 2 1 3 []).
  left. reflexivity.
Defined.

(** ** Size comparison *)

(** C3 fails where the depths differ in sign only: a one-pixel
    [BitmapData<uint64_t>] and a one-pixel [BitmapData<double>] have the
    same width, height, channel count and [|depth|], hence the same byte
    size, and [operator==] is false on them. *)
Lemma eqb_tells_depth_sign :
  let a : BitmapData U64 :=
    mkBitmapData 1 1 1 [0] 0 (-1) 0 0 0 0 (2 ^ 64 - 1) in
  let b : BitmapData F64 :=
    mkBitmapData 1 1 1 [0] 0 (-1) 0 0 0 0 DBL_MAX in
  create 1 1 1 = inr a /\ create 1 1 1 = inr b
  /\ Depth a = 8 /\ Depth b = -8
  /\ _width a * _height a * _channels a * Z.abs (Depth a)
     = _width b * _height b * _channels b * Z.abs (Depth b)
  /\ eqb a b = false.
Proof. cbv zeta. repeat split. Qed.

(** C3, amended.  [operator==] on two containers, of the same or of
    different sample types, holds exactly when width, height, channel count
    and the signed depth agree; it never looks at the buffer; and when it
    holds the byte sizes agree and neither container is [operator<] the
    other. *)
Theorem eqb_iff_geometry_and_depth (T U : SampleType)
    (lhs : BitmapData T) (rhs : BitmapData U) :
  (eqb lhs rhs = true <->
     _width lhs = _width rhs /\ _height lhs = _height rhs
     /\ _channels lhs = _channels rhs /\ Depth lhs = Depth rhs)
  /\ (forall buf1 buf2 : list Z,
        eqb (set_buffer lhs buf1) (set_buffer rhs buf2) = eqb lhs rhs)
  /\ (eqb lhs rhs = true ->
        byte_size lhs = byte_size rhs
        /\ ltb lhs rhs = false /\ ltb rhs lhs = false).
Proof.
  assert (Hiff : eqb lhs rhs = true <->
                 _width lhs = _width rhs /\ _height lhs = _height rhs
                 /\ _channels lhs = _channels rhs /\ Depth lhs = Depth rhs).
  { unfold eqb, Width, Height, Channels.
    rewrite !andb_true_iff, !Z.eqb_eq. tauto. }
  split; [exact Hiff |]. split; [reflexivity |].
  intros H. apply Hiff in H as (Hw & Hh & Hc & Hd).
  assert (Hs : byte_size lhs = byte_size rhs).
  { unfold byte_size. now rewrite Hw, Hh, Hc, Hd. }
  unfold ltb. rewrite Hs. split; [reflexivity |].
  split; apply Z.ltb_irrefl.
Qed.

(** ** Display mapping *)

(** [Qfloor] of a quotient of integers is integer division. *)
Lemma Qfloor_quotient (n d : Z) :
  0 < d -> Qfloor (inject_Z n / inject_Z d) = n / d.
Proof.
  intros Hd.
  assert (Hq : (inject_Z n / inject_Z d == n # Z.to_pos d)%Q).
  { unfold Qeq, Qdiv, Qmult, Qinv, inject_Z; simpl.
    destruct d as [| p | p]; try lia. simpl. lia. }
  rewrite (Qfloor_comp _ _ Hq). unfold Qfloor.
  now rewrite Z2Pos.id.
Qed.

Lemma lround_comp (p q : Q) : (p == q)%Q -> lround p = lround q.
Proof.
  intros Hpq. unfold lround. rewrite (Qleb_comp 0%Q 0%Q (Qeq_refl 0%Q) p q Hpq).
  destruct (Qle_bool 0 q).
  - apply Qfloor_comp. now rewrite Hpq.
  - apply Qceiling_comp. now rewrite Hpq.
Qed.

(** On a non-negative quotient, [lround] is rounding half up in [Z]. *)
Lemma lround_quotient (n d : Z) :
  0 <= n -> 0 < d ->
  lround (inject_Z n / inject_Z d) = (2 * n + d) / (2 * d).
Proof.
  intros Hn Hd. unfold lround.
  assert (Hq : (inject_Z n / inject_Z d == n # Z.to_pos d)%Q).
  { unfold Qeq, Qdiv, Qmult, Qinv, inject_Z; simpl.
    destruct d as [| p | p]; try lia. simpl. lia. }
  assert (Hpos : Qle_bool 0 (inject_Z n / inject_Z d) = true).
  { apply Qle_bool_iff. rewrite Hq. unfold Qle; simpl. lia. }
  rewrite Hpos.
  assert (Hh : (inject_Z n / inject_Z d + (1 # 2)
                == inject_Z (2 * n + d) / inject_Z (2 * d))%Q).
  { rewrite Hq.
    assert (Hq2 : (inject_Z (2 * n + d) / inject_Z (2 * d)
                   == (2 * n + d) # Z.to_pos (2 * d))%Q).
    { unfold Qeq, Qdiv, Qmult, Qinv, inject_Z; simpl.
      destruct d as [| p | p]; try lia. simpl. lia. }
    rewrite Hq2. unfold Qeq, Qplus; simpl.
    rewrite !Z2Pos.id by lia.
    rewrite Pos2Z.inj_mul, !Z2Pos.id by lia. ring. }
  rewrite (Qfloor_comp _ _ Hh). apply Qfloor_quotient. lia.
Qed.

(** The value [CalculateDisplayValue] returns for gamma 0 on a sample inside
    a proper window. *)
Lemma CalculateDisplayValue_linear `{FloatOps} (T : SampleType)
    (bd : BitmapData T) (v : Z) :
  is_floating_point T = false ->
  0 <= _minDisplayedBrightness bd ->
  _minDisplayedBrightness bd < _maxDisplayedBrightness bd ->
  _maxDisplayedBrightness bd < 2 ^ bits T ->
  _minDisplayedBrightness bd <= v <= _maxDisplayedBrightness bd ->
  let d := _maxDisplayedBrightness bd - _minDisplayedBrightness bd in
  CalculateDisplayValue 0 bd v
  = Z.max 0 (Z.min 255
      ((2 * (255 * (v - _minDisplayedBrightness bd)) + d) / (2 * d))).
Proof.
  intros HT Hmin Hlt Hmax Hv d. unfold CalculateDisplayValue.
  change (Qeq_bool 0 0) with true. cbv iota.
  rewrite (Z.max_l v) by lia. rewrite (Z.min_l v) by lia.
  destruct (Z.geb_spec v (_minDisplayedBrightness bd)); [| lia].
  rewrite static_cast_id by lia.
  assert (Hw : window_width bd = d).
  { unfold window_width. fold d.
    destruct T; try reflexivity; try discriminate HT;
      apply static_cast_id; subst d; lia. }
  rewrite Hw.
  assert (Hq : (255 * inject_Z (v - _minDisplayedBrightness bd) / inject_Z d
                == inject_Z (255 * (v - _minDisplayedBrightness bd))
                   / inject_Z d)%Q).
  { rewrite inject_Z_mult. reflexivity. }
  rewrite (lround_comp _ _ Hq), lround_quotient by (subst d; lia).
  reflexivity.
Qed.

(** C7.  With gamma 0 and a window [min < max] of samples of an unsigned
    type of at most 32 bits, [CalculateDisplayValue] sends [min] to 0 and
    [max] to 255 and is monotone non-decreasing on the samples in between. *)
Theorem display_value_gamma0_monotone `{FloatOps} (T : SampleType)
    (bd : BitmapData T) :
  is_floating_point T = false -> sizeof T <= 4 ->
  0 <= _minDisplayedBrightness bd ->
  _minDisplayedBrightness bd < _maxDisplayedBrightness bd ->
  _maxDisplayedBrightness bd < 2 ^ bits T ->
  CalculateDisplayValue 0 bd (_minDisplayedBrightness bd) = 0
  /\ CalculateDisplayValue 0 bd (_maxDisplayedBrightness bd) = 255
  /\ (forall v1 v2 : Z,
        _minDisplayedBrightness bd <= v1 -> v1 <= v2 ->
        v2 <= _maxDisplayedBrightness bd ->
        CalculateDisplayValue 0 bd v1 <= CalculateDisplayValue 0 bd v2).
Proof.
  intros HT _ Hmin Hlt Hmax.
  assert (Hlin := fun v Hv =>
            CalculateDisplayValue_linear T bd v HT Hmin Hlt Hmax Hv).
  cbv zeta in Hlin.
  set (mn := _minDisplayedBrightness bd) in *.
  set (mx := _maxDisplayedBrightness bd) in *.
  split; [| split].
  - rewrite Hlin by lia.
    replace (2 * (255 * (mn - mn)) + (mx - mn)) with (mx - mn) by ring.
    rewrite Z.div_small by lia. reflexivity.
  - rewrite Hlin by lia.
    replace (2 * (255 * (mx - mn)) + (mx - mn))
      with (mx - mn + 255 * (2 * (mx - mn))) by ring.
    rewrite Z.div_add by lia. rewrite Z.div_small by lia. reflexivity.
  - intros v1 v2 H1 H12 H2. rewrite !Hlin by lia.
    apply Z.max_le_compat_l, Z.min_le_compat_l.
    apply Z.div_le_mono; lia.
Qed.

Lemma display_value_gamma0_monotone_witness :
  let bd : BitmapData U8 :=
    mkBitmapData 1 1 1 [0] 0 (-1) 0 0 0 10 200 in
  @CalculateDisplayValue U8 exact_float_ops 0 bd 10 = 0
  /\ @CalculateDisplayValue U8 exact_float_ops 0 bd 200 = 255
  /\ (forall v1 v2 : Z,
        10 <= v1 -> v1 <= v2 -> v2 <= 200 ->
        @CalculateDisplayValue U8 exact_float_ops 0 bd v1
        <= @CalculateDisplayValue U8 exact_float_ops 0 bd v2).
Proof.
  cbv zeta.
  apply (@display_value_gamma0_monotone exact_float_ops U8
           (mkBitmapData 1 1 1 [0] 0 (-1) 0 0 0 10 200)).
  - reflexivity.
  - now vm_compute.
  - now vm_compute.
  - now vm_compute.
  - now vm_compute.
Defined.

(** ** Interpolation *)

Import interpolation.

Lemma Qltb_false (a b : Q) : Qltb a b = false -> (b <= a)%Q.
Proof.
  unfold Qltb. intros Hf. apply negb_false_iff in Hf.
  now apply Qle_bool_iff.
Qed.

Lemma Qltb_true (a b : Q) : Qltb a b = true -> (a < b)%Q.
Proof.
  unfold Qltb. intros Ht. apply negb_true_iff in Ht.
  apply Qnot_le_lt. intros Hle. apply Qle_bool_iff in Hle. congruence.
Qed.

Lemma std_min_le_l (a b : Q) : (std_min a b <= a)%Q.
Proof.
  unfold std_min. destruct (Qltb b a) eqn:E.
  - apply Qlt_le_weak. now apply Qltb_true.
  - apply Qle_refl.
Qed.


Lemma std_max_le_l (a b : Q) : (a <= std_max a b)%Q.
Proof.
  unfold std_max. destruct (Qltb a b) eqn:E.
  - apply Qlt_le_weak. now apply Qltb_true.
  - apply Qle_refl.
Qed.

Lemma std_max_lub (a b c : Q) : (a <= c)%Q -> (b <= c)%Q -> (std_max a b <= c)%Q.
Proof. intros Ha Hb. unfold std_max. now destruct (Qltb a b). Qed.


(** The lattice column (or row) [Do] starts from lies between integer
    bounds. *)
Lemma clamped_floor_between (lo hi : Z) (d : Q) :
  lo <= hi ->
  lo <= Qfloor (std_max (inject_Z lo) (std_min (inject_Z hi) d)) <= hi.
Proof.
  intros Hlh. split.
  - rewrite <- (Qfloor_Z lo) at 1. apply Qfloor_resp_le, std_max_le_l.
  - rewrite <- (Qfloor_Z hi) at 2. apply Qfloor_resp_le, std_max_lub.
    + now rewrite <- Zle_Qle.
    + apply std_min_le_l.
Qed.

Lemma next_inside (hi i : Z) :
  Qltb (inject_Z hi) (inject_Z (i + 1)) = false -> i + 1 <= hi.
Proof. intros Hf. apply Qltb_false in Hf. now rewrite Zle_Qle. Qed.

(** Every branch of [Do] calls the getter at lattice points of the integer
    clamp rectangle, and at least once. *)
Lemma Do_calls `{FloatOps} {V : Type} `{Mixable V}
    (dx dy : Q) (min_x min_y max_x max_y : Z) (Get : Z -> Z -> V) :
  min_x <= max_x -> min_y <= max_y ->
  let calls :=
    snd (Do dx dy (inject_Z min_x) (inject_Z min_y) (inject_Z max_x)
            (inject_Z max_y) Get) in
  calls <> [] /\ Forall (inside min_x min_y max_x max_y) calls.
Proof.
  intros Hx Hy. unfold Do.
  pose proof (clamped_floor_between min_x max_x dx Hx) as Hix.
  pose proof (clamped_floor_between min_y max_y dy Hy) as Hiy.
  set (ix := Qfloor (std_max (inject_Z min_x) (std_min (inject_Z max_x) dx)))
    in *.
  set (iy := Qfloor (std_max (inject_Z min_y) (std_min (inject_Z max_y) dy)))
    in *.
  destruct (Qle_bool (dx - inject_Z ix) 0
            || Qltb (inject_Z max_x) (inject_Z (ix + 1))) eqn:Ex;
    destruct (Qle_bool (dy - inject_Z iy) 0
              || Qltb (inject_Z max_y) (inject_Z (iy + 1))) eqn:Ey;
    try (apply orb_false_elim in Ex as [_ Ex]; apply next_inside in Ex);
    try (apply orb_false_elim in Ey as [_ Ey]; apply next_inside in Ey);
    cbn [call bind ret app snd];
    (split; [discriminate |]);
    repeat constructor; simpl; lia.
Qed.

(** The fractional [Get] of a container with at least one pixel reads
    pixels of the canvas only. *)
Lemma Get_interpolated_in_canvas `{FloatOps} `{Mixable Color}
    (T : SampleType) (bd : BitmapData T) (dx dy : Q) :
  1 <= _width bd -> 1 <= _height bd ->
  Forall (fun p => in_canvas bd p = true) (snd (Get_interpolated bd dx dy)).
Proof.
  intros Hw Hh. unfold Get_interpolated, Width, Height.
  destruct (Do_calls dx dy 0 0 (_width bd - 1) (_height bd - 1) (Get bd)
              ltac:(lia) ltac:(lia)) as [_ Hall].
  cbv zeta in Hall. change (inject_Z 0) with 0%Q in Hall.
  eapply Forall_impl; [exact Hall |].
  intros [x y] [Hx Hy]. unfold in_canvas, Width, Height. simpl in *. lia.
Qed.

(** C5.  With integer-valued bounds [min_x <= max_x], [min_y <= max_y] that
    are [int] values below [INT_MAX], and any query, [Do] returns a value,
    calls the getter at least once, and every call is at a lattice point of
    [min_x..max_x] x [min_y..max_y]. *)
Theorem Do_samples_inside `{FloatOps} {V : Type} `{Mixable V}
    (dx dy : Q) (min_x min_y max_x max_y : Z) (Get : Z -> Z -> V) :
  int_bounds min_x max_x -> int_bounds min_y max_y ->
  exists (v : V) (calls : list (Z * Z)),
    Do dx dy (inject_Z min_x) (inject_Z min_y) (inject_Z max_x)
       (inject_Z max_y) Get = (v, calls)
    /\ calls <> []
    /\ Forall (inside min_x min_y max_x max_y) calls.
Proof.
  intros (_ & Hx & _) (_ & Hy & _).
  pose proof (Do_calls dx dy min_x min_y max_x max_y Get Hx Hy) as Hcalls.
  cbv zeta in Hcalls.
  destruct (Do dx dy (inject_Z min_x) (inject_Z min_y) (inject_Z max_x)
               (inject_Z max_y) Get) as [v calls].
  exists v, calls. split; [reflexivity | exact Hcalls].
Qed.

Lemma Do_samples_inside_witness :
  exists (v : Z) (calls : list (Z * Z)),
    @Do Z exact_float_ops MixableScalar (7 # 2) (9 # 1) (inject_Z 0)
        (inject_Z 0) (inject_Z 3) (inject_Z 2) (fun x y => 10 * x + y)
    = (v, calls)
    /\ calls <> []
    /\ Forall (inside 0 0 3 2) calls.
Proof.
  apply (@Do_samples_inside exact_float_ops Z MixableScalar
           (7 # 2) (9 # 1) 0 0 3 2 (fun x y => 10 * x + y));
    repeat split; now vm_compute.
Defined.



(** ** Buffer accesses and [Plot] *)

Lemma length_store (buf : list Z) (i v : Z) :
  length (store buf i v) = length buf.
Proof. unfold store. destruct (i <? 0); [reflexivity | apply length_insert]. Qed.

Lemma load_store_same (buf : list Z) (i v : Z) :
  0 <= i < Z.of_nat (length buf) -> load (store buf i v) i = v.
Proof.
  intros Hi. unfold load, store.
  destruct (Z.ltb_spec i 0); [lia |].
  rewrite list_lookup_insert_eq by lia. reflexivity.
Qed.

Lemma load_store_other (buf : list Z) (i j v : Z) :
  0 <= i -> i <> j -> load (store buf i v) j = load buf j.
Proof.
  intros Hi Hij. unfold load, store.
  destruct (Z.ltb_spec i 0); [lia |].
  destruct (Z.ltb_spec j 0); [reflexivity |].
  rewrite list_lookup_insert_ne by lia. reflexivity.
Qed.

(** Sample offsets of a pixel inside the canvas lie inside the buffer. *)
Lemma offset_inside (w h c x y k : Z) :
  0 <= x < w -> 0 <= y < h -> 0 <= k < c ->
  0 <= (y * w + x) * c + k < w * h * c.
Proof.
  intros Hx Hy Hk.
  assert (H1 : 0 <= y * w) by nia.
  assert (H2 : y * w + x + 1 <= w * h) by nia.
  assert (H3 : (y * w + x + 1) * c <= w * h * c) by nia.
  nia.
Qed.

(** Samples of different pixels have different offsets. *)
Lemma offset_apart (w c x y k x' y' k' : Z) :
  0 <= x < w -> 0 <= x' < w -> 0 <= k < c -> 0 <= k' < c ->
  (x, y) <> (x', y') ->
  (y * w + x) * c + k <> (y' * w + x') * c + k'.
Proof.
  intros Hx Hx' Hk Hk' Hne Heq.
  assert (y * w + x = y' * w + x') by nia.
  assert (y = y') by nia.
  assert (x = x') by nia.
  congruence.
Qed.

Section PlotFacts.
Context `{FloatOps} {T : SampleType}.

Lemma in_canvas_test (bd : BitmapData T) (x y : Z) :
  0 <= x < _width bd -> 0 <= y < _height bd ->
  (x <? 0) || (y <? 0) || (x >=? Width bd) || (y >=? Height bd) = false.
Proof.
  intros Hx Hy. unfold Width, Height.
  destruct (Z.ltb_spec x 0), (Z.ltb_spec y 0),
    (Z.geb_spec x (_width bd)), (Z.geb_spec y (_height bd));
    try lia; reflexivity.
Qed.

Lemma Plot_geometry (bd : BitmapData T) (x y : Z) (color : Color) :
  let bd' := fst (Plot bd x y color) in
  _width bd' = _width bd /\ _height bd' = _height bd
  /\ _channels bd' = _channels bd
  /\ _grayIndex bd' = _grayIndex bd /\ _alphaIndex bd' = _alphaIndex bd
  /\ _redIndex bd' = _redIndex bd /\ _greenIndex bd' = _greenIndex bd
  /\ _blueIndex bd' = _blueIndex bd
  /\ length (_buffer bd') = length (_buffer bd).
Proof.
  unfold Plot.
  repeat match goal with
         | |- context [if ?b then _ else _] => destruct b
         end; simpl; rewrite ?length_store; repeat split.
Qed.

Lemma Plot_well_formed (bd : BitmapData T) (x y : Z) (color : Color) :
  well_formed bd -> well_formed (fst (Plot bd x y color)).
Proof.
  intros (Hw & Hh & Hl & Hlen).
  destruct (Plot_geometry bd x y color)
    as (Ew & Eh & Ec & Eg & Ea & Er & Egr & Eb & Elen).
  unfold well_formed, layout in *.
  rewrite Ew, Eh, Ec, Eg, Ea, Er, Egr, Eb, Elen. auto.
Qed.

Ltac buffer_bounds w h x y Hx Hy :=
  pose proof (offset_inside w h 1 x y 0 Hx Hy ltac:(lia));
  pose proof (offset_inside w h 3 x y 0 Hx Hy ltac:(lia));
  pose proof (offset_inside w h 3 x y 1 Hx Hy ltac:(lia));
  pose proof (offset_inside w h 3 x y 2 Hx Hy ltac:(lia));
  pose proof (offset_inside w h 4 x y 0 Hx Hy ltac:(lia));
  pose proof (offset_inside w h 4 x y 1 Hx Hy ltac:(lia));
  pose proof (offset_inside w h 4 x y 2 Hx Hy ltac:(lia));
  pose proof (offset_inside w h 4 x y 3 Hx Hy ltac:(lia)).

Ltac read_back :=
  repeat first
    [ rewrite load_store_same by (rewrite ?length_store; lia)
    | rewrite load_store_other by lia ].

Lemma Plot_Get_same (bd : BitmapData T) (x y : Z) (color : Color) :
  well_formed bd -> 0 <= x < _width bd -> 0 <= y < _height bd ->
  Get (fst (Plot bd x y color)) x y = stored bd color.
Proof.
  intros (Hw & Hh & Hl & Hlen) Hx Hy. unfold Plot.
  rewrite (in_canvas_test bd x y Hx Hy).
  destruct bd as [w h c buf gi ai ri gri bi mn mx].
  unfold layout in Hl. simpl in *.
  buffer_bounds w h x y Hx Hy.
  destruct Hl as [Hl | [Hl | Hl]];
    destruct Hl as (-> & -> & -> & -> & -> & ->);
    unfold stored, Get, GetRed, GetGreen, GetBlue, GetAlpha, pixel,
      ColorOps.Red, ColorOps.Green, ColorOps.Blue, ColorOps.Alpha;
    cbn [negb Z.eqb _channels _alphaIndex _grayIndex _redIndex _greenIndex
         _blueIndex _width _height];
    simpl;
    try destruct (negb (_alpha color =? numeric_limits_max T));
    simpl; read_back; reflexivity.
Qed.

Lemma Plot_Get_other (bd : BitmapData T) (x y x' y' : Z) (color : Color) :
  well_formed bd -> 0 <= x < _width bd -> 0 <= y < _height bd ->
  0 <= x' < _width bd -> (x, y) <> (x', y') ->
  Get (fst (Plot bd x y color)) x' y' = Get bd x' y'.
Proof.
  intros (Hw & Hh & Hl & Hlen) Hx Hy Hx' Hne. unfold Plot.
  rewrite (in_canvas_test bd x y Hx Hy).
  destruct bd as [w h c buf gi ai ri gri bi mn mx].
  unfold layout in Hl. simpl in *.
  buffer_bounds w h x y Hx Hy.
  pose proof (fun c k k' => offset_apart w c x y k x' y' k' Hx Hx') as Hap.
  destruct Hl as [Hl | [Hl | Hl]];
    destruct Hl as (-> & -> & -> & -> & -> & ->);
    unfold Get, GetRed, GetGreen, GetBlue, GetAlpha, pixel,
      ColorOps.Red, ColorOps.Green, ColorOps.Blue, ColorOps.Alpha;
    simpl;
    try destruct (negb (_alpha color =? numeric_limits_max T));
    simpl;
    repeat (rewrite load_store_other
              by (first [lia | apply Hap; [lia | lia | exact Hne]]));
    reflexivity.
Qed.

Lemma Plot_returns (bd : BitmapData T) (x y : Z) (color : Color) :
  _alphaIndex bd <> -1 \/ _alpha color = numeric_limits_max T ->
  snd (Plot bd x y color) = inr true.
Proof.
  intros Ha. unfold Plot, ColorOps.Alpha.
  destruct (_ || _); [reflexivity |].
  destruct (Z.eqb_spec (_alphaIndex bd) (-1)); [| reflexivity].
  destruct Ha as [Ha | Ha]; [contradiction |].
  rewrite Ha, Z.eqb_refl. reflexivity.
Qed.
End PlotFacts.

(** C10.  On a well-formed container without alpha channel and for (x, y)
    inside the canvas, [Plot] throws exactly when the colour's alpha is not
    [numeric_limits<T>::max()], and returns [true] otherwise; in both cases
    the container it leaves behind is the one a successful [Plot] of the same
    red, green and blue leaves, so the pixel already reads back as the new
    colour (its gray value on a one-channel container) when the error is
    raised. *)
Theorem Plot_throws_after_writing `{FloatOps} (T : SampleType)
    (bd : BitmapData T) (x y : Z) (color : Color) :
  well_formed bd -> _alphaIndex bd = -1 ->
  0 <= x < _width bd -> 0 <= y < _height bd ->
  let opaque :=
    mkColor (_red color) (_green color) (_blue color) (numeric_limits_max T) in
  (snd (Plot bd x y color)
   = inl (CannotSetAlpha (_alpha color) (_channels bd))
   <-> _alpha color <> numeric_limits_max T)
  /\ (snd (Plot bd x y color) = inr true
      <-> _alpha color = numeric_limits_max T)
  /\ snd (Plot bd x y opaque) = inr true
  /\ fst (Plot bd x y color) = fst (Plot bd x y opaque)
  /\ (_channels bd = 1 ->
      GetGray (fst (Plot bd x y color)) x y = ColorOps.Gray T color)
  /\ (_channels bd = 3 ->
      Get (fst (Plot bd x y color)) x y = opaque).
Proof.
  intros Hwf Ha Hx Hy opaque.
  assert (Hsame : fst (Plot bd x y color) = fst (Plot bd x y opaque)).
  { unfold Plot. rewrite (in_canvas_test bd x y Hx Hy), Ha. simpl.
    unfold ColorOps.Alpha, ColorOps.Gray; simpl. rewrite Z.eqb_refl.
    destruct (negb (_alpha color =? numeric_limits_max T)); reflexivity. }
  assert (Hout : snd (Plot bd x y color)
                 = if _alpha color =? numeric_limits_max T then inr true
                   else inl (CannotSetAlpha (_alpha color) (_channels bd))).
  { unfold Plot. rewrite (in_canvas_test bd x y Hx Hy), Ha. simpl.
    unfold ColorOps.Alpha.
    destruct (_alpha color =? numeric_limits_max T); reflexivity. }
  pose proof (Plot_Get_same bd x y color Hwf Hx Hy) as Hget.
  unfold stored in Hget. rewrite Ha in Hget. simpl in Hget.
  split; [| split; [| split; [| split; [| split]]]].
  - rewrite Hout. destruct (Z.eqb_spec (_alpha color) (numeric_limits_max T));
      split; intros; congruence.
  - rewrite Hout. destruct (Z.eqb_spec (_alpha color) (numeric_limits_max T));
      split; intros; congruence.
  - apply Plot_returns. right. reflexivity.
  - exact Hsame.
  - intros Hc. rewrite Hc in Hget. simpl in Hget.
    destruct Hwf as (_ & _ & Hl & _).
    destruct (Plot_geometry bd x y color)
      as (Ew & Eh & Ec & Eg & _).
    assert (Hg : _grayIndex bd = 0)
      by (destruct Hl as [Hl | [Hl | Hl]]; lia).
    unfold GetGray. rewrite Eg, Hg. simpl.
    apply (f_equal _red) in Hget. simpl in Hget. rewrite <- Hget.
    unfold Get. rewrite Ec, Hc, Eg, Hg. reflexivity.
  - intros Hc. rewrite Hc in Hget. exact Hget.
Qed.

Lemma Plot_throws_after_writing_witness :
  let bd : BitmapData U8 :=
    mkBitmapData 1 1 3 [0; 0; 0] (-1) (-1) 0 1 2 0 255 in
  @Plot U8 exact_float_ops bd 0 0 (mkColor 10 20 30 7)
  = (mkBitmapData 1 1 3 [10; 20; 30] (-1) (-1) 0 1 2 0 255,
     inl (CannotSetAlpha 7 3))
  /\ (snd (@Plot U8 exact_float_ops bd 0 0 (mkColor 10 20 30 7))
      = inl (CannotSetAlpha 7 3) <-> 7 <> numeric_limits_max U8).
Proof.
  cbv zeta. split; [reflexivity |].
  apply (@Plot_throws_after_writing exact_float_ops U8
           (mkBitmapData 1 1 3 [0; 0; 0] (-1) (-1) 0 1 2 0 255) 0 0
           (mkColor 10 20 30 7)).
  - repeat split; try (now vm_compute).
    right. left. repeat split.
  - reflexivity.
  - now vm_compute.
  - now vm_compute.
Defined.

(** ** Drawing *)











(** ** Region statistics *)

(** A component of the scan state that every step increases by [g x y]
    ends up as the scan of the sums. *)
Lemma scan_accumulates {St : Type} (proj : St -> Z) (g : Z -> Z -> Z)
    (step : Z -> Z -> St -> St) (x0 y0 x1 y1 : Z) :
  (forall x y s, proj (step x y s) = proj s + g x y) ->
  forall s : St,
    proj (scan x0 y0 x1 y1 step s)
    = scan x0 y0 x1 y1 (fun x y acc => acc + g x y) (proj s).
Proof.
  intros Hstep. unfold scan.
  assert (Hrow : forall (y : Z) (xs : list Z) (s : St),
             proj (fold_left (fun s x => step x y s) xs s)
             = fold_left (fun acc x => acc + g x y) xs (proj s)).
  { intros y xs. induction xs as [| x xs IH]; intros s; simpl.
    - reflexivity.
    - now rewrite IH, Hstep. }
  generalize (seqZ y0 (y1 - y0 + 1)) as ys.
  induction ys as [| y ys IH]; intros s; simpl.
  - reflexivity.
  - now rewrite IH, Hrow.
Qed.

Section Statistics.
Context `{FloatOps} {T : SampleType}.

Lemma MaxGray_step_sum (bd : BitmapData T) (x y : Z) (s : MaxGrayState) :
  mg_sum (MaxGray_step bd x y s) = mg_sum s + GetGray bd x y.
Proof.
  unfold MaxGray_step.
  repeat match goal with
         | |- context [if ?b then _ else _] => destruct b
         end; reflexivity.
Qed.

Lemma MinGray_step_sum (bd : BitmapData T) (x y : Z) (s : MinGrayState) :
  ng_sum (MinGray_step bd x y s) = ng_sum s + GetGray bd x y.
Proof.
  unfold MinGray_step.
  repeat match goal with
         | |- context [if ?b then _ else _] => destruct b
         end; reflexivity.
Qed.

(** The value [MaxGray] and [MinGray] store through [average]: one more
    than the sum of the scanned gray values, divided by their number and
    converted to [T]. *)
Lemma average_formula (bd : BitmapData T) (x0 y0 x1 y1 : Z)
    (pos : (Z * Z) * (Z * Z) * (Z * Z)) (pos' : (Z * Z) * (Z * Z)) :
  let X0 := Z.max 0 x0 in
  let Y0 := Z.max 0 y0 in
  let X1 := Z.min (_width bd - 1) x1 in
  let Y1 := Z.min (_height bd - 1) y1 in
  let n := (X1 - X0 + 1) * (Y1 - Y0 + 1) in
  r_average (MaxGray bd x0 y0 x1 y1 pos)
  = static_cast T (Z.quot (region_sum bd X0 Y0 X1 Y1 + 1) n)
  /\ n_average (MinGray bd x0 y0 x1 y1 pos')
     = static_cast T (Z.quot (region_sum bd X0 Y0 X1 Y1 + 1) n).
Proof.
  intros X0 Y0 X1 Y1 n. unfold MaxGray, MinGray, region_sum.
  destruct pos as [[b0 sb0] d0]. destruct pos' as [d0' sd0'].
  cbn [r_average n_average]. fold X0 Y0 X1 Y1 n.
  rewrite (scan_accumulates mg_sum (GetGray bd) (MaxGray_step bd))
    by apply MaxGray_step_sum.
  rewrite (scan_accumulates ng_sum (GetGray bd) (MinGray_step bd))
    by apply MinGray_step_sum.
  split; reflexivity.
Qed.

End Statistics.

(** C4, at a one-pixel image whose only gray value is 5: the mean of the
    region is 5, and both [MaxGray] and [MinGray] store 6 as the average.
    On two pixels with gray values 0 and 1 the mean converts to 0 and the
    stored average is 1. *)
Theorem average_is_not_the_mean `{FloatOps} :
  let one : BitmapData U8 := mkBitmapData 1 1 1 [5] 0 (-1) 0 0 0 0 255 in
  let two : BitmapData U8 := mkBitmapData 2 1 1 [0; 1] 0 (-1) 0 0 0 0 255 in
  let cells := ((0, 0), (0, 0), (0, 0)) in
  create 1 1 1 = inr (set_buffer one [0])
  /\ region_mean one 0 0 0 0 = 5
  /\ r_average (MaxGray one 0 0 0 0 cells) = 6
  /\ n_average (MinGray one 0 0 0 0 ((0, 0), (0, 0))) = 6
  /\ region_mean two 0 0 1 0 = 0
  /\ r_average (MaxGray two 0 0 1 0 cells) = 1
  /\ n_average (MinGray two 0 0 1 0 ((0, 0), (0, 0))) = 1.
Proof. cbv zeta. repeat split. Qed.

(** ** Whole-buffer arithmetic *)

Section Pixelwise.
Context `{FloatOps} {T : SampleType}.

Variable op : Color -> Color -> Color.
Hypothesis op_alpha : forall a b, _alpha (op a b) = _alpha a.
Hypothesis op_gray :
  forall g h a a', exists k, op (mkColor g g g a) (mkColor h h h a')
                             = mkColor k k k a.

Variables lhs rhs : BitmapData T.
Hypothesis lhs_wf : well_formed lhs.
Hypothesis rhs_channels : _channels rhs = _channels lhs.

Local Abbreviation plot_op := (plot_op op rhs).
Local Abbreviation combined := (combined op lhs rhs).

Lemma stored_op (b : BitmapData T) (i j : Z) :
  well_formed b -> _channels b = _channels lhs ->
  stored b (op (Get b i j) (Get rhs i j)) = op (Get b i j) (Get rhs i j).
Proof.
  intros (_ & _ & Hl & _) Hc.
  assert (Hcr : _channels rhs = _channels b) by congruence.
  unfold stored, Get, GetAlpha.
  destruct Hl as [Hl | [Hl | Hl]];
    destruct Hl as (Ec & Eg & Ea & _); rewrite Ec in *; rewrite Hcr;
    cbn [Z.eqb Pos.eqb]; rewrite ?Ea; cbn [Z.eqb Pos.eqb negb].
  - match goal with
    | |- context [op (mkColor ?g ?g ?g ?a) (mkColor ?h ?h ?h ?a')] =>
        destruct (op_gray g h a a') as [k ->]
    end.
    unfold ColorOps.Gray; simpl. rewrite Z.eqb_refl. reflexivity.
  - match goal with
    | |- context [op ?a ?b] =>
        pose proof (op_alpha a b) as Halpha; destruct (op a b)
    end.
    simpl in *. now rewrite Halpha.
  - match goal with |- context [op ?a ?b] => destruct (op a b) end.
    reflexivity.
Qed.

Lemma plot_op_step (b : BitmapData T) (j i : Z) :
  0 <= i < _width lhs -> 0 <= j < _height lhs ->
  combined b j i ->
  exists b', plot_op j i b = (b', inr tt) /\ combined b' j (i + 1).
Proof.
  intros Hi Hj (Hwf & Ew & Eh & Ec & Hpix).
  set (color := op (Get b i j) (Get rhs i j)).
  exists (fst (Plot b i j color)).
  assert (Hret : snd (Plot b i j color) = inr true).
  { apply Plot_returns. destruct Hwf as (_ & _ & Hl & _).
    destruct (Z.eq_dec (_alphaIndex b) (-1)) as [Ea | Na]; [right | now left].
    subst color. rewrite op_alpha. unfold Get, GetAlpha. rewrite Ea.
    now destruct (_channels b =? 1). }
  split.
  - unfold plot_op, discard. fold color.
    destruct (Plot b i j color) as [b1 r]. simpl in *. now rewrite Hret.
  - destruct (Plot_geometry b i j color) as (Gw & Gh & Gc & _).
    split; [now apply Plot_well_formed |].
    split; [congruence |]. split; [congruence |]. split; [congruence |].
    intros i' j' Hi' Hj'.
    destruct (decide ((i, j) = (i', j'))) as [[= <- <-] | Hne].
    + rewrite Plot_Get_same by (rewrite ?Ew, ?Eh; assumption).
      subst color. rewrite stored_op by assumption.
      pose proof (Hpix i j Hi Hj) as Hb.
      assert (Hp : passed j i i j = false).
      { unfold passed. rewrite !Z.ltb_irrefl, andb_false_r. reflexivity. }
      rewrite Hp in Hb. rewrite Hb.
      assert (Hp' : passed j (i + 1) i j = true).
      { unfold passed. rewrite Z.eqb_refl.
        destruct (Z.ltb_spec i (i + 1)); [| lia]. apply orb_true_r. }
      now rewrite Hp'.
    + rewrite Plot_Get_other by (rewrite ?Ew, ?Eh; assumption).
      rewrite (Hpix i' j' Hi' Hj').
      assert (Hp : passed j (i + 1) i' j' = passed j i i' j').
      { unfold passed. destruct (Z.eqb_spec j' j) as [-> | Nj].
        - assert (i' <> i) by congruence.
          destruct (Z.ltb_spec i' (i + 1)), (Z.ltb_spec i' i);
            try lia; reflexivity.
        - now rewrite !andb_false_l. }
      now rewrite Hp.
Qed.

Lemma row_loop (n : nat) :
  forall (i j : Z) (b : BitmapData T),
    0 <= i -> i + Z.of_nat n <= _width lhs -> 0 <= j < _height lhs ->
    combined b j i ->
    exists b', foreach (seqZ i (Z.of_nat n)) (plot_op j) b = (b', inr tt)
               /\ combined b' j (i + Z.of_nat n).
Proof.
  induction n as [| n IH]; intros i j b Hi Hn Hj Hb.
  - exists b. rewrite Z.add_0_r. split; [reflexivity | exact Hb].
  - rewrite seqZ_cons by lia. cbn [foreach].
    destruct (plot_op_step b j i ltac:(lia) Hj Hb) as (b1 & E1 & Hb1).
    rewrite E1.
    destruct (IH (i + 1) j b1 ltac:(lia) ltac:(lia) Hj Hb1) as (b2 & E2 & Hb2).
    exists b2. split.
    + replace (Z.succ i) with (i + 1) by lia.
      replace (Z.pred (Z.of_nat (S n))) with (Z.of_nat n) by lia. exact E2.
    + replace (i + Z.of_nat (S n)) with (i + 1 + Z.of_nat n) by lia.
      exact Hb2.
Qed.

Lemma combined_next_row (b : BitmapData T) (j : Z) :
  combined b j (_width lhs) -> combined b (j + 1) 0.
Proof.
  intros (Hwf & Ew & Eh & Ec & Hpix).
  repeat (split; [assumption |]).
  intros i' j' Hi' Hj'. rewrite (Hpix i' j' Hi' Hj').
  assert (Hp : passed j (_width lhs) i' j' = passed (j + 1) 0 i' j').
  { unfold passed.
    destruct (Z.ltb_spec j' j), (Z.ltb_spec j' (j + 1)), (Z.eqb_spec j' j),
      (Z.eqb_spec j' (j + 1)), (Z.ltb_spec i' (_width lhs)),
      (Z.ltb_spec i' 0); try lia; reflexivity. }
  now rewrite Hp.
Qed.

Lemma rows_loop (n : nat) :
  forall (j : Z) (b : BitmapData T),
    0 <= j -> j + Z.of_nat n <= _height lhs ->
    combined b j 0 ->
    exists b',
      foreach (seqZ j (Z.of_nat n))
        (fun j => foreach (seqZ 0 (_width lhs)) (plot_op j)) b
      = (b', inr tt)
      /\ combined b' (j + Z.of_nat n) 0.
Proof.
  induction n as [| n IH]; intros j b Hj Hn Hb.
  - exists b. rewrite Z.add_0_r. split; [reflexivity | exact Hb].
  - rewrite seqZ_cons by lia. cbn [foreach].
    assert (Hw : 0 <= _width lhs) by (destruct lhs_wf; assumption).
    destruct (row_loop (Z.to_nat (_width lhs)) 0 j b ltac:(lia) ltac:(lia)
                ltac:(lia) Hb) as (b1 & E1 & Hb1).
    rewrite Z2Nat.id in E1, Hb1 by exact Hw. rewrite E1.
    apply combined_next_row in Hb1.
    destruct (IH (j + 1) b1 ltac:(lia) ltac:(lia) Hb1) as (b2 & E2 & Hb2).
    exists b2. split.
    + replace (Z.succ j) with (j + 1) by lia.
      replace (Z.pred (Z.of_nat (S n))) with (Z.of_nat n) by lia. exact E2.
    + replace (j + Z.of_nat (S n)) with (j + 1 + Z.of_nat n) by lia.
      exact Hb2.
Qed.

(** The double loop combines every pixel of [lhs] with the pixel of [rhs]
    at the same place and throws nothing. *)
Lemma pixelwise_loop :
  exists b',
    foreach (seqZ 0 (_height lhs))
      (fun j => foreach (seqZ 0 (_width lhs)) (plot_op j)) lhs
    = (b', inr tt)
    /\ _width b' = _width lhs /\ _height b' = _height lhs
    /\ _channels b' = _channels lhs
    /\ forall i j, 0 <= i < _width lhs -> 0 <= j < _height lhs ->
         Get b' i j = op (Get lhs i j) (Get rhs i j).
Proof.
  assert (Hh : 0 <= _height lhs) by (destruct lhs_wf as (_ & ? & _); assumption).
  assert (H0 : combined lhs 0 0).
  { repeat (split; [first [assumption | reflexivity] |]).
    intros i' j' Hi' Hj'.
    assert (Hp : passed 0 0 i' j' = false).
    { unfold passed. lia. }
    now rewrite Hp. }
  destruct (rows_loop (Z.to_nat (_height lhs)) 0 lhs ltac:(lia) ltac:(lia) H0)
    as (b' & E & (Hwf & Ew & Eh & Ec & Hpix)).
  rewrite Z2Nat.id in E, Hpix by exact Hh. exists b'.
  split; [exact E |]. repeat (split; [assumption |]).
  intros i j Hi Hj. rewrite (Hpix i j Hi Hj).
  assert (Hp : passed (0 + _height lhs) 0 i j = true).
  { unfold passed. destruct (Z.ltb_spec j (0 + _height lhs)); [reflexivity | lia]. }
  now rewrite Hp.
Qed.

End Pixelwise.

(** [Color::operator-=] meets what [pixelwise_loop] asks of a colour
    operator. *)
Lemma sub_keeps_alpha (T : SampleType) (a b : Color) :
  _alpha (ColorOps.sub T a b) = _alpha a.
Proof. reflexivity. Qed.

Lemma sub_keeps_gray (T : SampleType) (g h a a' : Z) :
  exists k, ColorOps.sub T (mkColor g g g a) (mkColor h h h a')
            = mkColor k k k a.
Proof. eexists. reflexivity. Qed.

(** C1 fails on the example of the claim, which is the library's own test
    [ColorWrap]: with 64-bit unsigned channels (3,5,7) - (5,3,2) is
    (2^64 - 2, 2, 5), the colour the test builds from (-2, 2, 5), and not
    (0, 2, 5).  The whole-buffer [operator-=] does the same to a pixel. *)
Lemma color_subtraction_wraps_u64 :
  let a := ColorOps.rgb U64 3 5 7 in
  let b := ColorOps.rgb U64 5 3 2 in
  let lhs : BitmapData U8 :=
    mkBitmapData 1 1 3 [3; 5; 7] (-1) (-1) 0 1 2 0 255 in
  let rhs : BitmapData U8 :=
    mkBitmapData 1 1 3 [5; 3; 2] (-1) (-1) 0 1 2 0 255 in
  ColorOps.sub_assign U64 a b = ColorOps.rgb U64 (-2) 2 5
  /\ ColorOps.eqb (ColorOps.sub_assign U64 a b) (ColorOps.rgb U64 (-2) 2 5)
     = true
  /\ _red (ColorOps.sub_assign U64 a b) = 18446744073709551614
  /\ ColorOps.sub_assign U64 a b <> ColorOps.rgb U64 0 2 5
  /\ @sub_assign U8 exact_float_ops lhs rhs
     = (set_buffer lhs [254; 2; 5], inr tt).
Proof.
  cbv zeta. split; [reflexivity |]. split; [reflexivity |].
  split; [reflexivity |]. split; [| reflexivity].
  intros Heq. apply (f_equal _red) in Heq. vm_compute in Heq. discriminate.
Qed.

(** C1, amended.  For every unsigned-integer sample type [T] and all colours
    [a], [b] over [T], [a -= b] wraps each of red, green and blue around:
    the channel is the difference when the subtrahend channel does not
    exceed the minuend channel and the difference plus [2^bits] otherwise;
    alpha is kept.  The whole-buffer [operator-=] of a well-formed container
    with a well-formed one of the same geometry throws nothing and replaces
    every pixel by that wrapped difference of the two pixels. *)
Theorem sub_assign_wraps `{FloatOps} (T : SampleType) :
  is_floating_point T = false ->
  (forall a b : Color,
     ColorOps.in_range T a -> ColorOps.in_range T b ->
     wraps T (_red a) (_red b) (_red (ColorOps.sub_assign T a b))
     /\ wraps T (_green a) (_green b) (_green (ColorOps.sub_assign T a b))
     /\ wraps T (_blue a) (_blue b) (_blue (ColorOps.sub_assign T a b))
     /\ _alpha (ColorOps.sub_assign T a b) = _alpha a)
  /\ (forall lhs rhs : BitmapData T,
        well_formed lhs -> well_formed rhs -> eqb lhs rhs = true ->
        exists lhs' : BitmapData T,
          sub_assign lhs rhs = (lhs', inr tt)
          /\ eqb lhs' lhs = true
          /\ forall i j : Z,
               0 <= i < _width lhs -> 0 <= j < _height lhs ->
               Get lhs' i j
               = ColorOps.sub_assign T (Get lhs i j) (Get rhs i j)).
Proof.
  intros HT. split.
  - intros a b (Hr & Hg & Hb) (Hr' & Hg' & Hb'). unfold ColorOps.sub_assign.
    cbn [_red _green _blue _alpha].
    repeat split; try (apply static_cast_sub_wraps; assumption).
  - intros lhs rhs Hl Hr Heq.
    apply andb_true_iff in Heq as [Heq _].
    apply andb_true_iff in Heq as [Heq Hc].
    apply andb_true_iff in Heq as [Hw Hh].
    apply Z.eqb_eq in Hw, Hh, Hc. unfold Width, Height, Channels in *.
    destruct (pixelwise_loop (ColorOps.sub T) (sub_keeps_alpha T)
                (sub_keeps_gray T) lhs rhs Hl (eq_sym Hc))
      as (lhs' & E & Ew & Eh & Ec & Hpix).
    exists lhs'. split; [exact E |]. split; [| exact Hpix].
    unfold eqb, Width, Height, Channels, Depth.
    rewrite Ew, Eh, Ec, !Z.eqb_refl. reflexivity.
Qed.

Lemma sub_assign_wraps_witness :
  let a := mkColor 3 5 7 255 in
  let b := mkColor 5 3 2 255 in
  let lhs : BitmapData U8 :=
    mkBitmapData 1 1 3 [3; 5; 7] (-1) (-1) 0 1 2 0 255 in
  let rhs : BitmapData U8 :=
    mkBitmapData 1 1 3 [5; 3; 2] (-1) (-1) 0 1 2 0 255 in
  (wraps U8 (_red a) (_red b) (_red (ColorOps.sub_assign U8 a b))
   /\ wraps U8 (_green a) (_green b) (_green (ColorOps.sub_assign U8 a b))
   /\ wraps U8 (_blue a) (_blue b) (_blue (ColorOps.sub_assign U8 a b))
   /\ _alpha (ColorOps.sub_assign U8 a b) = _alpha a)
  /\ (exists lhs' : BitmapData U8,
        @sub_assign U8 exact_float_ops lhs rhs = (lhs', inr tt)
        /\ eqb lhs' lhs = true
        /\ forall i j : Z,
             0 <= i < _width lhs -> 0 <= j < _height lhs ->
             Get lhs' i j
             = ColorOps.sub_assign U8 (Get lhs i j) (Get rhs i j)).
Proof.
  cbv zeta.
  destruct (@sub_assign_wraps exact_float_ops U8 eq_refl) as [Hcolor Hbuffer].
  split.
  - apply Hcolor; repeat split; now vm_compute.
  - apply Hbuffer.
    + repeat split; try (now vm_compute). right. left. repeat split.
    + repeat split; try (now vm_compute). right. left. repeat split.
    + reflexivity.
Defined.

(** * Further properties *)

(** ** Scalar colour arithmetic *)

Lemma numeric_limits_max_unsigned (T : SampleType) :
  is_floating_point T = false -> numeric_limits_max T = 2 ^ bits T - 1.
Proof. destruct T; [reflexivity .. | discriminate]. Qed.

Lemma to_int64_small (z : Z) : 0 <= z < 2 ^ 63 -> to_int64 z = z.
Proof. intros Hz. unfold to_int64. rewrite Z.mod_small; lia. Qed.

Lemma BoundedAdd_clamps (T : SampleType) (a b : Z) :
  is_floating_point T = false -> 0 <= a < 2 ^ bits T -> a < 2 ^ 63 ->
  BoundedAdd T a b = clamp_sample T (a + b).
Proof.
  intros HT Ha H63. unfold BoundedAdd, clamp_sample.
  assert (Hlow : numeric_limits_lowest T = 0)
    by (destruct T; [reflexivity .. | discriminate]).
  rewrite Hlow, (numeric_limits_max_unsigned T HT).
  set (mx := 2 ^ bits T - 1).
  destruct ((b >=? mx) || (a >? mx - b)) eqn:Hi.
  - apply orb_true_iff in Hi. lia.
  - apply orb_false_iff in Hi as [Hi1 Hi2].
    destruct ((b <=? - mx) || (a <? 0 - b)) eqn:Hj.
    + apply orb_true_iff in Hj. lia.
    + apply orb_false_iff in Hj as [Hj1 Hj2].
      rewrite to_int64_small by lia. rewrite static_cast_id by lia. lia.
Qed.

Lemma BoundedSub_clamps (T : SampleType) (a b : Z) :
  is_floating_point T = false -> 0 <= a < 2 ^ bits T -> a < 2 ^ 63 ->
  BoundedSub T a b = clamp_sample T (a - b).
Proof.
  intros HT Ha H63. unfold BoundedSub.
  rewrite BoundedAdd_clamps by assumption. f_equal.
Qed.

Lemma clamp_sample_range (T : SampleType) (z : Z) :
  is_floating_point T = false -> 0 <= clamp_sample T z < 2 ^ bits T.
Proof.
  intros HT. unfold clamp_sample. rewrite (numeric_limits_max_unsigned T HT).
  pose proof (bits_pos T). lia.
Qed.

(** X1.  Adding or subtracting an integer to a colour of an unsigned sample type
    saturates each of red, green and blue between 0 and [max] and keeps
    alpha: unlike the colour-by-colour operators it never wraps. *)
Theorem scalar_arithmetic_saturates (T : SampleType) (c : Color) (k : Z) :
  is_floating_point T = false -> ColorOps.in_range T c ->
  _red c < 2 ^ 63 -> _green c < 2 ^ 63 -> _blue c < 2 ^ 63 ->
  ColorOps.plus_int64 T c k
  = mkColor (clamp_sample T (_red c + k)) (clamp_sample T (_green c + k))
            (clamp_sample T (_blue c + k)) (_alpha c)
  /\ ColorOps.minus_int64 T c k
     = mkColor (clamp_sample T (_red c - k)) (clamp_sample T (_green c - k))
               (clamp_sample T (_blue c - k)) (_alpha c)
  /\ ColorOps.in_range T (ColorOps.plus_int64 T c k)
  /\ ColorOps.in_range T (ColorOps.minus_int64 T c k).
Proof.
  intros HT (Hr & Hg & Hb) Lr Lg Lb.
  unfold ColorOps.plus_int64, ColorOps.minus_int64, ColorOps.add_scalar,
    ColorOps.sub_scalar, ColorOps.in_range.
  rewrite !BoundedAdd_clamps, !BoundedSub_clamps by assumption.
  cbn [_red _green _blue].
  repeat split; try reflexivity; apply clamp_sample_range; assumption.
Qed.

Lemma scalar_arithmetic_saturates_witness :
  ColorOps.plus_int64 U8 (mkColor 3 200 250 255) 10
  = mkColor (clamp_sample U8 (3 + 10)) (clamp_sample U8 (200 + 10))
            (clamp_sample U8 (250 + 10)) 255
  /\ ColorOps.minus_int64 U8 (mkColor 3 200 250 255) 10
     = mkColor (clamp_sample U8 (3 - 10)) (clamp_sample U8 (200 - 10))
               (clamp_sample U8 (250 - 10)) 255
  /\ ColorOps.in_range U8 (ColorOps.plus_int64 U8 (mkColor 3 200 250 255) 10)
  /\ ColorOps.in_range U8 (ColorOps.minus_int64 U8 (mkColor 3 200 250 255) 10).
Proof.
  apply (scalar_arithmetic_saturates U8 (mkColor 3 200 250 255) 10);
    try reflexivity.
  repeat split; now vm_compute.
Defined.

Lemma add_sub_sample (T : SampleType) (a k : Z) :
  is_floating_point T = false ->
  0 <= a < 2 ^ bits T -> a < 2 ^ 63 ->
  0 <= a + k < 2 ^ bits T -> a + k < 2 ^ 63 ->
  BoundedSub T (BoundedAdd T a k) k = a.
Proof.
  intros HT Ha H63 Hs Hs63.
  pose proof (numeric_limits_max_unsigned T HT) as Emax.
  rewrite BoundedAdd_clamps by assumption.
  assert (Hc : clamp_sample T (a + k) = a + k) by (unfold clamp_sample; lia).
  rewrite Hc, BoundedSub_clamps by assumption.
  unfold clamp_sample. lia.
Qed.

Lemma mul_div_sample (T : SampleType) (a k : Z) :
  is_floating_point T = false -> 0 <= a -> 0 < k ->
  a * k <= numeric_limits_max T ->
  static_cast T
    (Z.quot (static_cast T (Z.min (numeric_limits_max T) (a * k))) k) = a.
Proof.
  intros HT Ha Hk Hmax.
  pose proof (numeric_limits_max_unsigned T HT) as Emax.
  rewrite Z.min_r by lia.
  rewrite (static_cast_id T (a * k)) by nia.
  rewrite Z.quot_mul by lia. apply static_cast_id. nia.
Qed.

(** X2.  For a colour [c] of an unsigned sample type and any integer [k]:
    when the channels of [c] and every exact channel sum are samples of the
    type below 2^63 (the addition saturates no channel), [(c + k) - k] is
    [c]; when [k > 0] and every exact channel product is a sample of the
    type (the multiplication saturates none), [(c * k) / k] is [c]. *)
Theorem scalar_round_trips (T : SampleType) (c : Color) (k : Z) :
  is_floating_point T = false -> ColorOps.in_range T c ->
  (fits_int64 c ->
   ColorOps.in_range T (on_channels (fun ch => ch + k) c) ->
   fits_int64 (on_channels (fun ch => ch + k) c) ->
   ColorOps.minus_int64 T (ColorOps.plus_int64 T c k) k = c)
  /\ (0 < k -> ColorOps.in_range T (on_channels (fun ch => ch * k) c) ->
      ColorOps.div T (ColorOps.mul T c k) k = c).
Proof.
  intros HT (Hr & Hg & Hb).
  pose proof (numeric_limits_max_unsigned T HT) as Emax.
  destruct c as [r g b a].
  unfold on_channels, ColorOps.in_range, fits_int64.
  cbn [_red _green _blue _alpha] in *. split.
  - intros (Fr & Fg & Fb) (Sr & Sg & Sb) (Lr & Lg & Lb).
    unfold ColorOps.plus_int64, ColorOps.minus_int64, ColorOps.add_scalar,
      ColorOps.sub_scalar. cbn [_red _green _blue _alpha].
    rewrite !add_sub_sample by assumption. reflexivity.
  - intros Hk (Sr & Sg & Sb).
    unfold ColorOps.div, ColorOps.mul, ColorOps.div_assign,
      ColorOps.mul_assign. cbn [_red _green _blue _alpha].
    rewrite !mul_div_sample by (assumption || lia). reflexivity.
Qed.

Lemma scalar_round_trips_witness :
  ColorOps.minus_int64 U16
    (ColorOps.plus_int64 U16 (mkColor 3 200 250 9) (-3)) (-3)
  = mkColor 3 200 250 9
  /\ ColorOps.div U16 (ColorOps.mul U16 (mkColor 3 200 250 9) 7) 7
     = mkColor 3 200 250 9.
Proof.
  split.
  - apply (scalar_round_trips U16 (mkColor 3 200 250 9) (-3) eq_refl);
      repeat split; now vm_compute.
  - apply (scalar_round_trips U16 (mkColor 3 200 250 9) 7 eq_refl);
      repeat split; now vm_compute.
Defined.

(** X3.  [operator*=] cuts every product at [max]: the result is a colour of [T]
    whose channel is the product when that fits and [max] otherwise. *)
Theorem multiplication_saturates (T : SampleType) (c : Color) (k : Z) :
  is_floating_point T = false -> ColorOps.in_range T c -> 0 <= k ->
  ColorOps.mul T c k
  = mkColor (Z.min (numeric_limits_max T) (_red c * k))
            (Z.min (numeric_limits_max T) (_green c * k))
            (Z.min (numeric_limits_max T) (_blue c * k)) (_alpha c)
  /\ ColorOps.in_range T (ColorOps.mul T c k).
Proof.
  intros HT (Hr & Hg & Hb) Hk.
  pose proof (numeric_limits_max_unsigned T HT) as Emax.
  assert (Hid : forall z, 0 <= z ->
            static_cast T (Z.min (numeric_limits_max T) (z * k))
            = Z.min (numeric_limits_max T) (z * k)).
  { intros z Hz. apply static_cast_id. nia. }
  unfold ColorOps.mul, ColorOps.mul_assign, ColorOps.in_range.
  cbn [_red _green _blue _alpha]. rewrite !Hid by lia.
  repeat split; try reflexivity; nia.
Qed.

Lemma multiplication_saturates_witness :
  ColorOps.mul U8 (mkColor 3 100 200 255) 2
  = mkColor (Z.min (numeric_limits_max U8) (3 * 2))
            (Z.min (numeric_limits_max U8) (100 * 2))
            (Z.min (numeric_limits_max U8) (200 * 2)) 255
  /\ ColorOps.in_range U8 (ColorOps.mul U8 (mkColor 3 100 200 255) 2).
Proof.
  apply (multiplication_saturates U8 (mkColor 3 100 200 255) 2);
    [reflexivity | repeat split; now vm_compute | lia].
Defined.

(** ** Construction, [Plot] and [Get] *)


Lemma Depth_abs (T : SampleType) (bd : BitmapData T) :
  Z.abs (Depth bd) = sizeof T.
Proof. unfold Depth. destruct T; reflexivity. Qed.

Lemma sizeof_pos (T : SampleType) : 0 < sizeof T.
Proof. destruct T; reflexivity. Qed.

(** [Size()] counts [sizeof(T)] bytes for each sample. *)
Lemma Size_samples (T : SampleType) (bd : BitmapData T) :
  Size bd = _height bd * _width bd * _channels bd * sizeof T.
Proof.
  unfold Size, Stride, BytesPerPixel, Height. rewrite Depth_abs. ring.
Qed.



(** X5.  [Plot] outside the canvas changes nothing and reports success, whatever
    the colour; inside the canvas, with a colour it accepts, the pixel reads
    back as the colour stored (gray on one channel, opaque without alpha
    channel) and every other pixel reads as before. *)
Theorem Plot_then_Get `{FloatOps} (T : SampleType) (bd : BitmapData T)
    (x y : Z) (color : Color) :
  well_formed bd ->
  (x < 0 \/ y < 0 \/ _width bd <= x \/ _height bd <= y ->
   Plot bd x y color = (bd, inr true))
  /\ (0 <= x < _width bd -> 0 <= y < _height bd ->
      _alphaIndex bd <> -1 \/ _alpha color = numeric_limits_max T ->
      snd (Plot bd x y color) = inr true
      /\ well_formed (fst (Plot bd x y color))
      /\ Get (fst (Plot bd x y color)) x y = stored bd color
      /\ forall x' y' : Z,
           0 <= x' < _width bd -> (x, y) <> (x', y') ->
           Get (fst (Plot bd x y color)) x' y' = Get bd x' y').
Proof.
  intros Hwf. split.
  - intros Hout. unfold Plot, Width, Height.
    assert (Ht : (x <? 0) || (y <? 0) || (x >=? _width bd)
                 || (y >=? _height bd) = true) by lia.
    now rewrite Ht.
  - intros Hx Hy Ha. split; [now apply Plot_returns |].
    split; [now apply Plot_well_formed |].
    split; [now apply Plot_Get_same |].
    intros x' y' Hx' Hne. now apply Plot_Get_other.
Qed.

Lemma Plot_then_Get_witness :
  let bd : BitmapData U8 :=
    mkBitmapData 2 1 3 [1; 2; 3; 4; 5; 6] (-1) (-1) 0 1 2 0 255 in
  @Plot U8 exact_float_ops bd 2 0 (mkColor 9 9 9 0) = (bd, inr true)
  /\ Get (fst (@Plot U8 exact_float_ops bd 1 0 (mkColor 7 8 9 255))) 1 0
     = @stored exact_float_ops U8 bd (mkColor 7 8 9 255).
Proof.
  cbv zeta.
  destruct (@Plot_then_Get exact_float_ops U8
              (mkBitmapData 2 1 3 [1; 2; 3; 4; 5; 6] (-1) (-1) 0 1 2 0 255)
              2 0 (mkColor 9 9 9 0)) as [Hout _].
  { repeat split; try (now vm_compute). right. left. repeat split. }
  destruct (@Plot_then_Get exact_float_ops U8
              (mkBitmapData 2 1 3 [1; 2; 3; 4; 5; 6] (-1) (-1) 0 1 2 0 255)
              1 0 (mkColor 7 8 9 255)) as [_ Hin].
  { repeat split; try (now vm_compute). right. left. repeat split. }
  split.
  - apply Hout. right. right. left. now vm_compute.
  - apply Hin; [now vm_compute | now vm_compute | right; reflexivity].
Defined.

(** ** Copying *)

Section Copying.
Context {T : SampleType}.

Lemma neqb_same_type (a b : BitmapData T) :
  neqb a b = false
  <-> _width a = _width b /\ _height a = _height b
      /\ _channels a = _channels b.
Proof.
  unfold neqb, eqb, Width, Height, Channels, Depth.
  rewrite negb_false_iff, !andb_true_iff, !Z.eqb_eq. tauto.
Qed.

Lemma memcpy_whole (dst src : list Z) (n : Z) :
  0 <= n -> Z.of_nat (length src) = n -> Z.of_nat (length dst) = n ->
  memcpy dst src n = src.
Proof.
  intros Hn Hs Hd. unfold memcpy.
  rewrite take_ge, drop_ge by lia. apply app_nil_r.
Qed.

Lemma Size_in_samples (bd : BitmapData T) :
  Size bd / sizeof T = _width bd * _height bd * _channels bd.
Proof.
  rewrite Size_samples. pose proof (sizeof_pos T).
  rewrite Z.div_mul by lia. ring.
Qed.

Lemma Copy_same_geometry (src dst : BitmapData T) :
  well_formed src ->
  _width src = _width dst -> _height src = _height dst ->
  _channels src = _channels dst ->
  Z.of_nat (length (_buffer dst)) = _width dst * _height dst * _channels dst ->
  Copy src dst = (src, inr tt).
Proof.
  intros (Hw & Hh & Hl & Hlen) Ew Eh Ec Hd. unfold Copy.
  assert (Hn : neqb src dst = false) by (apply neqb_same_type; auto).
  rewrite Hn, Size_in_samples.
  assert (Hc : 0 <= _channels src) by (destruct Hl as [L | [L | L]]; lia).
  rewrite memcpy_whole; [| nia | exact Hlen | congruence].
  rewrite <- Ew, <- Eh, <- Ec. destruct src; reflexivity.
Qed.

End Copying.

(** X6.  [Copy] throws "different size" exactly when width, height or channel
    count differ, and then leaves the destination as it was; between two
    containers that agree and hold their full buffers it makes the
    destination equal to the source: samples, channel indices and
    brightness window. *)
Theorem Copy_copies (T : SampleType) (src dst : BitmapData T) :
  (snd (Copy src dst) = inl DifferentSize
   <-> ~ (_width src = _width dst /\ _height src = _height dst
          /\ _channels src = _channels dst))
  /\ (snd (Copy src dst) = inl DifferentSize -> fst (Copy src dst) = dst)
  /\ (well_formed src -> well_formed dst ->
      _width src = _width dst -> _height src = _height dst ->
      _channels src = _channels dst ->
      Copy src dst = (src, inr tt)).
Proof.
  pose proof (neqb_same_type src dst) as Hn.
  split; [| split].
  - unfold Copy. destruct (neqb src dst); simpl; split; intros H.
    + intros Hg. apply Hn in Hg. discriminate.
    + reflexivity.
    + discriminate.
    + exfalso. apply H, Hn. reflexivity.
  - unfold Copy. destruct (neqb src dst); simpl; [reflexivity | discriminate].
  - intros Hs (_ & _ & _ & Hd) Ew Eh Ec. now apply Copy_same_geometry.
Qed.

Lemma Copy_copies_witness :
  let src : BitmapData U8 :=
    mkBitmapData 2 1 1 [7; 9] 0 (-1) 0 0 0 3 200 in
  let dst : BitmapData U8 :=
    mkBitmapData 2 1 1 [0; 0] 0 (-1) 0 0 0 0 255 in
  Copy src dst = (src, inr tt).
Proof.
  cbv zeta.
  destruct (Copy_copies U8 (mkBitmapData 2 1 1 [7; 9] 0 (-1) 0 0 0 3 200)
              (mkBitmapData 2 1 1 [0; 0] 0 (-1) 0 0 0 0 255))
    as (_ & _ & Hcopy).
  apply Hcopy; try reflexivity.
  - repeat split; try (now vm_compute). left. repeat split.
  - repeat split; try (now vm_compute). left. repeat split.
Defined.

(** X7.  Copy construction from a well-formed container, and copy assignment
    of it to any target whose buffer has the size its geometry prescribes
    (every constructed container, the default-constructed one too), give a
    container equal to the source in every member. *)
Theorem assignment_is_a_deep_copy (T : SampleType)
    (this src : BitmapData T) :
  well_formed src -> sized this ->
  assign this src = (src, inr tt) /\ copy_construct src = inr src.
Proof.
  intros Hs Ht.
  assert (Hcopy : forall d : BitmapData T,
             Init (members (_width src) (_height src) (_channels src)
                     (stable_reference_buffer
                        (_width src * _height src * _channels src)))
             = inr d ->
             Copy src d = (src, inr tt)).
  { intros d Hd. destruct Hs as (Hw & Hh & Hl & Hlen).
    pose proof (create_well_formed _ _ _ d Hw Hh Hd) as (_ & _ & _ & Hdl).
    apply Init_members_layout in Hd as (_ & Ew & Eh & Ec & _).
    apply Copy_same_geometry; try congruence. repeat split; assumption. }
  split.
  - unfold assign. destruct (neqb src this) eqn:Hn.
    + unfold Width, Height, Channels.
      destruct Hs as (Hw & Hh & Hl & Hlen).
      assert (Hok : exists d : BitmapData T,
                 Init (mkBitmapData (_width src) (_height src) (_channels src)
                         (stable_reference_buffer
                            (_width src * _height src * _channels src))
                         (_grayIndex this) (_alphaIndex this) (_redIndex this)
                         (_greenIndex this) (_blueIndex this)
                         (_minDisplayedBrightness this)
                         (_maxDisplayedBrightness this)) = inr d
                 /\ _width d = _width src /\ _height d = _height src
                 /\ _channels d = _channels src
                 /\ _buffer d
                    = stable_reference_buffer
                        (_width src * _height src * _channels src)).
      { unfold Init; cbn [_channels _width _height _buffer].
        destruct Hl as [L | [L | L]]; destruct L as (-> & _);
          cbn [Z.eqb Pos.eqb]; eexists; repeat split. }
      destruct Hok as (d & -> & Ew & Eh & Ec & Eb).
      apply Copy_same_geometry; try congruence; [repeat split; assumption |].
      assert (Hc : 0 <= _channels src) by (destruct Hl as [L | [L | L]]; lia).
      unfold stable_reference_buffer in Eb.
      rewrite Eb, length_replicate, Ew, Eh, Ec, Z2Nat.id; [reflexivity | nia].
    + apply neqb_same_type in Hn as (Ew & Eh & Ec).
      now apply Copy_same_geometry.
  - unfold copy_construct, create, Width, Height, Channels.
    destruct (Init (members (_width src) (_height src) (_channels src) _))
      as [e | d] eqn:Hd.
    + exfalso. destruct Hs as (_ & _ & Hl & _).
      destruct (Init_members_ok (T := T) (_width src) (_height src)
                  (_channels src)
                  (stable_reference_buffer
                     (_width src * _height src * _channels src)))
        as [d' Hd'].
      { destruct Hl as [L | [L | L]]; lia. }
      congruence.
    + rewrite (Hcopy d eq_refl). reflexivity.
Qed.

Lemma assignment_is_a_deep_copy_witness :
  let src : BitmapData U8 :=
    mkBitmapData 1 2 1 [7; 9] 0 (-1) 0 0 0 3 200 in
  assign empty_container src = (src, inr tt) /\ copy_construct src = inr src.
Proof.
  cbv zeta.
  apply (assignment_is_a_deep_copy U8 empty_container
           (mkBitmapData 1 2 1 [7; 9] 0 (-1) 0 0 0 3 200)).
  - repeat split; try (now vm_compute). left. repeat split.
  - reflexivity.
Defined.

(** X8.  A default-constructed container has channel count 0, which [Init]
    refuses: copy-constructing it throws, and assigning it to a container of
    another geometry throws after that container has given up its geometry
    and buffer. *)
Theorem copying_an_empty_container_throws (T : SampleType)
    (this : BitmapData T) :
  copy_construct (@empty_container T) = inl (UnsupportedChannels 0)
  /\ (~ (_width this = 0 /\ _height this = 0 /\ _channels this = 0) ->
      snd (assign this empty_container) = inl (UnsupportedChannels 0)
      /\ _width (fst (assign this empty_container)) = 0
      /\ _height (fst (assign this empty_container)) = 0
      /\ _channels (fst (assign this empty_container)) = 0
      /\ _buffer (fst (assign this empty_container)) = []).
Proof.
  split; [reflexivity |].
  intros Hg. unfold assign.
  assert (Hn : neqb (@empty_container T) this = true).
  { destruct (neqb empty_container this) eqn:E; [reflexivity |].
    apply neqb_same_type in E. simpl in E. exfalso. apply Hg.
    intuition congruence. }
  rewrite Hn. simpl. repeat split.
Qed.

Lemma copying_an_empty_container_throws_witness :
  let this : BitmapData U8 :=
    mkBitmapData 2 1 1 [7; 9] 0 (-1) 0 0 0 3 200 in
  snd (assign this empty_container) = inl (UnsupportedChannels 0)
  /\ _buffer (fst (assign this empty_container)) = [].
Proof.
  cbv zeta.
  destruct (copying_an_empty_container_throws U8
              (mkBitmapData 2 1 1 [7; 9] 0 (-1) 0 0 0 3 200))
    as (_ & Hassign).
  destruct Hassign as (Hthrow & _ & _ & _ & Hbuf).
  - intros (Hw & _). discriminate Hw.
  - split; assumption.
Defined.

(** ** Painting: [Set] and the coloured [Draw] *)

Section Painting.
Context `{FloatOps} {T : SampleType}.
Variable bd : BitmapData T.
Variable color : Color.
Hypothesis bd_wf : well_formed bd.
Hypothesis storable :
  _alphaIndex bd <> -1 \/ _alpha color = numeric_limits_max T.

Local Abbreviation repainted := (repainted bd).

Lemma repaint_step (b : BitmapData T) (x y : Z) :
  repainted b -> 0 <= x < _width bd -> 0 <= y < _height bd ->
  snd (Plot b x y color) = inr true
  /\ repainted (fst (Plot b x y color))
  /\ Get (fst (Plot b x y color)) x y = stored bd color
  /\ forall x' y', 0 <= x' < _width bd -> (x, y) <> (x', y') ->
       Get (fst (Plot b x y color)) x' y' = Get b x' y'.
Proof.
  intros (Hwf & Ew & Eh & Ec & Ea) Hx Hy.
  destruct (Plot_geometry b x y color) as (Gw & Gh & Gc & _ & Ga & _).
  split; [apply Plot_returns; rewrite Ea; exact storable |].
  split.
  { split; [now apply Plot_well_formed |]. repeat split; congruence. }
  split.
  - rewrite Plot_Get_same by (rewrite ?Ew, ?Eh; assumption).
    unfold stored. now rewrite Ec, Ea.
  - intros x' y' Hx' Hne.
    apply Plot_Get_other; rewrite ?Ew, ?Eh; assumption.
Qed.

Lemma paint_row (n : nat) :
  forall (i j : Z) (b : BitmapData T),
    0 <= i -> i + Z.of_nat n <= _width bd -> 0 <= j < _height bd ->
    repainted b ->
    exists b',
      foreach (seqZ i (Z.of_nat n))
        (fun x b => discard (Plot b x j color)) b = (b', inr tt)
      /\ repainted b'
      /\ forall x' y', 0 <= x' < _width bd -> 0 <= y' < _height bd ->
           (y' = j /\ i <= x' < i + Z.of_nat n ->
            Get b' x' y' = stored bd color)
           /\ (~ (y' = j /\ i <= x' < i + Z.of_nat n) ->
               Get b' x' y' = Get b x' y').
Proof.
  induction n as [| n IH]; intros i j b Hi Hn Hj Hb.
  - exists b. split; [reflexivity |]. split; [exact Hb |].
    intros x' y' _ _. split; [lia | reflexivity].
  - rewrite seqZ_cons by lia. cbn [foreach].
    destruct (repaint_step b i j Hb ltac:(lia) Hj)
      as (Hret & Hb1 & Hsame & Hoth).
    destruct (Plot b i j color) as [b1 r] eqn:Ep.
    simpl in Hret, Hb1, Hsame, Hoth. subst r. cbn [discard].
    destruct (IH (i + 1) j b1 ltac:(lia) ltac:(lia) Hj Hb1)
      as (b2 & E2 & Hb2 & Hpix).
    exists b2. split.
    + replace (Z.succ i) with (i + 1) by lia.
      replace (Z.pred (Z.of_nat (S n))) with (Z.of_nat n) by lia. exact E2.
    + split; [exact Hb2 |]. intros x' y' Hx' Hy'.
      destruct (Hpix x' y' Hx' Hy') as [Hyes Hno].
      destruct (decide ((i, j) = (x', y'))) as [[= <- <-] | Hne].
      * split; [intros _ | intros Hn'; lia].
        rewrite Hno by lia. exact Hsame.
      * assert (Hxy : ~ (x' = i /\ y' = j))
          by (intros [-> ->]; now apply Hne).
        split.
        -- intros Hin. apply Hyes. lia.
        -- intros Hout. rewrite Hno by lia. now apply Hoth.
Qed.

Lemma paint_rows (n : nat) :
  forall (j : Z) (b : BitmapData T),
    0 <= j -> j + Z.of_nat n <= _height bd -> repainted b ->
    exists b',
      foreach (seqZ j (Z.of_nat n))
        (fun y => foreach (seqZ 0 (_width bd))
           (fun x b => discard (Plot b x y color))) b = (b', inr tt)
      /\ repainted b'
      /\ forall x' y', 0 <= x' < _width bd -> 0 <= y' < _height bd ->
           (j <= y' < j + Z.of_nat n -> Get b' x' y' = stored bd color)
           /\ (~ j <= y' < j + Z.of_nat n -> Get b' x' y' = Get b x' y').
Proof.
  induction n as [| n IH]; intros j b Hj Hn Hb.
  - exists b. split; [reflexivity |]. split; [exact Hb |].
    intros x' y' _ _. split; [lia | reflexivity].
  - rewrite seqZ_cons by lia. cbn [foreach].
    assert (Hw : 0 <= _width bd) by (destruct bd_wf; assumption).
    destruct (paint_row (Z.to_nat (_width bd)) 0 j b ltac:(lia) ltac:(lia)
                ltac:(lia) Hb) as (b1 & E1 & Hb1 & Hrow).
    rewrite Z2Nat.id in E1, Hrow by exact Hw. rewrite E1.
    destruct (IH (j + 1) b1 ltac:(lia) ltac:(lia) Hb1)
      as (b2 & E2 & Hb2 & Hpix).
    exists b2. split.
    + replace (Z.succ j) with (j + 1) by lia.
      replace (Z.pred (Z.of_nat (S n))) with (Z.of_nat n) by lia. exact E2.
    + split; [exact Hb2 |]. intros x' y' Hx' Hy'.
      destruct (Hpix x' y' Hx' Hy') as [Hyes Hno].
      destruct (Hrow x' y' Hx' Hy') as [Ryes Rno].
      split.
      * intros Hin. destruct (Z.eq_dec y' j) as [-> | Ny].
        -- rewrite Hno by lia. apply Ryes. lia.
        -- apply Hyes. lia.
      * intros Hout. rewrite Hno by lia. apply Rno. lia.
Qed.


Lemma repainted_refl : repainted bd.
Proof. repeat split; try reflexivity; apply bd_wf. Qed.

End Painting.

(** X9.  [Set] with a colour the container accepts (any colour when there is
    an alpha channel, a colour of alpha [max] otherwise) paints every pixel:
    afterwards each pixel of the canvas reads back as the colour stored, and
    the geometry is unchanged. *)
Theorem Set_paints_every_pixel `{FloatOps} (T : SampleType)
    (bd : BitmapData T) (color : Color) :
  well_formed bd ->
  _alphaIndex bd <> -1 \/ _alpha color = numeric_limits_max T ->
  exists bd' : BitmapData T,
    Set_color bd color = (bd', inr tt)
    /\ well_formed bd' /\ eqb bd' bd = true
    /\ forall x y : Z, 0 <= x < _width bd -> 0 <= y < _height bd ->
         Get bd' x y = stored bd color.
Proof.
  intros Hwf Hst. unfold Set_color, Width, Height.
  assert (Hh : 0 <= _height bd) by (destruct Hwf as (_ & ? & _); assumption).
  destruct (paint_rows bd color Hwf Hst (Z.to_nat (_height bd)) 0 bd
              ltac:(lia) ltac:(lia) (repainted_refl bd Hwf))
    as (bd' & E & (Hwf' & Ew & Eh & Ec & Ea) & Hpix).
  rewrite Z2Nat.id in E, Hpix by exact Hh.
  exists bd'. split; [exact E |]. split; [exact Hwf' |]. split.
  - unfold eqb, Width, Height, Channels, Depth.
    rewrite Ew, Eh, Ec, !Z.eqb_refl. reflexivity.
  - intros x y Hx Hy. apply (Hpix x y Hx Hy). lia.
Qed.

Lemma Set_paints_every_pixel_witness :
  let bd : BitmapData U8 :=
    mkBitmapData 2 1 3 [1; 2; 3; 4; 5; 6] (-1) (-1) 0 1 2 0 255 in
  exists bd' : BitmapData U8,
    @Set_color U8 exact_float_ops bd (mkColor 7 8 9 255) = (bd', inr tt)
    /\ well_formed bd' /\ eqb bd' bd = true
    /\ forall x y : Z, 0 <= x < _width bd -> 0 <= y < _height bd ->
         Get bd' x y = @stored exact_float_ops U8 bd (mkColor 7 8 9 255).
Proof.
  cbv zeta.
  apply (@Set_paints_every_pixel exact_float_ops U8
           (mkBitmapData 2 1 3 [1; 2; 3; 4; 5; 6] (-1) (-1) 0 1 2 0 255)
           (mkColor 7 8 9 255)).
  - repeat split; try (now vm_compute). right. left. repeat split.
  - right. reflexivity.
Defined.



(** ** [ContainsColors] *)

Section Colours.
Context {T : SampleType}.
Variable bd : BitmapData T.

Lemma samples_differ_spec (d : Z) :
  samples_differ bd d = true
  <-> exists k, 1 <= k < _channels bd
                /\ load (_buffer bd) (d + k) <> load (_buffer bd) d.
Proof.
  unfold samples_differ. rewrite existsb_exists. split.
  - intros (k & Hk & Hne). exists k.
    apply list_elem_of_In, elem_of_seqZ in Hk.
    apply negb_true_iff, Z.eqb_neq in Hne. split; [lia | congruence].
  - intros (k & Hk & Hne). exists k. split.
    + apply list_elem_of_In, elem_of_seqZ. lia.
    + apply negb_true_iff, Z.eqb_neq. congruence.
Qed.

Lemma ContainsColors_row_spec (columns : list Z) :
  forall d : Z,
    (fst (ContainsColors_row bd columns d) = true
     <-> exists m, 0 <= m < Z.of_nat (length columns)
                   /\ samples_differ bd (d + m * _channels bd) = true)
    /\ (fst (ContainsColors_row bd columns d) = false ->
        snd (ContainsColors_row bd columns d)
        = d + Z.of_nat (length columns) * _channels bd).
Proof.
  induction columns as [| i rest IH]; intros d.
  - simpl. split; [split; [discriminate | intros (m & Hm & _); lia] |].
    intros _. lia.
  - cbn [ContainsColors_row length].
    destruct (samples_differ bd d) eqn:Ed.
    + simpl. split; [| discriminate]. split; [| reflexivity].
      intros _. exists 0. split; [lia |].
      now replace (d + 0 * _channels bd) with d by lia.
    + destruct (IH (d + _channels bd)) as [Hiff Hend]. split.
      * rewrite Hiff. split.
        -- intros (m & Hm & Hs). exists (m + 1). split; [lia |].
           now replace (d + (m + 1) * _channels bd)
             with (d + _channels bd + m * _channels bd) by lia.
        -- intros (m & Hm & Hs).
           destruct (Z.eq_dec m 0) as [-> | Nm].
           { replace (d + 0 * _channels bd) with d in Hs by lia. congruence. }
           exists (m - 1). split; [lia |].
           now replace (d + _channels bd + (m - 1) * _channels bd)
             with (d + m * _channels bd) by lia.
      * intros Hf. rewrite (Hend Hf). lia.
Qed.

Lemma ContainsColors_rows_spec (rows : list Z) :
  forall d : Z,
    let w := Z.of_nat (length (seqZ 0 (_width bd))) in
    ContainsColors_rows bd rows d = true
    <-> exists r m, 0 <= r < Z.of_nat (length rows) /\ 0 <= m < w
                    /\ samples_differ bd (d + (r * w + m) * _channels bd)
                       = true.
Proof.
  induction rows as [| j rest IH]; intros d w.
  - simpl. split; [discriminate | intros (r & m & Hr & _); lia].
  - cbn [ContainsColors_rows length].
    destruct (ContainsColors_row_spec (seqZ 0 (_width bd)) d) as [Hiff Hend].
    fold w in Hiff, Hend.
    destruct (ContainsColors_row bd (seqZ 0 (_width bd)) d) as [found d'].
    cbn [fst snd] in Hiff, Hend. destruct found.
    + split; [| reflexivity]. intros _.
      destruct (proj1 Hiff eq_refl) as (m & Hm & Hs).
      exists 0, m. split; [lia |]. split; [exact Hm |].
      now replace ((0 * w + m) * _channels bd) with (m * _channels bd) by lia.
    + rewrite (Hend eq_refl), IH. fold w. split.
      * intros (r & m & Hr & Hm & Hs). exists (r + 1), m.
        split; [lia |]. split; [exact Hm |].
        now replace (d + ((r + 1) * w + m) * _channels bd)
          with (d + w * _channels bd + (r * w + m) * _channels bd) by lia.
      * intros (r & m & Hr & Hm & Hs).
        destruct (Z.eq_dec r 0) as [-> | Nr].
        { assert (Hex : exists m, 0 <= m < w
                          /\ samples_differ bd (d + m * _channels bd) = true).
          { exists m. split; [exact Hm |].
            now replace (m * _channels bd)
              with ((0 * w + m) * _channels bd) by lia. }
          apply Hiff in Hex. discriminate. }
        exists (r - 1), m. split; [lia |]. split; [exact Hm |].
        now replace (d + w * _channels bd + ((r - 1) * w + m) * _channels bd)
          with (d + (r * w + m) * _channels bd) by lia.
Qed.

(** [ContainsColors] in terms of the buffer: some sample of some pixel
    differs from the first sample of that pixel. *)
Lemma ContainsColors_samples :
  ContainsColors bd = true
  <-> exists x y k,
        0 <= x < _width bd /\ 0 <= y < _height bd /\ 1 <= k < _channels bd
        /\ load (_buffer bd) (pixel bd x y + k)
           <> load (_buffer bd) (pixel bd x y).
Proof.
  unfold ContainsColors, pixel.
  destruct (Z.eqb_spec (_channels bd) 1) as [E1 | N1].
  { split; [discriminate | intros (x & y & k & _ & _ & Hk & _); lia]. }
  rewrite ContainsColors_rows_spec. cbv zeta.
  rewrite !length_seqZ. split.
  - intros (r & m & Hr & Hm & Hs).
    apply samples_differ_spec in Hs as (k & Hk & Hne).
    exists m, r, k. rewrite Z2Nat.id in Hm, Hne by lia.
    rewrite Z.add_0_l in Hne. repeat split; try lia; assumption.
  - intros (x & y & k & Hx & Hy & Hk & Hne).
    exists y, x. rewrite !Z2Nat.id by lia. repeat split; try lia.
    apply samples_differ_spec. exists k. split; [exact Hk |].
    now rewrite Z.add_0_l.
Qed.

End Colours.

(** X11.  [ContainsColors] is false on every one-channel container, and on a
    well-formed container of three or four channels it is true exactly when
    some pixel of the canvas has samples that are not all equal; on four
    channels alpha is one of the samples compared. *)
Theorem ContainsColors_finds_uneven_pixels (T : SampleType)
    (bd : BitmapData T) :
  (_channels bd = 1 -> ContainsColors bd = false)
  /\ (well_formed bd ->
      (ContainsColors bd = true
       <-> exists x y : Z,
             0 <= x < _width bd /\ 0 <= y < _height bd
             /\ uneven bd (Get bd x y))).
Proof.
  split.
  - intros E. unfold ContainsColors. now rewrite E.
  - intros (_ & _ & Hl & _). rewrite ContainsColors_samples. unfold uneven.
    destruct Hl as [L | [L | L]];
      destruct L as (Ec & Eg & Ea & Er & Egr & Eb);
      unfold Get, GetRed, GetGreen, GetBlue, GetAlpha;
      rewrite Ec, ?Ea, ?Er, ?Egr, ?Eb; cbn [Z.eqb Pos.eqb negb _red _green
                                             _blue _alpha].
    + split; [intros (x & y & k & _ & _ & Hk & _); lia |].
      intros (x & y & _ & _ & [[E _] | [E _]]); discriminate.
    + split.
      * intros (x & y & k & Hx & Hy & Hk & Hne). exists x, y.
        split; [exact Hx |]. split; [exact Hy |]. left.
        split; [reflexivity |]. intros [E1 E2].
        rewrite Z.add_0_r in *.
        assert (Hk' : k = 1 \/ k = 2) by lia.
        destruct Hk' as [-> | ->]; congruence.
      * intros (x & y & Hx & Hy & [[_ Hne] | [E _]]); [| discriminate].
        rewrite Z.add_0_r in Hne.
        destruct (Z.eq_dec (load (_buffer bd) (pixel bd x y))
                           (load (_buffer bd) (pixel bd x y + 1)))
          as [E1 | N1].
        -- exists x, y, 2. repeat split; lia.
        -- exists x, y, 1. repeat split; lia.
    + split.
      * intros (x & y & k & Hx & Hy & Hk & Hne). exists x, y.
        split; [exact Hx |]. split; [exact Hy |]. right.
        split; [reflexivity |]. intros (E1 & E2 & E3).
        rewrite Z.add_0_r in *.
        assert (Hk' : k = 1 \/ k = 2 \/ k = 3) by lia.
        destruct Hk' as [-> | [-> | ->]]; congruence.
      * intros (x & y & Hx & Hy & [[E _] | [_ Hne]]); [discriminate |].
        rewrite Z.add_0_r in Hne.
        destruct (Z.eq_dec (load (_buffer bd) (pixel bd x y))
                           (load (_buffer bd) (pixel bd x y + 1)))
          as [E1 | N1];
          [destruct (Z.eq_dec (load (_buffer bd) (pixel bd x y))
                              (load (_buffer bd) (pixel bd x y + 2)))
             as [E2 | N2] |].
        -- exists x, y, 3. repeat split; lia.
        -- exists x, y, 2. repeat split; lia.
        -- exists x, y, 1. repeat split; lia.
Qed.

Lemma ContainsColors_finds_uneven_pixels_witness :
  let gray : BitmapData U8 :=
    mkBitmapData 1 1 4 [255; 7; 7; 7] (-1) 0 1 2 3 0 255 in
  ContainsColors gray = true
  <-> exists x y : Z,
        0 <= x < _width gray /\ 0 <= y < _height gray
        /\ uneven gray (Get gray x y).
Proof.
  cbv zeta.
  apply (ContainsColors_finds_uneven_pixels U8
           (mkBitmapData 1 1 4 [255; 7; 7; 7] (-1) 0 1 2 3 0 255)).
  repeat split; try (now vm_compute). right. right. repeat split.
Defined.

(** ** [AbsoluteDiff] *)

Lemma fold_left_count {A B : Type} (f : A -> A) (l : list B) (a : A) :
  fold_left (fun s _ => f s) l a = Nat.iter (length l) f a.
Proof.
  revert a. induction l as [| b l IH]; intros a; [reflexivity |].
  cbn [fold_left length]. now rewrite IH, Nat.iter_succ_r.
Qed.

Lemma fold_left_count2 {A B C : Type} (f : A -> A) (rows : list B)
    (columns : list C) (a : A) :
  fold_left (fun s _ => fold_left (fun s _ => f s) columns s) rows a
  = Nat.iter (length rows * length columns) f a.
Proof.
  revert a. induction rows as [| b rows IH]; intros a; [reflexivity |].
  cbn [fold_left length]. rewrite IH, fold_left_count.
  replace (S (length rows) * length columns)%nat
    with (length rows * length columns + length columns)%nat by lia.
  now rewrite Nat.iter_add.
Qed.

Lemma load_inside (buf : list Z) (i : Z) :
  0 <= i < Z.of_nat (length buf) ->
  buf !! Z.to_nat i = Some (load buf i).
Proof.
  intros Hi. unfold load.
  destruct (Z.ltb_spec i 0) as [? | _]; [lia |].
  destruct (lookup_lt_is_Some_2 buf (Z.to_nat i)) as [v Hv]; [lia |].
  now rewrite Hv.
Qed.

Lemma load_ext (a b : list Z) :
  length a = length b ->
  (forall i, 0 <= i < Z.of_nat (length a) -> load a i = load b i) ->
  a = b.
Proof.
  intros Hlen Hload. apply (list_eq_same_length a b (length a));
    [now symmetry | reflexivity |].
  intros i x y Hi Hx Hy.
  assert (Hin : 0 <= Z.of_nat i < Z.of_nat (length a)) by lia.
  pose proof (load_inside a _ Hin) as Ha.
  assert (Hinb : 0 <= Z.of_nat i < Z.of_nat (length b)) by lia.
  pose proof (load_inside b _ Hinb) as Hb.
  rewrite Nat2Z.id in Ha, Hb. rewrite (Hload _ Hin) in Ha. congruence.
Qed.

Lemma samples_of_load (T : SampleType) (buf : list Z) (i : Z) :
  samples_of T buf -> 0 <= i < Z.of_nat (length buf) ->
  0 <= load buf i <= numeric_limits_max T.
Proof.
  intros Hall Hi. pose proof (load_inside buf i Hi) as Hl.
  unfold samples_of in Hall. rewrite Forall_lookup in Hall.
  exact (Hall _ _ Hl).
Qed.

Lemma layout_indices {T : SampleType} (a b : BitmapData T) :
  layout a -> layout b -> _channels a = _channels b ->
  _grayIndex a = _grayIndex b /\ _alphaIndex a = _alphaIndex b
  /\ _redIndex a = _redIndex b /\ _greenIndex a = _greenIndex b
  /\ _blueIndex a = _blueIndex b.
Proof.
  intros [L | [L | L]] [L' | [L' | L']] E;
    destruct L as (E1 & E2 & E3 & E4 & E5 & E6);
    destruct L' as (E1' & E2' & E3' & E4' & E5' & E6');
    try lia; repeat split; congruence.
Qed.

Lemma layout_index_bounds {T : SampleType} (a : BitmapData T) :
  layout a ->
  0 <= _redIndex a < _channels a /\ 0 <= _greenIndex a < _channels a
  /\ 0 <= _blueIndex a < _channels a
  /\ (_channels a = 1 -> _grayIndex a = 0).
Proof.
  intros [L | [L | L]]; destruct L as (E1 & E2 & E3 & E4 & E5 & E6); lia.
Qed.

Section Differences.
Context {T : SampleType}.
Variables this other : BitmapData T.

(** The value [AbsoluteDiff] writes at offset [i]. *)
Local Abbreviation written i :=
  (sample_diff T (load (_buffer this) i) (load (_buffer other) i)).

Lemma stores_written (p : Z) (Hp : 0 <= p) :
  forall (ks : list Z) (r : list Z),
    (forall k, k ∈ ks -> 0 <= k /\ p + k < Z.of_nat (length r)) ->
    let r' := fold_left (fun r k => store r (p + k) (written (p + k))) ks r in
    length r' = length r
    /\ forall i, (i - p ∈ ks -> load r' i = written i)
                 /\ (i - p ∉ ks -> load r' i = load r i).
Proof.
  induction ks as [| k ks IH]; intros r Hks; cbv zeta.
  - cbn [fold_left]. split; [reflexivity |]. intros i.
    split; [intros Hin; inversion Hin | reflexivity].
  - cbn [fold_left].
    destruct (Hks k ltac:(left)) as [Hk0 Hk1].
    destruct (IH (store r (p + k) (written (p + k)))) as [Hlen Hrd].
    { intros k' Hk'. rewrite length_store. apply Hks. now right. }
    rewrite length_store in Hlen. split; [exact Hlen |]. intros i.
    destruct (Hrd i) as [Hin Hout]. split.
    + intros Hi. destruct (decide (i - p ∈ ks)) as [Hm | Hm];
        [now apply Hin |].
      rewrite (Hout Hm). apply elem_of_cons in Hi as [Hi | Hi];
        [| contradiction].
      replace i with (p + k) by lia. apply load_store_same. lia.
    + intros Hi. rewrite not_elem_of_cons in Hi. destruct Hi as [Hne Hm].
      rewrite (Hout Hm). apply load_store_other; lia.
Qed.

Lemma AbsoluteDiff_pixel_spec (p : Z) (r : list Z) :
  0 <= p -> p + _channels this <= Z.of_nat (length r) ->
  exists r',
    AbsoluteDiff_pixel this other (p, r) = (p + _channels this, r')
    /\ length r' = length r
    /\ forall i, (p <= i < p + _channels this -> load r' i = written i)
                 /\ (~ p <= i < p + _channels this -> load r' i = load r i).
Proof.
  intros Hp Hfit. unfold AbsoluteDiff_pixel. eexists. split; [reflexivity |].
  destruct (stores_written p Hp (seqZ 0 (_channels this)) r) as [Hlen Hrd].
  { intros k Hk. apply elem_of_seqZ in Hk. lia. }
  split; [exact Hlen |]. intros i. destruct (Hrd i) as [Hin Hout]. split.
  - intros Hi. apply Hin, elem_of_seqZ. lia.
  - intros Hi. apply Hout. rewrite elem_of_seqZ. lia.
Qed.

Lemma AbsoluteDiff_pixels (r0 : list Z) (Hc : 0 <= _channels this) :
  forall n : nat,
    Z.of_nat n * _channels this <= Z.of_nat (length r0) ->
    exists r,
      Nat.iter n (AbsoluteDiff_pixel this other) (0, r0)
      = (Z.of_nat n * _channels this, r)
      /\ length r = length r0
      /\ forall i,
           (0 <= i < Z.of_nat n * _channels this -> load r i = written i)
           /\ (~ 0 <= i < Z.of_nat n * _channels this ->
               load r i = load r0 i).
Proof.
  induction n as [| n IH]; intros Hfit.
  - exists r0. split; [reflexivity |]. split; [reflexivity |].
    intros i. split; [lia | reflexivity].
  - destruct IH as (r & Hit & Hlen & Hrd); [lia |].
    rewrite Nat.iter_succ, Hit.
    destruct (AbsoluteDiff_pixel_spec (Z.of_nat n * _channels this) r)
      as (r' & Hpx & Hlen' & Hrd'); [lia | lia |].
    exists r'. split; [rewrite Hpx; f_equal; lia |].
    split; [congruence |]. intros i.
    destruct (Hrd i) as [Hin Hout], (Hrd' i) as [Hin' Hout']. split.
    + intros Hi.
      destruct (Z.lt_ge_cases i (Z.of_nat n * _channels this)) as [Hlt | Hge].
      * rewrite Hout' by lia. apply Hin. lia.
      * apply Hin'. lia.
    + intros Hi. rewrite Hout' by lia. apply Hout. lia.
Qed.

(** The result of [AbsoluteDiff] on two well-formed containers of one
    geometry, sample by sample. *)
Lemma AbsoluteDiff_samples :
  well_formed this -> well_formed other -> same_geometry this other ->
  exists res : BitmapData T,
    AbsoluteDiff this other = inr res
    /\ well_formed res /\ same_geometry res this
    /\ _minDisplayedBrightness res = 0
    /\ _maxDisplayedBrightness res = numeric_limits_max T
    /\ forall i, 0 <= i < Z.of_nat (length (_buffer this)) ->
                 load (_buffer res) i = written i.
Proof.
  intros (Hw & Hh & Hl & Hlen) (_ & _ & _ & Hlen') (Ew & Eh & Ec).
  unfold AbsoluteDiff, Width, Height, Channels.
  rewrite <- Ew, <- Eh, <- Ec, !Z.eqb_refl. cbn [negb orb].
  assert (Hch : _channels this = 1 \/ _channels this = 3
                \/ _channels this = 4).
  { destruct Hl as [L | [L | L]]; destruct L as (E & _); lia. }
  unfold create, stable_reference_buffer.
  destruct (@Init_members_ok T (_width this) (_height this) (_channels this)
              (replicate
                 (Z.to_nat (_width this * _height this * _channels this)) 0)
              Hch) as [fresh Hfresh].
  rewrite Hfresh.
  destruct (@Init_members_layout _ _ _ _ _ _ Hfresh)
    as (Lf & Fw & Fh & Fc & Fb & Fmin & Fmax).
  rewrite fold_left_count2, !length_seqZ, Fb.
  set (zero := replicate _ 0).
  assert (Hz : Z.of_nat (length zero)
               = _width this * _height this * _channels this).
  { unfold zero. rewrite length_replicate. lia. }
  destruct (AbsoluteDiff_pixels zero ltac:(lia)
              (Z.to_nat (_height this) * Z.to_nat (_width this))%nat)
    as (r & Hit & Hr & Hrd).
  { rewrite Hz, Nat2Z.inj_mul, !Z2Nat.id by lia. lia. }
  rewrite Hit. exists (set_buffer fresh r). split; [reflexivity |].
  split.
  { unfold well_formed.
    cbn [set_buffer _width _height _channels _buffer].
    split; [lia |]. split; [lia |]. split; [exact Lf |].
    rewrite Hr, Hz, Fw, Fh, Fc. reflexivity. }
  split; [repeat split; assumption |].
  repeat (split; [assumption |]).
  intros i Hi. cbn [set_buffer _buffer]. apply Hrd.
  rewrite Nat2Z.inj_mul, !Z2Nat.id by lia. rewrite Hlen in Hi. lia.
Qed.

End Differences.

Lemma sample_diff_small (T : SampleType) (a b : Z) :
  is_floating_point T = false -> sizeof T <= 4 ->
  0 <= a <= numeric_limits_max T -> 0 <= b <= numeric_limits_max T ->
  sample_diff T a b = Z.abs (a - b).
Proof.
  intros Hf Hs Ha Hb. unfold sample_diff.
  rewrite (numeric_limits_max_unsigned T Hf) in *.
  assert (Hbits : 2 ^ bits T <= 2 ^ 32).
  { apply Z.pow_le_mono_r; unfold bits; lia. }
  change (2 ^ 32) with 4294967296 in Hbits.
  pose proof (bits_pos T) as H0.
  assert (Hsmall : forall z, 0 <= z <= 2 ^ bits T - 1 -> to_int64 z = z).
  { intros z Hz. apply to_int64_small.
    change (2 ^ 63) with 9223372036854775808. lia. }
  rewrite (Hsmall a Ha), (Hsmall b Hb), (Hsmall (2 ^ bits T - 1)) by lia.
  rewrite Z.max_r, Z.min_r by lia. apply static_cast_id. lia.
Qed.

Lemma sample_diff_u64 (a b : Z) :
  sample_diff U64 a b = 2 ^ 64 - 1.
Proof.
  unfold sample_diff.
  change (to_int64 (numeric_limits_max U64)) with (-1).
  rewrite Z.min_l by lia. reflexivity.
Qed.

Lemma sample_diff_sym (T : SampleType) (a b : Z) :
  sample_diff T a b = sample_diff T b a.
Proof.
  unfold sample_diff.
  now replace (to_int64 b - to_int64 a)
    with (- (to_int64 a - to_int64 b)) by lia; rewrite Z.abs_opp.
Qed.

(** X12.  [AbsoluteDiff] throws exactly when the geometry differs.  On two
    well-formed containers of one geometry holding samples of an unsigned
    type of at most 32 bits it returns a fresh well-formed container of that
    geometry with the default display window, whose every sample is the
    distance of the two operands' samples; read through [Get], each of red,
    green and blue is the distance of the operands' components. *)
Theorem AbsoluteDiff_is_the_distance (T : SampleType)
    (this other : BitmapData T) :
  is_floating_point T = false -> sizeof T <= 4 ->
  well_formed this -> well_formed other ->
  samples_of T (_buffer this) -> samples_of T (_buffer other) ->
  (~ same_geometry this other <-> AbsoluteDiff this other = inl DifferentGeometry)
  /\ (same_geometry this other ->
      exists res : BitmapData T,
        AbsoluteDiff this other = inr res
        /\ well_formed res /\ same_geometry res this
        /\ _minDisplayedBrightness res = 0
        /\ _maxDisplayedBrightness res = numeric_limits_max T
        /\ (forall i, 0 <= i < Z.of_nat (length (_buffer this)) ->
              load (_buffer res) i
              = Z.abs (load (_buffer this) i - load (_buffer other) i))
        /\ forall x y, 0 <= x < _width this -> 0 <= y < _height this ->
             let d := Get res x y in
             let a := Get this x y in
             let b := Get other x y in
             _red d = Z.abs (_red a - _red b)
             /\ _green d = Z.abs (_green a - _green b)
             /\ _blue d = Z.abs (_blue a - _blue b)).
Proof.
  intros Hf Hs Hwf Hwf' Ha Hb.
  assert (Hdec : same_geometry this other
                 \/ ~ same_geometry this other).
  { unfold same_geometry.
    destruct (Z.eq_dec (_width this) (_width other));
      destruct (Z.eq_dec (_height this) (_height other));
      destruct (Z.eq_dec (_channels this) (_channels other)); tauto. }
  assert (Hthrow : ~ same_geometry this other ->
                   AbsoluteDiff this other = inl DifferentGeometry).
  { unfold same_geometry, AbsoluteDiff, Width, Height, Channels. intros Hn.
    destruct (Z.eqb_spec (_width this) (_width other));
      destruct (Z.eqb_spec (_height this) (_height other));
      destruct (Z.eqb_spec (_channels this) (_channels other));
      cbn [negb orb]; try reflexivity. tauto. }
  assert (Hok : same_geometry this other ->
    exists res : BitmapData T,
        AbsoluteDiff this other = inr res
        /\ well_formed res /\ same_geometry res this
        /\ _minDisplayedBrightness res = 0
        /\ _maxDisplayedBrightness res = numeric_limits_max T
        /\ (forall i, 0 <= i < Z.of_nat (length (_buffer this)) ->
              load (_buffer res) i
              = Z.abs (load (_buffer this) i - load (_buffer other) i))
        /\ forall x y, 0 <= x < _width this -> 0 <= y < _height this ->
             let d := Get res x y in
             let a := Get this x y in
             let b := Get other x y in
             _red d = Z.abs (_red a - _red b)
             /\ _green d = Z.abs (_green a - _green b)
             /\ _blue d = Z.abs (_blue a - _blue b)).
  { intros Hg.
    destruct (AbsoluteDiff_samples this other Hwf Hwf' Hg)
      as (res & Hres & Hwr & Hgr & Hmin & Hmax & Hrd).
    assert (Hlen : length (_buffer other) = length (_buffer this)).
    { destruct Hwf as (_ & _ & _ & L), Hwf' as (_ & _ & _ & L'),
        Hg as (E1 & E2 & E3). apply Nat2Z.inj. rewrite L, L'.
      now rewrite E1, E2, E3. }
    assert (Hsample : forall i, 0 <= i < Z.of_nat (length (_buffer this)) ->
              load (_buffer res) i
              = Z.abs (load (_buffer this) i - load (_buffer other) i)).
    { intros i Hi. rewrite (Hrd i Hi).
      apply sample_diff_small; try assumption;
        apply samples_of_load; try assumption. now rewrite Hlen. }
    exists res. repeat (split; [assumption |]). intros x y Hx Hy.
    destruct Hgr as (Gw & Gh & Gc), Hg as (E1 & E2 & E3).
    destruct (layout_indices other this) as (Jy & _ & Jr & Jg & Jb);
      [apply Hwf' | apply Hwf | congruence |].
    destruct (layout_indices res this) as (Iy & _ & Ir & Ig & Ib);
      [apply Hwr | apply Hwf | congruence |].
    assert (Hoff : forall k, 0 <= k < _channels this ->
              0 <= pixel this x y + k < Z.of_nat (length (_buffer this))).
    { intros k Hk. destruct Hwf as (_ & _ & _ & L). rewrite L.
      apply offset_inside; assumption. }
    destruct (layout_index_bounds this) as (Kr & Kg & Kb & Ky);
      [apply Hwf |].
    cbv zeta. unfold Get, GetRed, GetGreen, GetBlue.
    assert (Hpx : pixel res x y = pixel this x y
                  /\ pixel other x y = pixel this x y).
    { unfold pixel. now rewrite Gw, Gc, <- E1, <- E3. }
    destruct Hpx as (-> & ->).
    rewrite Ir, Ig, Ib, Iy, Jr, Jg, Jb, Jy, Gc, <- E3.
    destruct (Z.eqb_spec (_channels this) 1) as [C1 | C1];
      cbn [_red _green _blue].
    - rewrite (Ky C1).
      rewrite (Hsample _ (Hoff 0 ltac:(lia))). repeat split; reflexivity.
    - rewrite (Hsample _ (Hoff _ Kr)), (Hsample _ (Hoff _ Kg)),
        (Hsample _ (Hoff _ Kb)). repeat split; reflexivity. }
  split; [| exact Hok]. split; [exact Hthrow |].
  intros Hthrown Hg. destruct (Hok Hg) as (res & Hres & _). congruence.
Qed.

Lemma AbsoluteDiff_is_the_distance_witness :
  let this : BitmapData U8 :=
    mkBitmapData 2 1 1 [10; 200] 0 (-1) 0 0 0 0 255 in
  let other : BitmapData U8 :=
    mkBitmapData 2 1 1 [25; 60] 0 (-1) 0 0 0 0 255 in
  exists res : BitmapData U8,
    AbsoluteDiff this other = inr res /\ _buffer res = [15; 140].
Proof.
  cbv zeta.
  destruct (AbsoluteDiff_is_the_distance U8
              (mkBitmapData 2 1 1 [10; 200] 0 (-1) 0 0 0 0 255)
              (mkBitmapData 2 1 1 [25; 60] 0 (-1) 0 0 0 0 255))
    as [_ Hok].
  - reflexivity.
  - now vm_compute.
  - repeat split; try (now vm_compute). left. repeat split.
  - repeat split; try (now vm_compute). left. repeat split.
  - repeat constructor; now vm_compute.
  - repeat constructor; now vm_compute.
  - destruct Hok as (res & Hres & _); [repeat split |].
    exists res. split; [exact Hres |].
    vm_compute in Hres. injection Hres as <-. reflexivity.
Defined.

(** X13.  [AbsoluteDiff] does not depend on the order of its operands. *)
Theorem AbsoluteDiff_is_symmetric (T : SampleType)
    (this other : BitmapData T) :
  well_formed this -> well_formed other ->
  AbsoluteDiff this other = AbsoluteDiff other this.
Proof.
  intros Hwf Hwf'.
  destruct (Z.eq_dec (_width this) (_width other)) as [Ew | Nw];
    [destruct (Z.eq_dec (_height this) (_height other)) as [Eh | Nh];
     [destruct (Z.eq_dec (_channels this) (_channels other)) as [Ec | Nc] |]
    |].
  - assert (Hg : same_geometry this other) by (repeat split; assumption).
    assert (Hg' : same_geometry other this) by (repeat split; congruence).
    destruct (AbsoluteDiff_samples this other Hwf Hwf' Hg)
      as (r1 & H1 & W1 & G1 & Mn1 & Mx1 & S1).
    destruct (AbsoluteDiff_samples other this Hwf' Hwf Hg')
      as (r2 & H2 & W2 & G2 & Mn2 & Mx2 & S2).
    rewrite H1, H2. f_equal.
    assert (Hlen : Z.of_nat (length (_buffer other))
                   = Z.of_nat (length (_buffer this))).
    { destruct Hwf as (_ & _ & _ & L), Hwf' as (_ & _ & _ & L').
      rewrite L, L'. now rewrite Ew, Eh, Ec. }
    assert (Hbuf : _buffer r1 = _buffer r2).
    { destruct W1 as (_ & _ & _ & L1), W2 as (_ & _ & _ & L2),
        G1 as (G1w & G1h & G1c), G2 as (G2w & G2h & G2c),
        Hwf as (_ & _ & _ & L).
      assert (Hl1 : Z.of_nat (length (_buffer r1))
                    = Z.of_nat (length (_buffer this))).
      { rewrite L1, L. now rewrite G1w, G1h, G1c. }
      assert (Hl2 : Z.of_nat (length (_buffer r2))
                    = Z.of_nat (length (_buffer this))).
      { rewrite L2, L. now rewrite G2w, G2h, G2c, <- Ew, <- Eh, <- Ec. }
      apply load_ext; [lia |]. intros i Hi.
      rewrite S1, S2 by lia. apply sample_diff_sym. }
    destruct (layout_indices r1 r2) as (Iy & Ia & Ir & Ig & Ib);
      [apply W1 | apply W2
       | destruct G1 as (_ & _ & ->), G2 as (_ & _ & ->); congruence |].
    destruct G1 as (G1w & G1h & G1c), G2 as (G2w & G2h & G2c).
    destruct r1, r2; cbn in *. f_equal; congruence.
  - unfold AbsoluteDiff, Width, Height, Channels.
    destruct (Z.eqb_spec (_channels this) (_channels other)); [lia |].
    destruct (Z.eqb_spec (_channels other) (_channels this)); [lia |].
    now rewrite !orb_true_r.
  - unfold AbsoluteDiff, Width, Height, Channels.
    destruct (Z.eqb_spec (_height this) (_height other)); [lia |].
    destruct (Z.eqb_spec (_height other) (_height this)); [lia |].
    cbn [negb]. now rewrite !orb_true_r.
  - unfold AbsoluteDiff, Width, Height, Channels.
    destruct (Z.eqb_spec (_width this) (_width other)); [lia |].
    destruct (Z.eqb_spec (_width other) (_width this)); [lia |].
    reflexivity.
Qed.

Lemma AbsoluteDiff_is_symmetric_witness :
  let this : BitmapData U16 :=
    mkBitmapData 1 1 3 [1; 2; 3] (-1) (-1) 0 1 2 0 65535 in
  let other : BitmapData U16 :=
    mkBitmapData 1 1 3 [9; 2; 0] (-1) (-1) 0 1 2 0 65535 in
  AbsoluteDiff this other = AbsoluteDiff other this.
Proof.
  cbv zeta. apply AbsoluteDiff_is_symmetric.
  - repeat split; try (now vm_compute). right. left. repeat split.
  - repeat split; try (now vm_compute). right. left. repeat split.
Defined.

(** X14.  On 64-bit unsigned samples the bound [static_cast<int64_t>(max)] of
    [AbsoluteDiff] is -1, so every sample of the result is [2^64 - 1],
    whatever the operands hold. *)
Theorem AbsoluteDiff_of_64_bit_samples (this other : BitmapData U64) :
  well_formed this -> well_formed other -> same_geometry this other ->
  exists res : BitmapData U64,
    AbsoluteDiff this other = inr res
    /\ _buffer res
       = replicate (length (_buffer this)) (numeric_limits_max U64).
Proof.
  intros Hwf Hwf' Hg.
  destruct (AbsoluteDiff_samples this other Hwf Hwf' Hg)
    as (res & Hres & Wr & Gr & _ & _ & Srd).
  exists res. split; [exact Hres |].
  assert (Hlen : length (_buffer res) = length (_buffer this)).
  { destruct Wr as (_ & _ & _ & L1), Gr as (G1w & G1h & G1c),
      Hwf as (_ & _ & _ & L). apply Nat2Z.inj. rewrite L1, L.
    now rewrite G1w, G1h, G1c. }
  apply load_ext; [now rewrite length_replicate |].
  intros i Hi. rewrite Srd by lia. rewrite sample_diff_u64.
  symmetry. unfold load.
  destruct (Z.ltb_spec i 0); [lia |].
  rewrite lookup_replicate_2 by lia. reflexivity.
Qed.

Lemma AbsoluteDiff_of_64_bit_samples_witness :
  let this : BitmapData U64 :=
    mkBitmapData 2 1 1 [5; 5] 0 (-1) 0 0 0 0 18446744073709551615 in
  exists res : BitmapData U64,
    AbsoluteDiff this this = inr res
    /\ _buffer res = [18446744073709551615; 18446744073709551615].
Proof.
  cbv zeta.
  apply (AbsoluteDiff_of_64_bit_samples
           (mkBitmapData 2 1 1 [5; 5] 0 (-1) 0 0 0 0 18446744073709551615)
           (mkBitmapData 2 1 1 [5; 5] 0 (-1) 0 0 0 0 18446744073709551615)).
  - repeat split; try (now vm_compute). left. repeat split.
  - repeat split; try (now vm_compute). left. repeat split.
  - repeat split.
Defined.

(** ** Extremum searches *)

Lemma fold_left_map {A B C : Type} (f : A -> C -> A) (g : B -> C)
    (l : list B) (a : A) :
  fold_left f (map g l) a = fold_left (fun a b => f a (g b)) l a.
Proof. revert a. induction l as [| b l IH]; intros a; simpl; auto. Qed.

Lemma scan_points {St : Type} (x0 y0 x1 y1 : Z) (body : Z -> Z -> St -> St)
    (s : St) :
  scan x0 y0 x1 y1 body s
  = fold_left (fun s p => body (fst p) (snd p) s)
              (region_points x0 y0 x1 y1) s.
Proof.
  unfold scan, region_points.
  generalize (seqZ y0 (y1 - y0 + 1)) as ys. intros ys. revert s.
  induction ys as [| y ys IH]; intros s; [reflexivity |].
  cbn [fold_left flat_map]. rewrite fold_left_app, fold_left_map.
  cbn [fst snd]. apply IH.
Qed.

Lemma in_region_points (x0 y0 x1 y1 : Z) (p : Z * Z) :
  In p (region_points x0 y0 x1 y1)
  <-> x0 <= fst p <= x1 /\ y0 <= snd p <= y1.
Proof.
  unfold region_points. rewrite in_flat_map. split.
  - intros (y & Hy & Hp). apply in_map_iff in Hp as (x & <- & Hx).
    apply list_elem_of_In, elem_of_seqZ in Hy, Hx. cbn [fst snd]. lia.
  - intros [Hx Hy]. exists (snd p). split.
    + apply list_elem_of_In, elem_of_seqZ. lia.
    + apply in_map_iff. exists (fst p). split; [now destruct p |].
      apply list_elem_of_In, elem_of_seqZ. lia.
Qed.

(** A property of the points dealt with so far and the state, kept by every
    step, holds at the end of the loop. *)
Lemma fold_left_invariant {St P : Type} (step : St -> P -> St)
    (I : list P -> St -> Prop) (pts : list P) (s0 : St) :
  I [] s0 ->
  (forall seen p s, I seen s -> I (seen ++ [p]) (step s p)) ->
  I pts (fold_left step pts s0).
Proof.
  intros H0 Hstep.
  assert (Hgen : forall rest seen s,
             I seen s -> I (seen ++ rest) (fold_left step rest s)).
  { induction rest as [| p rest IH]; intros seen s Hs.
    - now rewrite app_nil_r.
    - cbn [fold_left].
      replace (seen ++ p :: rest) with ((seen ++ [p]) ++ rest)
        by now rewrite <- app_assoc.
      apply IH, Hstep, Hs. }
  exact (Hgen pts [] s0 H0).
Qed.

Section Extremes.
Context `{FloatOps} {T : SampleType}.
Variable bd : BitmapData T.

(** What the loop of [MaxGray] keeps true. *)
Local Abbreviation MaxGray_kept b0 d0 :=
  (fun (seen : list (Z * Z)) (s : MaxGrayState) =>
     (forall p, In p seen ->
        mg_min s <= GetGray bd (fst p) (snd p) <= mg_max s)
     /\ mg_max2 s <= mg_max s
     /\ 0 <= mg_max2 s
     /\ mg_min s <= numeric_limits_max T
     /\ ((mg_max s = 0 /\ (mg_brightestX s, mg_brightestY s) = b0)
         \/ (In (mg_brightestX s, mg_brightestY s) seen
             /\ GetGray bd (mg_brightestX s) (mg_brightestY s) = mg_max s))
     /\ ((mg_min s = numeric_limits_max T
          /\ (mg_darkestX s, mg_darkestY s) = d0)
         \/ (In (mg_darkestX s, mg_darkestY s) seen
             /\ GetGray bd (mg_darkestX s) (mg_darkestY s) = mg_min s))).

Lemma MaxGray_step_kept (b0 d0 : Z * Z) (seen : list (Z * Z)) (p : Z * Z)
    (s : MaxGrayState) :
  MaxGray_kept b0 d0 seen s ->
  MaxGray_kept b0 d0 (seen ++ [p]) (MaxGray_step bd (fst p) (snd p) s).
Proof.
  intros (Hall & H21 & H2 & Hmin & Hb & Hd).
  assert (Hseen : forall q, In q (seen ++ [p]) -> In q seen \/ q = p).
  { intros q Hq. apply in_app_or in Hq as [Hq | [Hq | []]]; auto. }
  assert (Hold : forall q, In q seen -> In q (seen ++ [p])).
  { intros q Hq. apply in_or_app. now left. }
  assert (Hnew : In (fst p, snd p) (seen ++ [p])).
  { apply in_or_app. right. left. now destruct p. }
  unfold MaxGray_step.
  set (current := GetGray bd (fst p) (snd p)).
  destruct (Z.gtb_spec current (mg_max s)) as [G1 | G1];
    [destruct (Z.gtb_spec (mg_max s) (mg_max2 s)) as [G2 | G2]
    | destruct (Z.gtb_spec current (mg_max2 s)) as [G2 | G2]];
    cbn [mg_min mg_max mg_max2];
    (destruct (Z.ltb_spec current (mg_min s)) as [L | L];
     cbn [mg_min mg_max mg_max2 mg_brightestX mg_brightestY
          mg_darkestX mg_darkestY];
     (split; [intros q Hq; destruct (Hseen q Hq) as [Hq' | ->];
              [specialize (Hall q Hq'); lia | fold current; lia] |]);
     (split; [lia |]); (split; [lia |]); (split; [lia |]); split;
     try (right; split; [exact Hnew | reflexivity]);
     try (destruct Hb as [[Hb1 Hb2] | [Hb1 Hb2]];
          [left; split; [lia | exact Hb2]
          | right; split; [apply Hold, Hb1 | lia]]);
     try (destruct Hd as [[Hd1 Hd2] | [Hd1 Hd2]];
          [left; split; [lia | exact Hd2]
          | right; split; [apply Hold, Hd1 | lia]])).
Qed.

(** What the loop of [MinGray] keeps true. *)
Local Abbreviation MinGray_kept d0 :=
  (fun (seen : list (Z * Z)) (s : MinGrayState) =>
     (forall p, In p seen -> ng_min s <= GetGray bd (fst p) (snd p))
     /\ ng_min s <= ng_min2 s
     /\ ng_min2 s <= numeric_limits_max T
     /\ ((ng_min s = numeric_limits_max T
          /\ (ng_darkestX s, ng_darkestY s) = d0)
         \/ (In (ng_darkestX s, ng_darkestY s) seen
             /\ GetGray bd (ng_darkestX s) (ng_darkestY s) = ng_min s))).

Lemma MinGray_step_kept (d0 : Z * Z) (seen : list (Z * Z)) (p : Z * Z)
    (s : MinGrayState) :
  MinGray_kept d0 seen s ->
  MinGray_kept d0 (seen ++ [p]) (MinGray_step bd (fst p) (snd p) s).
Proof.
  intros (Hall & H12 & H2 & Hd).
  assert (Hseen : forall q, In q (seen ++ [p]) -> In q seen \/ q = p).
  { intros q Hq. apply in_app_or in Hq as [Hq | [Hq | []]]; auto. }
  assert (Hold : forall q, In q seen -> In q (seen ++ [p])).
  { intros q Hq. apply in_or_app. now left. }
  assert (Hnew : In (fst p, snd p) (seen ++ [p])).
  { apply in_or_app. right. left. now destruct p. }
  unfold MinGray_step.
  set (current := GetGray bd (fst p) (snd p)).
  destruct (Z.ltb_spec current (ng_min s)) as [L1 | L1];
    [destruct (Z.ltb_spec (ng_min s) (ng_min2 s)) as [L2 | L2]
    | destruct (Z.ltb_spec current (ng_min2 s)) as [L2 | L2]];
    cbn [ng_min ng_min2 ng_darkestX ng_darkestY];
    (split; [intros q Hq; destruct (Hseen q Hq) as [Hq' | ->];
             [specialize (Hall q Hq'); lia | fold current; lia] |]);
    (split; [lia |]); (split; [lia |]);
    try (right; split; [exact Hnew | reflexivity]);
    (destruct Hd as [[Hd1 Hd2] | [Hd1 Hd2]];
     [left; split; [lia | exact Hd2]
     | right; split; [apply Hold, Hd1 | lia]]).
Qed.

End Extremes.

(** X15.  [MaxGray] brackets the gray value of every pixel of the clipped
    rectangle between the darkest value and the maximum it reports; the
    second maximum is at most the maximum.  The brightest position is a pixel
    of the rectangle holding the maximum, unless no pixel is brighter than 0:
    then the maximum is 0 and the position cells keep what they held.
    Likewise the darkest position holds the darkest value, unless no pixel is
    darker than the largest value of the type. *)
Theorem MaxGray_brackets_the_region `{FloatOps} (T : SampleType)
    (bd : BitmapData T) (x0 y0 x1 y1 : Z)
    (pos0 : (Z * Z) * (Z * Z) * (Z * Z)) :
  let r := MaxGray bd x0 y0 x1 y1 pos0 in
  (forall p, clipped bd x0 y0 x1 y1 p ->
     r_darkestValue r <= GetGray bd (fst p) (snd p) <= r_max r)
  /\ 0 <= r_secondMax r <= r_max r
  /\ r_darkestValue r <= numeric_limits_max T
  /\ ((r_max r = 0 /\ r_brightest r = fst (fst pos0))
      \/ (clipped bd x0 y0 x1 y1 (r_brightest r)
          /\ GetGray bd (fst (r_brightest r)) (snd (r_brightest r))
             = r_max r))
  /\ ((r_darkestValue r = numeric_limits_max T /\ r_darkest r = snd pos0)
      \/ (clipped bd x0 y0 x1 y1 (r_darkest r)
          /\ GetGray bd (fst (r_darkest r)) (snd (r_darkest r))
             = r_darkestValue r)).
Proof.
  destruct pos0 as [[b0 sb0] d0]. cbv zeta. unfold MaxGray, clipped.
  cbn [r_max r_secondMax r_darkestValue r_brightest r_darkest fst snd].
  rewrite scan_points.
  set (pts := region_points _ _ _ _).
  set (s0 := mkMaxGrayState _ _ _ _ _ _ _ _ _ _).
  pose proof (fold_left_invariant
                (fun s p => MaxGray_step bd (fst p) (snd p) s)
                (fun seen s =>
     (forall p, In p seen ->
        mg_min s <= GetGray bd (fst p) (snd p) <= mg_max s)
     /\ mg_max2 s <= mg_max s
     /\ 0 <= mg_max2 s
     /\ mg_min s <= numeric_limits_max T
     /\ ((mg_max s = 0 /\ (mg_brightestX s, mg_brightestY s) = b0)
         \/ (In (mg_brightestX s, mg_brightestY s) seen
             /\ GetGray bd (mg_brightestX s) (mg_brightestY s) = mg_max s))
     /\ ((mg_min s = numeric_limits_max T
          /\ (mg_darkestX s, mg_darkestY s) = d0)
         \/ (In (mg_darkestX s, mg_darkestY s) seen
             /\ GetGray bd (mg_darkestX s) (mg_darkestY s) = mg_min s)))
                pts s0) as Hinv.
  destruct Hinv as (Hall & H21 & H2 & Hmin & Hb & Hd).
  - unfold s0. cbn. repeat split; try lia; try (intros p []).
    + left. split; [reflexivity | now destruct b0].
    + left. split; [reflexivity | now destruct d0].
  - intros seen p s. apply MaxGray_step_kept.
  - split; [intros p Hp; apply Hall, in_region_points, Hp |].
    split; [lia |]. split; [exact Hmin |]. split.
    + destruct Hb as [Hb | [Hb1 Hb2]]; [left; exact Hb | right].
      split; [| exact Hb2]. apply in_region_points in Hb1. exact Hb1.
    + destruct Hd as [Hd | [Hd1 Hd2]]; [left; exact Hd | right].
      split; [| exact Hd2]. apply in_region_points in Hd1. exact Hd1.
Qed.

Lemma MaxGray_brackets_the_region_witness :
  let bd : BitmapData U8 :=
    mkBitmapData 2 1 1 [4; 9] 0 (-1) 0 0 0 0 255 in
  let r := @MaxGray U8 exact_float_ops bd 0 0 5 5 ((7, 7), (7, 7), (7, 7)) in
  r_darkestValue r <= @GetGray U8 exact_float_ops bd 1 0 <= r_max r.
Proof.
  cbv zeta.
  destruct (@MaxGray_brackets_the_region exact_float_ops U8
              (mkBitmapData 2 1 1 [4; 9] 0 (-1) 0 0 0 0 255) 0 0 5 5
              ((7, 7), (7, 7), (7, 7))) as [Hall _].
  apply (Hall (1, 0)). repeat split; now vm_compute.
Defined.

(** X16.  [MinGray] reports a minimum no pixel of the clipped rectangle is below
    and a second minimum that is not below the minimum.  The darkest
    position is a pixel of the rectangle holding the minimum, unless no
    pixel is darker than the largest value of the type: then that value is
    returned and the position cells keep what they held. *)
Theorem MinGray_bounds_the_region `{FloatOps} (T : SampleType)
    (bd : BitmapData T) (x0 y0 x1 y1 : Z) (pos0 : (Z * Z) * (Z * Z)) :
  let r := MinGray bd x0 y0 x1 y1 pos0 in
  (forall p, clipped bd x0 y0 x1 y1 p ->
     n_min r <= GetGray bd (fst p) (snd p))
  /\ n_min r <= n_secondMin r <= numeric_limits_max T
  /\ ((n_min r = numeric_limits_max T /\ n_darkest r = fst pos0)
      \/ (clipped bd x0 y0 x1 y1 (n_darkest r)
          /\ GetGray bd (fst (n_darkest r)) (snd (n_darkest r)) = n_min r)).
Proof.
  destruct pos0 as [d0 sd0]. cbv zeta. unfold MinGray, clipped.
  cbn [n_min n_secondMin n_darkest fst snd].
  rewrite scan_points.
  set (pts := region_points _ _ _ _).
  set (s0 := mkMinGrayState _ _ _ _ _ _ _).
  pose proof (fold_left_invariant
                (fun s p => MinGray_step bd (fst p) (snd p) s)
                (fun seen s =>
     (forall p, In p seen -> ng_min s <= GetGray bd (fst p) (snd p))
     /\ ng_min s <= ng_min2 s
     /\ ng_min2 s <= numeric_limits_max T
     /\ ((ng_min s = numeric_limits_max T
          /\ (ng_darkestX s, ng_darkestY s) = d0)
         \/ (In (ng_darkestX s, ng_darkestY s) seen
             /\ GetGray bd (ng_darkestX s) (ng_darkestY s) = ng_min s)))
                pts s0) as Hinv.
  destruct Hinv as (Hall & H12 & H2 & Hd).
  - unfold s0. cbn. repeat split; try lia; try (intros p []).
    left. split; [reflexivity | now destruct d0].
  - intros seen p s. apply MinGray_step_kept.
  - split; [intros p Hp; apply Hall, in_region_points, Hp |].
    split; [lia |].
    destruct Hd as [Hd | [Hd1 Hd2]]; [left; exact Hd | right].
    split; [| exact Hd2]. apply in_region_points in Hd1. exact Hd1.
Qed.

Lemma MinGray_bounds_the_region_witness :
  let bd : BitmapData U8 :=
    mkBitmapData 2 1 1 [4; 9] 0 (-1) 0 0 0 0 255 in
  n_min (@MinGray U8 exact_float_ops bd 0 0 5 5 ((7, 7), (7, 7)))
  <= @GetGray U8 exact_float_ops bd 1 0.
Proof.
  cbv zeta.
  destruct (@MinGray_bounds_the_region exact_float_ops U8
              (mkBitmapData 2 1 1 [4; 9] 0 (-1) 0 0 0 0 255) 0 0 5 5
              ((7, 7), (7, 7))) as [Hall _].
  apply (Hall (1, 0)). repeat split; now vm_compute.
Defined.

(** X17.  [Max] and [Min] return a colour no pixel of the clipped rectangle
    exceeds, respectively falls below, in gray value.  The colour is the one
    stored at the reported position, a pixel of the rectangle, unless no
    pixel beats the initial colour (gray [lowest()] for [Max], [max()] for
    [Min]): then that colour is returned and the position cells keep what
    they held. *)
Theorem Max_and_Min_bound_the_region `{FloatOps} (T : SampleType)
    (bd : BitmapData T) (x0 y0 x1 y1 : Z) (pos0 : Z * Z) :
  let hi := Max bd x0 y0 x1 y1 pos0 in
  let lo := Min bd x0 y0 x1 y1 pos0 in
  (forall p, clipped bd x0 y0 x1 y1 p ->
     ColorOps.Gray T (fst lo)
     <= ColorOps.Gray T (Get bd (fst p) (snd p))
     <= ColorOps.Gray T (fst hi))
  /\ (hi = (ColorOps.gray T (numeric_limits_lowest T), pos0)
      \/ (clipped bd x0 y0 x1 y1 (snd hi)
          /\ fst hi = Get bd (fst (snd hi)) (snd (snd hi))))
  /\ (lo = (ColorOps.gray T (numeric_limits_max T), pos0)
      \/ (clipped bd x0 y0 x1 y1 (snd lo)
          /\ fst lo = Get bd (fst (snd lo)) (snd (snd lo)))).
Proof.
  cbv zeta. unfold Max, Min, clipped. rewrite !scan_points.
  set (pts := region_points _ _ _ _).
  set (hi0 := (ColorOps.gray T (numeric_limits_lowest T), pos0)).
  set (lo0 := (ColorOps.gray T (numeric_limits_max T), pos0)).
  pose proof (fold_left_invariant
    (fun (s : Color * (Z * Z)) (p : Z * Z) =>
       if ColorOps.gtb T (Get bd (fst p) (snd p)) (fst s)
       then (Get bd (fst p) (snd p), (fst p, snd p)) else s)
    (fun seen s =>
       (forall p, In p seen ->
          ColorOps.Gray T (Get bd (fst p) (snd p))
          <= ColorOps.Gray T (fst s))
       /\ (s = hi0
           \/ (In (snd s) seen /\ fst s = Get bd (fst (snd s)) (snd (snd s)))))
    pts hi0) as Hhi.
  pose proof (fold_left_invariant
    (fun (s : Color * (Z * Z)) (p : Z * Z) =>
       if ColorOps.ltb T (Get bd (fst p) (snd p)) (fst s)
       then (Get bd (fst p) (snd p), (fst p, snd p)) else s)
    (fun seen s =>
       (forall p, In p seen ->
          ColorOps.Gray T (fst s)
          <= ColorOps.Gray T (Get bd (fst p) (snd p)))
       /\ (s = lo0
           \/ (In (snd s) seen /\ fst s = Get bd (fst (snd s)) (snd (snd s)))))
    pts lo0) as Hlo.
  destruct Hhi as [Hhi1 Hhi2].
  { split; [intros p [] | now left]. }
  { intros seen p s [Hall Hpos]. unfold ColorOps.gtb, ColorOps.ltb.
    destruct (Z.ltb_spec (ColorOps.Gray T (fst s))
                (ColorOps.Gray T (Get bd (fst p) (snd p)))) as [L | L].
    - split.
      + intros q Hq. cbn [fst].
        apply in_app_or in Hq as [Hq | [<- | []]]; [| lia].
        specialize (Hall q Hq). lia.
      + right. cbn [fst snd]. split; [| reflexivity].
        apply in_or_app. right. left. now destruct p.
    - split.
      + intros q Hq. apply in_app_or in Hq as [Hq | [<- | []]]; [| lia].
        now apply Hall.
      + destruct Hpos as [-> | [Hp1 Hp2]]; [now left | right].
        split; [apply in_or_app; now left | exact Hp2]. }
  destruct Hlo as [Hlo1 Hlo2].
  { split; [intros p [] | now left]. }
  { intros seen p s [Hall Hpos]. unfold ColorOps.ltb.
    destruct (Z.ltb_spec (ColorOps.Gray T (Get bd (fst p) (snd p)))
                (ColorOps.Gray T (fst s))) as [L | L].
    - split.
      + intros q Hq. cbn [fst].
        apply in_app_or in Hq as [Hq | [<- | []]]; [| lia].
        specialize (Hall q Hq). lia.
      + right. cbn [fst snd]. split; [| reflexivity].
        apply in_or_app. right. left. now destruct p.
    - split.
      + intros q Hq. apply in_app_or in Hq as [Hq | [<- | []]]; [| lia].
        now apply Hall.
      + destruct Hpos as [-> | [Hp1 Hp2]]; [now left | right].
        split; [apply in_or_app; now left | exact Hp2]. }
  split; [| split].
  - intros p Hp. apply in_region_points in Hp. split; auto.
  - destruct Hhi2 as [E | [Hp1 Hp2]]; [left; exact E | right].
    split; [| exact Hp2]. now apply in_region_points in Hp1.
  - destruct Hlo2 as [E | [Hp1 Hp2]]; [left; exact E | right].
    split; [| exact Hp2]. now apply in_region_points in Hp1.
Qed.

Lemma Max_and_Min_bound_the_region_witness :
  let bd : BitmapData U8 :=
    mkBitmapData 2 1 1 [4; 9] 0 (-1) 0 0 0 0 255 in
  @ColorOps.Gray exact_float_ops U8
    (fst (@Min U8 exact_float_ops bd 0 0 5 5 (7, 7)))
  <= @ColorOps.Gray exact_float_ops U8 (Get bd 0 0)
  <= @ColorOps.Gray exact_float_ops U8
       (fst (@Max U8 exact_float_ops bd 0 0 5 5 (7, 7))).
Proof.
  cbv zeta.
  destruct (@Max_and_Min_bound_the_region exact_float_ops U8
              (mkBitmapData 2 1 1 [4; 9] 0 (-1) 0 0 0 0 255) 0 0 5 5
              (7, 7)) as [Hall _].
  apply (Hall (0, 0)). repeat split; now vm_compute.
Defined.

(** ** Pixel predicates *)

(** X18.  At most one of [IsRed], [IsGreen], [IsBlue] holds of a pixel, none on a
    one-channel container; on the others each says that its component of the
    colour [Get] reads is strictly the largest. *)
Theorem dominant_channel_is_exclusive (T : SampleType) (bd : BitmapData T)
    (x y : Z) :
  IsRed bd x y && IsGreen bd x y = false
  /\ IsRed bd x y && IsBlue bd x y = false
  /\ IsGreen bd x y && IsBlue bd x y = false
  /\ (_channels bd = 1 ->
      IsRed bd x y = false /\ IsGreen bd x y = false
      /\ IsBlue bd x y = false)
  /\ (_channels bd <> 1 ->
      let c := Get bd x y in
      (IsRed bd x y = true <-> _green c < _red c /\ _blue c < _red c)
      /\ (IsGreen bd x y = true <-> _red c < _green c /\ _blue c < _green c)
      /\ (IsBlue bd x y = true <-> _red c < _blue c /\ _green c < _blue c)).
Proof.
  unfold IsRed, IsGreen, IsBlue, Get.
  destruct (Z.eqb_spec (_channels bd) 1) as [E | N]; cbv zeta.
  - repeat split; try reflexivity; try contradiction.
  - cbn [_red _green _blue].
    set (r := GetRed bd x y). set (g := GetGreen bd x y).
    set (b := GetBlue bd x y).
    rewrite !Z.gtb_ltb.
    destruct (Z.ltb_spec g r), (Z.ltb_spec b r), (Z.ltb_spec r g),
      (Z.ltb_spec b g), (Z.ltb_spec r b), (Z.ltb_spec g b);
      cbn [andb]; repeat split; intros; try reflexivity;
      try discriminate; try contradiction; lia.
Qed.

Lemma gtb_true (a b : Z) : (a >? b) = true <-> b < a.
Proof. rewrite Z.gtb_ltb. apply Z.ltb_lt. Qed.

(** X19.  On a pixel of the canvas [IsBrighterThanNeighbours] holds exactly when
    [current] exceeds the gray value of each of the up to eight neighbours
    that lie on the canvas. *)
Theorem IsBrighterThanNeighbours_compares_the_canvas_neighbours `{FloatOps}
    (T : SampleType) (bd : BitmapData T) (i j current : Z) :
  0 <= i < Width bd -> 0 <= j < Height bd ->
  (IsBrighterThanNeighbours bd i j current = true
   <-> forall x y : Z,
         i - 1 <= x <= i + 1 -> j - 1 <= y <= j + 1 -> (x, y) <> (i, j) ->
         0 <= x < Width bd -> 0 <= y < Height bd ->
         GetGray bd x y < current).
Proof.
  intros Hi Hj. unfold IsBrighterThanNeighbours.
  rewrite !andb_true_iff, !orb_true_iff, !andb_true_iff, !orb_true_iff,
    !gtb_true, !Z.eqb_eq.
  split.
  - intros H' x y Hx Hy Hne Hxw Hyh.
    assert (Cx : x = i - 1 \/ x = i \/ x = i + 1) by lia.
    assert (Cy : y = j - 1 \/ y = j \/ y = j + 1) by lia.
    destruct Cx as [-> | [-> | ->]], Cy as [-> | [-> | ->]];
      try (now contradiction Hne); lia.
  - intros Hall.
    pose proof (Hall (i - 1) (j - 1)) as N1.
    pose proof (Hall (i - 1) j) as N2.
    pose proof (Hall (i - 1) (j + 1)) as N3.
    pose proof (Hall i (j - 1)) as N4.
    pose proof (Hall i (j + 1)) as N5.
    pose proof (Hall (i + 1) (j - 1)) as N6.
    pose proof (Hall (i + 1) j) as N7.
    pose proof (Hall (i + 1) (j + 1)) as N8.
    assert (D1 : (i - 1, j - 1) <> (i, j)) by (intros [=]; lia).
    assert (D2 : (i - 1, j) <> (i, j)) by (intros [=]; lia).
    assert (D3 : (i - 1, j + 1) <> (i, j)) by (intros [=]; lia).
    assert (D4 : (i, j - 1) <> (i, j)) by (intros [=]; lia).
    assert (D5 : (i, j + 1) <> (i, j)) by (intros [=]; lia).
    assert (D6 : (i + 1, j - 1) <> (i, j)) by (intros [=]; lia).
    assert (D7 : (i + 1, j) <> (i, j)) by (intros [=]; lia).
    assert (D8 : (i + 1, j + 1) <> (i, j)) by (intros [=]; lia).
    specialize (N1 ltac:(lia) ltac:(lia) D1).
    specialize (N2 ltac:(lia) ltac:(lia) D2).
    specialize (N3 ltac:(lia) ltac:(lia) D3).
    specialize (N4 ltac:(lia) ltac:(lia) D4).
    specialize (N5 ltac:(lia) ltac:(lia) D5).
    specialize (N6 ltac:(lia) ltac:(lia) D6).
    specialize (N7 ltac:(lia) ltac:(lia) D7).
    specialize (N8 ltac:(lia) ltac:(lia) D8).
    clear Hall D1 D2 D3 D4 D5 D6 D7 D8. lia.
Qed.

Lemma IsBrighterThanNeighbours_compares_the_canvas_neighbours_witness :
  let bd : BitmapData U8 :=
    mkBitmapData 3 1 1 [4; 9; 4] 0 (-1) 0 0 0 0 255 in
  @IsBrighterThanNeighbours U8 exact_float_ops bd 1 0 9 = true
  <-> forall x y : Z,
        1 - 1 <= x <= 1 + 1 -> 0 - 1 <= y <= 0 + 1 -> (x, y) <> (1, 0) ->
        0 <= x < Width bd -> 0 <= y < Height bd ->
        @GetGray U8 exact_float_ops bd x y < 9.
Proof.
  cbv zeta.
  apply (@IsBrighterThanNeighbours_compares_the_canvas_neighbours
           exact_float_ops U8
           (mkBitmapData 3 1 1 [4; 9; 4] 0 (-1) 0 0 0 0 255) 1 0 9);
    now vm_compute.
Defined.

(** ** The façade *)

Lemma create_cases (T : SampleType) (w h c : Z) :
  ((c = 1 \/ c = 3 \/ c = 4)
   /\ exists bd : BitmapData T,
        create w h c = inr bd
        /\ _width bd = w /\ _height bd = h /\ _channels bd = c)
  \/ ((c <> 1 /\ c <> 3 /\ c <> 4)
      /\ @create T w h c = inl (UnsupportedChannels c)).
Proof.
  assert (Hdec : (c = 1 \/ c = 3 \/ c = 4) \/ (c <> 1 /\ c <> 3 /\ c <> 4))
    by lia.
  destruct Hdec as [Hok | Hbad]; [left | right].
  - split; [exact Hok |]. unfold create, stable_reference_buffer.
    destruct (@Init_members_ok T w h c
                (replicate (Z.to_nat (w * h * c)) 0) Hok) as [bd Hbd].
    exists bd. split; [exact Hbd |].
    destruct (@Init_members_layout _ _ _ _ _ _ Hbd)
      as (_ & Ew & Eh & Ec & _). auto.
  - split; [exact Hbad |]. unfold create.
    destruct Hbad as (H1 & H3 & H4). now apply Init_members_error.
Qed.

(** X20.  The façade constructor yields a bitmap exactly for the depths 1, 2, 4,
    8, -8 and the channel counts 1, 3, 4.  The bitmap then reports the
    requested depth, which is also the depth of the container in use, and
    the requested extent and channel count. *)
Theorem facade_reports_what_was_requested (width height channels depth : Z) :
  ((depth = 1 \/ depth = 2 \/ depth = 4 \/ depth = 8 \/ depth = -8)
   /\ (channels = 1 \/ channels = 3 \/ channels = 4)
   <-> exists b, Facade.construct width height channels depth = inr b)
  /\ forall b, Facade.construct width height channels depth = inr b ->
       Facade.Depth b = depth
       /\ Facade.container_depth b = inr depth
       /\ Facade.Width b = inr width /\ Facade.Height b = inr height
       /\ Facade.Channels b = inr channels.
Proof.
  unfold Facade.construct.
  destruct (Z.eqb_spec depth 1) as [-> | N1];
    [| destruct (Z.eqb_spec depth 2) as [-> | N2];
       [| destruct (Z.eqb_spec depth 4) as [-> | N4];
          [| destruct (Z.eqb_spec depth 8) as [-> | N8];
             [| destruct (Z.eqb_spec depth (-8)) as [-> | N9]]]]].
  1: destruct (create_cases U8 width height channels)
       as [(Hc & bd & -> & Ew & Eh & Ec) | (Hc & ->)].
  3: destruct (create_cases U16 width height channels)
       as [(Hc & bd & -> & Ew & Eh & Ec) | (Hc & ->)].
  5: destruct (create_cases U32 width height channels)
       as [(Hc & bd & -> & Ew & Eh & Ec) | (Hc & ->)].
  7: destruct (create_cases U64 width height channels)
       as [(Hc & bd & -> & Ew & Eh & Ec) | (Hc & ->)].
  9: destruct (create_cases F64 width height channels)
       as [(Hc & bd & -> & Ew & Eh & Ec) | (Hc & ->)].
  all: split;
    [split;
     [intros [Hd Hch]; try (eexists; reflexivity); exfalso; lia
     | intros [b Hb]; try discriminate; (split; [lia | assumption])]
    | intros b Hb; try discriminate; injection Hb as <-].
  all: unfold Facade.Depth, Facade.container_depth, Facade.Width,
         Facade.Height, Facade.Channels, Facade.dispatch, Width, Height,
         Channels, Depth;
       cbn; rewrite Ew, Eh, Ec; repeat split; reflexivity.
Qed.

Lemma facade_reports_what_was_requested_witness :
  exists b, Facade.construct 3 2 3 2 = inr b
            /\ Facade.Depth b = 2 /\ Facade.container_depth b = inr 2.
Proof.
  destruct (facade_reports_what_was_requested 3 2 3 2) as [Hiff Hget].
  destruct (proj1 Hiff) as [b Hb]; [split; lia |].
  exists b. split; [exact Hb |].
  destruct (Hget b Hb) as (Hd & Hc & _). split; assumption.
Defined.

(** ** Interpolation at and beyond the clamp bounds *)

Lemma clamp_low (lo hi : Z) (d : Q) :
  lo <= hi -> (d <= inject_Z lo)%Q ->
  Qfloor (std_max (inject_Z lo) (std_min (inject_Z hi) d)) = lo.
Proof.
  intros Hle Hd. rewrite <- (Qfloor_Z lo) at 2. apply Qfloor_comp.
  assert (Hlh : (inject_Z lo <= inject_Z hi)%Q) by now rewrite <- Zle_Qle.
  unfold std_max, std_min.
  destruct (Qltb d (inject_Z hi)) eqn:E1.
  - destruct (Qltb (inject_Z lo) d) eqn:E2; [| reflexivity].
    apply Qltb_true in E2. exfalso. eapply Qlt_irrefl, Qlt_le_trans; eauto.
  - apply Qltb_false in E1.
    destruct (Qltb (inject_Z lo) (inject_Z hi)) eqn:E2; [| reflexivity].
    apply Qltb_true in E2. exfalso.
    apply (Qlt_irrefl (inject_Z lo)).
    eapply Qlt_le_trans; [exact E2 |]. eapply Qle_trans; eauto.
Qed.

Lemma clamp_high (lo hi : Z) (d : Q) :
  lo <= hi -> (inject_Z hi <= d)%Q ->
  Qfloor (std_max (inject_Z lo) (std_min (inject_Z hi) d)) = hi.
Proof.
  intros Hle Hd. rewrite <- (Qfloor_Z hi) at 2. apply Qfloor_comp.
  assert (Hlh : (inject_Z lo <= inject_Z hi)%Q) by now rewrite <- Zle_Qle.
  unfold std_max, std_min.
  destruct (Qltb d (inject_Z hi)) eqn:E1.
  - apply Qltb_true in E1. exfalso. eapply Qlt_irrefl, Qlt_le_trans; eauto.
  - destruct (Qltb (inject_Z lo) (inject_Z hi)) eqn:E2; [reflexivity |].
    apply Qltb_false in E2. now apply Qle_antisym.
Qed.

Lemma corner_choice (lo hi : Z) (d : Q) (c : Z) :
  lo <= hi ->
  ((d <= inject_Z lo)%Q /\ c = lo \/ (inject_Z hi <= d)%Q /\ c = hi) ->
  c = if Qle_bool d (inject_Z lo) then lo else hi.
Proof.
  intros Hle [[Hd ->] | [Hd ->]].
  - apply Qle_bool_iff in Hd. now rewrite Hd.
  - destruct (Qle_bool d (inject_Z lo)) eqn:E; [| reflexivity].
    apply Qle_bool_iff in E.
    assert (Hhl : (inject_Z hi <= inject_Z lo)%Q)
      by (eapply Qle_trans; eauto).
    rewrite <- Zle_Qle in Hhl. lia.
Qed.

(** The test [x <= 0.0 || ix + 1 > max_x] of [Do] succeeds when the query
    is at or beyond a bound. *)
Lemma edge_test (lo hi : Z) (d : Q) :
  lo <= hi -> (d <= inject_Z lo)%Q \/ (inject_Z hi <= d)%Q ->
  let i := Qfloor (std_max (inject_Z lo) (std_min (inject_Z hi) d)) in
  Qle_bool (d - inject_Z i) 0 || Qltb (inject_Z hi) (inject_Z (i + 1)) = true
  /\ ((d <= inject_Z lo)%Q /\ i = lo \/ (inject_Z hi <= d)%Q /\ i = hi).
Proof.
  intros Hle [Hd | Hd]; cbv zeta.
  - rewrite (clamp_low lo hi d Hle Hd). split; [| now left].
    apply orb_true_iff. left. apply Qle_bool_iff.
    apply (Qplus_le_l _ _ (inject_Z lo)). ring_simplify. exact Hd.
  - rewrite (clamp_high lo hi d Hle Hd). split; [| now right].
    apply orb_true_iff. right. unfold Qltb. apply negb_true_iff.
    destruct (Qle_bool (inject_Z (hi + 1)) (inject_Z hi)) eqn:E;
      [| reflexivity].
    apply Qle_bool_iff in E. rewrite <- Zle_Qle in E. lia.
Qed.

Lemma Do_clamps `{FloatOps} {V : Type} `{Mixable V} (dx dy : Q)
    (min_x min_y max_x max_y : Z) (Get : Z -> Z -> V) :
  min_x <= max_x -> min_y <= max_y ->
  (dx <= inject_Z min_x)%Q \/ (inject_Z max_x <= dx)%Q ->
  (dy <= inject_Z min_y)%Q \/ (inject_Z max_y <= dy)%Q ->
  exists cx cy : Z,
    Do dx dy (inject_Z min_x) (inject_Z min_y) (inject_Z max_x)
       (inject_Z max_y) Get = (Get cx cy, [(cx, cy)])
    /\ ((dx <= inject_Z min_x)%Q /\ cx = min_x
        \/ (inject_Z max_x <= dx)%Q /\ cx = max_x)
    /\ ((dy <= inject_Z min_y)%Q /\ cy = min_y
        \/ (inject_Z max_y <= dy)%Q /\ cy = max_y).
Proof.
  intros Hx Hy Hdx Hdy. unfold Do.
  destruct (edge_test min_x max_x dx Hx Hdx) as [Tx Cx].
  destruct (edge_test min_y max_y dy Hy Hdy) as [Ty Cy].
  cbv zeta in Tx, Ty, Cx, Cy. rewrite Tx, Ty.
  eexists _, _. split; [reflexivity |]. split; assumption.
Qed.

(** X21.  With bounds [min <= max] that are [int] values below [INT_MAX], a
    query at or beyond a bound in both directions is answered with the
    sample of the corner it lies beyond: there is one getter call, at that
    corner, and [Mix] is not reached. *)
Theorem Do_answers_outside_queries_with_the_corner `{FloatOps} {V : Type}
    `{Mixable V} (dx dy : Q) (min_x min_y max_x max_y : Z)
    (Get : Z -> Z -> V) :
  int_bounds min_x max_x -> int_bounds min_y max_y ->
  (dx <= inject_Z min_x)%Q \/ (inject_Z max_x <= dx)%Q ->
  (dy <= inject_Z min_y)%Q \/ (inject_Z max_y <= dy)%Q ->
  let cx := if Qle_bool dx (inject_Z min_x) then min_x else max_x in
  let cy := if Qle_bool dy (inject_Z min_y) then min_y else max_y in
  Do dx dy (inject_Z min_x) (inject_Z min_y) (inject_Z max_x)
     (inject_Z max_y) Get = (Get cx cy, [(cx, cy)]).
Proof.
  intros (_ & Hx & _) (_ & Hy & _) Hdx Hdy. cbv zeta.
  destruct (Do_clamps dx dy min_x min_y max_x max_y Get Hx Hy Hdx Hdy)
    as (cx & cy & HDo & Cx & Cy).
  rewrite HDo.
  rewrite <- (corner_choice min_x max_x dx cx Hx Cx),
    <- (corner_choice min_y max_y dy cy Hy Cy). reflexivity.
Qed.

Lemma Do_answers_outside_queries_with_the_corner_witness :
  @Do Z exact_float_ops MixableScalar (-3 # 2) (9 # 1) (inject_Z 0)
      (inject_Z 0) (inject_Z 3) (inject_Z 2) (fun x y => 10 * x + y)
  = (2, [(0, 2)]).
Proof.
  apply (@Do_answers_outside_queries_with_the_corner exact_float_ops Z
           MixableScalar (-3 # 2) (9 # 1) 0 0 3 2 (fun x y => 10 * x + y)).
  - repeat split; now vm_compute.
  - repeat split; now vm_compute.
  - left. now vm_compute.
  - right. now vm_compute.
Defined.

(** X22.  The fractional [Get] of a container with at least one pixel reads
    pixels of the canvas only, whatever the query; a query at or beyond the
    canvas in both directions returns the pixel of the nearest corner. *)
Theorem Get_interpolated_stays_on_the_canvas `{FloatOps} `{Mixable Color}
    (T : SampleType) (bd : BitmapData T) (dx dy : Q) :
  1 <= _width bd -> 1 <= _height bd ->
  Forall (fun p => in_canvas bd p = true) (snd (Get_interpolated bd dx dy))
  /\ ((dx <= 0)%Q \/ (inject_Z (_width bd - 1) <= dx)%Q ->
      (dy <= 0)%Q \/ (inject_Z (_height bd - 1) <= dy)%Q ->
      let cx := if Qle_bool dx 0 then 0 else _width bd - 1 in
      let cy := if Qle_bool dy 0 then 0 else _height bd - 1 in
      Get_interpolated bd dx dy = (Get bd cx cy, [(cx, cy)])).
Proof.
  intros Hw Hh. split; [now apply Get_interpolated_in_canvas |].
  intros Hdx Hdy. cbv zeta. unfold Get_interpolated, Width, Height.
  change 0%Q with (inject_Z 0) in *.
  destruct (Do_clamps dx dy 0 0 (_width bd - 1) (_height bd - 1) (Get bd))
    as (cx & cy & HDo & Cx & Cy); try lia; try assumption.
  rewrite HDo.
  rewrite <- (corner_choice 0 (_width bd - 1) dx cx ltac:(lia) Cx),
    <- (corner_choice 0 (_height bd - 1) dy cy ltac:(lia) Cy). reflexivity.
Qed.

Lemma Get_interpolated_stays_on_the_canvas_witness :
  let bd : BitmapData U8 :=
    mkBitmapData 2 1 1 [4; 9] 0 (-1) 0 0 0 0 255 in
  let first : Mixable Color := {| Mix := fun a _ => a |} in
  Forall (fun p => in_canvas bd p = true)
    (snd (@Get_interpolated U8 exact_float_ops first bd (7 # 2) (-1 # 2)))
  /\ ((((7 # 2) <= 0)%Q \/ (inject_Z (_width bd - 1) <= (7 # 2))%Q) ->
      (((-1 # 2) <= 0)%Q \/ (inject_Z (_height bd - 1) <= (-1 # 2))%Q) ->
      @Get_interpolated U8 exact_float_ops first bd (7 # 2) (-1 # 2)
      = (Get bd 1 0, [(1, 0)])).
Proof.
  cbv zeta.
  apply (@Get_interpolated_stays_on_the_canvas exact_float_ops
           {| Mix := fun (a : Color) _ => a |} U8
           (mkBitmapData 2 1 1 [4; 9] 0 (-1) 0 0 0 0 255) (7 # 2) (-1 # 2));
    now vm_compute.
Defined.

(** ** Whole-buffer addition *)

Lemma static_cast_add_carries (T : SampleType) (a b : Z) :
  is_floating_point T = false ->
  0 <= a < 2 ^ bits T -> 0 <= b < 2 ^ bits T ->
  carries T a b (static_cast T (a + b)).
Proof.
  intros HT Ha Hb. rewrite static_cast_unsigned by exact HT. split; intros Hab.
  - apply Z.mod_small. lia.
  - symmetry. apply (Z.mod_unique_pos _ _ 1); lia.
Qed.

Lemma add_keeps_alpha (T : SampleType) (a b : Color) :
  _alpha (ColorOps.add T a b) = _alpha a.
Proof. reflexivity. Qed.

Lemma add_keeps_gray (T : SampleType) (g h a a' : Z) :
  exists k, ColorOps.add T (mkColor g g g a) (mkColor h h h a')
            = mkColor k k k a.
Proof. eexists. reflexivity. Qed.

(** X23.  For every unsigned sample type, [a += b] on colours reduces the sum of
    each of red, green and blue to the type and keeps alpha.  The
    whole-buffer [operator+=] of a well-formed container with a well-formed
    one of the same geometry throws nothing, keeps the geometry and replaces
    every pixel by that sum of the two pixels. *)
Theorem add_assign_carries `{FloatOps} (T : SampleType) :
  is_floating_point T = false ->
  (forall a b : Color,
     ColorOps.in_range T a -> ColorOps.in_range T b ->
     carries T (_red a) (_red b) (_red (ColorOps.add_assign T a b))
     /\ carries T (_green a) (_green b) (_green (ColorOps.add_assign T a b))
     /\ carries T (_blue a) (_blue b) (_blue (ColorOps.add_assign T a b))
     /\ _alpha (ColorOps.add_assign T a b) = _alpha a)
  /\ (forall lhs rhs : BitmapData T,
        well_formed lhs -> well_formed rhs -> same_geometry lhs rhs ->
        exists lhs' : BitmapData T,
          add_assign lhs rhs = (lhs', inr tt)
          /\ same_geometry lhs' lhs
          /\ forall i j : Z,
               0 <= i < _width lhs -> 0 <= j < _height lhs ->
               Get lhs' i j
               = ColorOps.add_assign T (Get lhs i j) (Get rhs i j)).
Proof.
  intros HT. split.
  - intros a b (Hr & Hg & Hb) (Hr' & Hg' & Hb'). unfold ColorOps.add_assign.
    cbn [_red _green _blue _alpha].
    repeat split; try (apply static_cast_add_carries; assumption).
  - intros lhs rhs Hl Hr (Ew & Eh & Ec).
    destruct (pixelwise_loop (ColorOps.add T) (add_keeps_alpha T)
                (add_keeps_gray T) lhs rhs Hl (eq_sym Ec))
      as (lhs' & E & Ew' & Eh' & Ec' & Hpix).
    exists lhs'. split; [exact E |]. split; [| exact Hpix].
    repeat split; assumption.
Qed.

Lemma add_assign_carries_witness :
  let a := mkColor 250 5 7 255 in
  let b := mkColor 10 3 2 255 in
  let lhs : BitmapData U8 :=
    mkBitmapData 1 1 3 [250; 5; 7] (-1) (-1) 0 1 2 0 255 in
  let rhs : BitmapData U8 :=
    mkBitmapData 1 1 3 [10; 3; 2] (-1) (-1) 0 1 2 0 255 in
  (carries U8 (_red a) (_red b) (_red (ColorOps.add_assign U8 a b))
   /\ carries U8 (_green a) (_green b) (_green (ColorOps.add_assign U8 a b))
   /\ carries U8 (_blue a) (_blue b) (_blue (ColorOps.add_assign U8 a b))
   /\ _alpha (ColorOps.add_assign U8 a b) = _alpha a)
  /\ (exists lhs' : BitmapData U8,
        @add_assign U8 exact_float_ops lhs rhs = (lhs', inr tt)
        /\ same_geometry lhs' lhs
        /\ forall i j : Z,
             0 <= i < _width lhs -> 0 <= j < _height lhs ->
             Get lhs' i j
             = ColorOps.add_assign U8 (Get lhs i j) (Get rhs i j)).
Proof.
  cbv zeta.
  destruct (@add_assign_carries exact_float_ops U8 eq_refl)
    as [Hcolor Hbuffer].
  split.
  - apply Hcolor; repeat split; now vm_compute.
  - apply Hbuffer.
    + repeat split; try (now vm_compute). right. left. repeat split.
    + repeat split; try (now vm_compute). right. left. repeat split.
    + repeat split.
Defined.

(** ** The display window *)

(** X24.  With a window [lo < hi] inside an unsigned type of at most 32 bits,
    whatever the gamma: a value displays as the value cut to the window
    does, and the result is a byte.  With gamma 0 everything at or below
    [lo] displays as 0 and everything at or above [hi] as 255. *)
Theorem display_value_saturates `{FloatOps} (T : SampleType)
    (bd : BitmapData T) :
  is_floating_point T = false -> sizeof T <= 4 ->
  0 <= _minDisplayedBrightness bd ->
  _minDisplayedBrightness bd < _maxDisplayedBrightness bd ->
  _maxDisplayedBrightness bd < 2 ^ bits T ->
  let lo := _minDisplayedBrightness bd in
  let hi := _maxDisplayedBrightness bd in
  (forall (gamma : Q) (v : Z),
     CalculateDisplayValue gamma bd v
     = CalculateDisplayValue gamma bd (Z.min (Z.max v lo) hi))
  /\ (forall (gamma : Q) (v : Z),
        0 <= CalculateDisplayValue gamma bd v <= 255)
  /\ (forall v, v <= lo -> CalculateDisplayValue 0 bd v = 0)
  /\ (forall v, hi <= v -> CalculateDisplayValue 0 bd v = 255).
Proof.
  intros HT _ Hlo Hlt Hhi lo hi.
  assert (Hcut : forall gamma v,
             CalculateDisplayValue gamma bd v
             = CalculateDisplayValue gamma bd (Z.min (Z.max v lo) hi)).
  { intros gamma v. unfold CalculateDisplayValue. cbv zeta. fold lo hi.
    replace (Z.min (Z.max (Z.min (Z.max v lo) hi) lo) hi)
      with (Z.min (Z.max v lo) hi) by lia.
    reflexivity. }
  assert (Hend : forall v, lo <= v <= hi ->
             CalculateDisplayValue 0 bd v
             = Z.max 0 (Z.min 255
                 ((2 * (255 * (v - lo)) + (hi - lo)) / (2 * (hi - lo))))).
  { intros v Hv.
    exact (CalculateDisplayValue_linear T bd v HT Hlo Hlt Hhi Hv). }
  split; [exact Hcut |]. split; [| split].
  - intros gamma v. unfold CalculateDisplayValue. cbv zeta.
    destruct (Qeq_bool gamma 0); lia.
  - intros v Hv. rewrite Hcut.
    replace (Z.min (Z.max v lo) hi) with lo by lia.
    rewrite Hend by lia.
    replace (2 * (255 * (lo - lo)) + (hi - lo)) with (hi - lo) by lia.
    rewrite Z.div_small by lia. reflexivity.
  - intros v Hv. rewrite Hcut.
    replace (Z.min (Z.max v lo) hi) with hi by lia.
    rewrite Hend by lia.
    replace (2 * (255 * (hi - lo)) + (hi - lo))
      with (255 * (2 * (hi - lo)) + (hi - lo)) by lia.
    rewrite Z.div_add_l by lia. rewrite (Z.div_small (hi - lo)) by lia.
    reflexivity.
Qed.

Lemma display_value_saturates_witness :
  let bd : BitmapData U8 :=
    mkBitmapData 1 1 1 [0] 0 (-1) 0 0 0 10 200 in
  @CalculateDisplayValue U8 exact_float_ops 0 bd 3 = 0
  /\ @CalculateDisplayValue U8 exact_float_ops 0 bd 250 = 255.
Proof.
  cbv zeta.
  destruct (@display_value_saturates exact_float_ops U8
              (mkBitmapData 1 1 1 [0] 0 (-1) 0 0 0 10 200) eq_refl
              ltac:(now vm_compute) ltac:(now vm_compute)
              ltac:(now vm_compute) ltac:(now vm_compute))
    as (_ & _ & Hlow & Hhigh).
  split; [apply Hlow | apply Hhigh]; now vm_compute.
Defined.

(** ** The order on colours *)

(** X25.  The comparison operators order colours by gray value: of [a < b],
    [a > b] and "[a <= b] and [a >= b]" exactly one holds, and equal colours
    are in the third case.  Two colours without hue are in the third case
    exactly when their values agree. *)
Theorem colours_are_ordered_by_gray `{FloatOps} (T : SampleType)
    (a b : Color) :
  (ColorOps.ltb T a b = true
   /\ ColorOps.gtb T a b = false
   /\ ColorOps.leb T a b && ColorOps.geb T a b = false
   \/ ColorOps.ltb T a b = false
      /\ ColorOps.gtb T a b = true
      /\ ColorOps.leb T a b && ColorOps.geb T a b = false
   \/ ColorOps.ltb T a b = false
      /\ ColorOps.gtb T a b = false
      /\ ColorOps.leb T a b && ColorOps.geb T a b = true)
  /\ (ColorOps.eqb a b = true ->
      ColorOps.leb T a b && ColorOps.geb T a b = true)
  /\ (ColorOps.IsColored a = false -> ColorOps.IsColored b = false ->
      (ColorOps.leb T a b && ColorOps.geb T a b = true
       <-> _red a = _red b)).
Proof.
  unfold ColorOps.gtb, ColorOps.leb, ColorOps.geb, ColorOps.ltb.
  split; [| split].
  - destruct (Z.ltb_spec (ColorOps.Gray T a) (ColorOps.Gray T b)),
      (Z.ltb_spec (ColorOps.Gray T b) (ColorOps.Gray T a));
      cbn [negb andb]; lia.
  - unfold ColorOps.eqb, ColorOps.Red, ColorOps.Green, ColorOps.Blue,
      ColorOps.Alpha.
    intros Heq. rewrite !andb_true_iff, !Z.eqb_eq in Heq.
    destruct Heq as [[[Er Eg] Eb] Ea].
    destruct a as [r g bl al], b as [r' g' bl' al'].
    cbn [_red _green _blue _alpha] in *. subst.
    rewrite Z.ltb_irrefl. reflexivity.
  - unfold ColorOps.IsColored, ColorOps.Gray.
    rewrite !orb_false_iff, !negb_false_iff. intros [-> ->] [-> ->].
    cbn [andb]. rewrite andb_true_iff, !negb_true_iff, !Z.ltb_ge. lia.
Qed.
